(** * nanobot QQ channel ([nanobot/channels/qq.py]): a shallow embedding

    The channel bridges a chat platform and the internal message bus.  This
    development embeds the inbound handler [_on_message], the media fetcher
    [_download_media], the session supervisor ([start], [_run_bot]) and the
    bounded [deque] of processed message ids, and proves the properties the
    specification states about them.

    Conventions.
    - A Python [str] is modelled as the [string] of its UTF-8 bytes.
      [split], [startswith] and the comparisons with the command names
      work on these bytes as they do on the text.  [strip] removes the
      white space of [str.isspace], given by its UTF-8 encodings.
      [isdigit] and [int] go through the characters of the text; the
      numeric type of a non-ASCII character comes from the interpreter's
      Unicode database, which is a parameter (a field of [Env]).
    - A Python attribute that may be absent from a duck-typed object is an
      [attr]; a [str | None] value is an [option string].
    - Effects (logging, HTTP, temporary files, bus publishing, the platform
      client) are threaded through a state-and-exception monad [M] over a
      [World]; the collaborators that are outside the repository answer
      through an environment [Env] of oracles indexed by a logical clock. *)

From Stdlib Require Import ZArith String Ascii List Lia.
From stdpp Require Import base option list gmap strings pretty.

Local Open Scope string_scope.
Local Open Scope list_scope.

(** ** Python string builtins *)

Module PyStr.

(** [str.isspace] on one ASCII character: TAB..CR, FS..US and space. *)
Definition is_space (c : ascii) : bool :=
  let n := nat_of_ascii c in
  ((9 <=? n)%nat && (n <=? 13)%nat) || ((28 <=? n)%nat && (n <=? 32)%nat).

(** The white space encoded on two bytes: U+0085 and U+00A0. *)
Definition is_space2 (a b : ascii) : bool :=
  (nat_of_ascii a =? 194)%nat
  && ((nat_of_ascii b =? 133)%nat || (nat_of_ascii b =? 160)%nat).

(** The white space encoded on three bytes: U+1680, U+2000..U+200A,
    U+2028, U+2029, U+202F, U+205F and U+3000. *)
Definition is_space3 (a b c : ascii) : bool :=
  let x := nat_of_ascii a in
  let y := nat_of_ascii b in
  let z := nat_of_ascii c in
  ((x =? 225)%nat && (y =? 154)%nat && (z =? 128)%nat)
  || ((x =? 226)%nat && (y =? 128)%nat
      && (((128 <=? z)%nat && (z <=? 138)%nat)
          || (z =? 168)%nat || (z =? 169)%nat || (z =? 175)%nat))
  || ((x =? 226)%nat && (y =? 129)%nat && (z =? 159)%nat)
  || ((x =? 227)%nat && (y =? 128)%nat && (z =? 128)%nat).

(** The string is one white space character. *)
Definition is_space_char (s : string) : bool :=
  match s with
  | String a "" => is_space a
  | String a (String b "") => is_space2 a b
  | String a (String b (String c "")) => is_space3 a b c
  | _ => false
  end.

Definition is_digit (c : ascii) : bool :=
  let n := nat_of_ascii c in (48 <=? n)%nat && (n <=? 57)%nat.

Definition is_empty (s : string) : bool :=
  match s with "" => true | String _ _ => false end.

Fixpoint lstrip (s : string) : string :=
  match s with
  | "" => ""
  | String a s1 =>
      if is_space a then lstrip s1
      else
        match s1 with
        | String b s2 =>
            if is_space2 a b then lstrip s2
            else
              match s2 with
              | String c s3 => if is_space3 a b c then lstrip s3 else s
              | "" => s
              end
        | "" => s
        end
  end.

Fixpoint rstrip (s : string) : string :=
  match s with
  | "" => ""
  | String c s' =>
      let r := rstrip s' in
      if is_space_char (String c r) then "" else String c r
  end.

(** [s.strip()] *)
Definition strip (s : string) : string := rstrip (lstrip s).

(** [s.startswith(p)] *)
Definition startswith (p s : string) : bool := String.prefix p s.

Definition lower_ascii (c : ascii) : ascii :=
  let n := nat_of_ascii c in
  if (65 <=? n)%nat && (n <=? 90)%nat then ascii_of_nat (n + 32) else c.

(** [s.lower()] as far as the handler observes it: ASCII letters are
    lowered and every other byte is kept.  [str.lower] also lowers
    letters outside ASCII, but no character outside ASCII lowers to a
    character of ["/reset"] or ["/context"], so the two comparisons of
    the handler come out as on the text. *)
Fixpoint lower (s : string) : string :=
  match s with
  | "" => ""
  | String c s' => String (lower_ascii c) (lower s')
  end.

(** The numeric type of a character in the Unicode database, as
    [isdigit] and [int] use it: no digit, a decimal digit with its value
    (['5'], the full-width digit five), or a digit that is not decimal
    (the superscript two, a circled digit). *)
Inductive digit_class : Type :=
| NotDigit
| DecimalDigit (value : nat)
| OtherDigit.

Definition is_digit_class (d : digit_class) : bool :=
  match d with
  | NotDigit => false
  | DecimalDigit _ | OtherDigit => true
  end.

(** The number of bytes of the UTF-8 character that starts with [b]. *)
Definition utf8_len (b : ascii) : nat :=
  let n := nat_of_ascii b in
  if (n <? 192)%nat then 1
  else if (n <? 224)%nat then 2
  else if (n <? 240)%nat then 3
  else if (n <? 248)%nat then 4
  else 1.

(** The characters of a text, each as its UTF-8 bytes: [need] bytes are
    still missing from the character [cur]. *)
Fixpoint utf8_chars_from (need : nat) (cur : string) (s : string) : list string :=
  match s with
  | "" => if is_empty cur then [] else [cur]
  | String b s' =>
      match need with
      | O =>
          match utf8_len b with
          | S (S k) => utf8_chars_from (S k) (String b "") s'
          | _ => String b "" :: utf8_chars_from 0 "" s'
          end
      | S O => (cur +:+ String b "") :: utf8_chars_from 0 "" s'
      | S k => utf8_chars_from k (cur +:+ String b "") s'
      end
  end.

Definition utf8_chars (s : string) : list string := utf8_chars_from 0 "" s.

(** The numeric type of one character: fixed for ASCII, looked up in
    the Unicode database [ud] otherwise. *)
Definition classify (ud : string -> digit_class) (ch : string) : digit_class :=
  match ch with
  | String c "" =>
      if (nat_of_ascii c <? 128)%nat
      then if is_digit c then DecimalDigit (nat_of_ascii c - 48) else NotDigit
      else ud ch
  | _ => ud ch
  end.

Definition digit_classes (ud : string -> digit_class) (s : string) : list digit_class :=
  map (classify ud) (utf8_chars s).

(** [s.isdigit()]: at least one character, and every character a digit. *)
Definition isdigit (ud : string -> digit_class) (s : string) : bool :=
  negb (is_empty s) && forallb is_digit_class (digit_classes ud s).

(** The default of [sys.get_int_max_str_digits()]. *)
Definition int_max_str_digits : nat := 4300.

(** The number of decimal digits a text starts with. *)
Fixpoint leading_decimals (ds : list digit_class) : nat :=
  match ds with
  | DecimalDigit _ :: rest => S (leading_decimals rest)
  | _ => O
  end.

Fixpoint decimal_value (acc : Z) (ds : list digit_class) : option Z :=
  match ds with
  | [] => Some acc
  | DecimalDigit v :: rest => decimal_value (10 * acc + Z.of_nat v) rest
  | _ => None
  end.

Inductive int_result : Type :=
| IntValue (z : Z)
| IntTooLong (digits : nat)
| IntInvalid.

(** [int(s)] on a text without sign, blanks or underscores: its value
    when it is a non-empty run of at most [int_max_str_digits] decimal
    digits; otherwise [int] raises [ValueError]. *)
Definition int (ud : string -> digit_class) (s : string) : int_result :=
  let ds := digit_classes ud s in
  if (int_max_str_digits <? leading_decimals ds)%nat then IntTooLong (leading_decimals ds)
  else
    match ds with
    | [] => IntInvalid
    | _ => match decimal_value 0 ds with
           | Some z => IntValue z
           | None => IntInvalid
           end
    end.

(** The text before and after the first occurrence of [sep], if any. *)
Fixpoint partition (sep : ascii) (s : string) : option (string * string) :=
  match s with
  | "" => None
  | String c s' =>
      if Ascii.eqb c sep then Some ("", s')
      else match partition sep s' with
           | Some (pre, post) => Some (String c pre, post)
           | None => None
           end
  end.

(** [s.split(sep, maxsplit)] for a one-character separator. *)
Fixpoint split (sep : ascii) (maxsplit : nat) (s : string) : list string :=
  match maxsplit with
  | O => [s]
  | S n =>
      match partition sep s with
      | None => [s]
      | Some (pre, post) => pre :: split sep n post
      end
  end.

(** Python truthiness of a [str | None] value. *)
Definition truthy (v : option string) : bool :=
  match v with
  | Some s => negb (is_empty s)
  | None => false
  end.

(** [str(v)] for a [str | None] value. *)
Definition str (v : option string) : string :=
  match v with
  | Some s => s
  | None => "None"
  end.

End PyStr.

(** ** Data model *)

(** Values stored in the metadata dictionary. *)
Inductive pyval : Type :=
| PNone
| PStr (s : string)
| PBool (b : bool)
| PInt (z : Z).

Definition of_pystr (v : option string) : pyval :=
  match v with
  | Some s => PStr s
  | None => PNone
  end.

(** An attribute of a duck-typed object: absent, or present with a value. *)
Inductive attr (A : Type) : Type :=
| Missing
| Present (a : A).
Arguments Missing {A}.
Arguments Present {A} a.

Record Attachment : Type := { att_url : attr (option string) }.

Record Author : Type := {
  author_id : attr (option string);
  author_user_openid : attr (option string)
}.

(** The raw inbound event ([C2CMessage] or a direct message). *)
Record C2CMessage : Type := {
  data_id : attr (option string);
  data_author : attr Author;
  data_content : attr (option string);
  data_attachments : attr (option (list Attachment))
}.

(** The keyword arguments [_on_message] hands to [_handle_message]: the
    canonical inbound message. *)
Record InboundMessage : Type := {
  sender_id : string;
  chat_id : string;
  content : string;
  metadata : gmap string pyval;
  media : list string
}.

(** ** Exceptions *)

(** The exceptions the model can raise.  [AttributeError], [ValueError]
    and [RuntimeException] (any other error raised by a collaborator: a
    transport error, an [OSError], ...) are instances of [Exception];
    [CancelledError], [KeyboardInterrupt] and [SystemExit] derive from
    [BaseException] only. *)
Inductive exn : Type :=
| AttributeError (msg : string)
| ValueError (msg : string)
| RuntimeException (msg : string)
| CancelledError
| KeyboardInterrupt
| SystemExit.

(** [isinstance(e, Exception)] *)
Definition is_Exception (e : exn) : bool :=
  match e with
  | AttributeError _ | ValueError _ | RuntimeException _ => true
  | CancelledError | KeyboardInterrupt | SystemExit => false
  end.

(** [str(e)] *)
Definition exn_str (e : exn) : string :=
  match e with
  | AttributeError msg | ValueError msg | RuntimeException msg => msg
  | CancelledError | KeyboardInterrupt | SystemExit => ""
  end.

Inductive result (A : Type) : Type :=
| Ok (a : A)
| Raise (e : exn).
Arguments Ok {A} a.
Arguments Raise {A} e.

(** ** Command interpretation (lines 146-166 of [_on_message]) *)

Definition reset_marker : string := "Reset conversation context.".

(** [ud] is the Unicode database.  The only step that can raise is
    [int(parts[1])] on line 164. *)
Definition parse_command (ud : string -> PyStr.digit_class) (mid : option string)
  (raw_content : string) : result (string * gmap string pyval) :=
  let content := raw_content in
  let metadata : gmap string pyval := {[ "message_id" := of_pystr mid ]} in
  if PyStr.startswith "/" content then
    let parts := PyStr.split " " 2 content in
    let cmd := PyStr.lower (nth 0 parts "") in
    if String.eqb cmd "/reset" then
      Ok (reset_marker, <[ "reset_session" := PBool true ]> metadata)
    else if String.eqb cmd "/context" then
      if (2 <=? length parts)%nat && PyStr.isdigit ud (nth 1 parts "") then
        match PyStr.int ud (nth 1 parts "") with
        | PyStr.IntValue n =>
            let metadata := <[ "memory_window" := PInt n ]> metadata in
            Ok (if (2 <? length parts)%nat then nth 2 parts ""
                else "Set context window to " +:+ nth 1 parts "",
                metadata)
        | PyStr.IntTooLong digits =>
            Raise (ValueError
                     ("Exceeds the limit (4300 digits) for integer string conversion: value has "
                      +:+ pretty digits
                      +:+ " digits; use sys.set_int_max_str_digits() to increase the limit"))
        | PyStr.IntInvalid =>
            Raise (ValueError
                     ("invalid literal for int() with base 10: '" +:+ nth 1 parts "" +:+ "'"))
        end
      else Ok (content, metadata)
    else Ok (content, metadata)
  else Ok (content, metadata).

(** ** The world and the effect monad *)

Inductive level : Type := ERROR | WARNING | INFO.

(** [collections.deque] with a [maxlen]. *)
Record deque (A : Type) : Type := {
  dq_items : list A;
  dq_maxlen : nat
}.
Arguments dq_items {A} d.
Arguments dq_maxlen {A} d.

Definition deque_new {A : Type} (maxlen : nat) : deque A :=
  {| dq_items := []; dq_maxlen := maxlen |}.

(** [d.append(x)]: append on the right; when that makes the deque longer
    than [maxlen], drop its leftmost element. *)
Definition deque_append {A : Type} (x : A) (d : deque A) : deque A :=
  let l := dq_items d ++ [x] in
  {| dq_items := if (dq_maxlen d <? length l)%nat then drop 1 l else l;
     dq_maxlen := dq_maxlen d |}.

(** [x in d] *)
Definition deque_contains {A : Type} `{EqDecision A} (x : A) (d : deque A) : bool :=
  bool_decide (x ∈ dq_items d).

Record QQConfig : Type := {
  app_id : option string;
  secret : option string
}.

(** An instance of the [_Bot] class of [_make_bot_class]: its object
    identity, and the channel its closure is bound to. *)
Record Client : Type := {
  client_oid : nat;
  client_channel : nat
}.

Record QQChannel : Type := {
  chan_oid : nat;
  config : QQConfig;
  _running : bool;
  _client : option Client;
  _processed_ids : deque (option string);
  _bot_task : option nat
}.

(** What the channel does to the outside, in order. *)
Inductive action : Type :=
| ActLog (lvl : level) (msg : string)
| ActHttpGet (url : string)
| ActWriteTemp (path : string) (body : string)
| ActPublish (msg : InboundMessage)
| ActNewClient (c : Client)
| ActCreateTask (task : nat)
| ActClientStart (c : Client) (appid : option string) (secret : option string)
| ActSleep (seconds : nat).

Record World : Type := {
  chan : QQChannel;
  trace : list action;
  clock : nat;
  next_oid : nat
}.

(** Answer of [session.get(url)] and of reading the response. *)
Inductive http_outcome : Type :=
| HttpResponse (status : Z) (body : string) (content_type : option string)
| HttpRaise (e : exn).

(** What happens while the loop task is suspended in an [await]: the
    awaited call returns or raises, and [stop()] may have run meanwhile. *)
Record await_outcome : Type := {
  aw_raised : option exn;
  aw_stop_called : bool
}.

(** The collaborators outside this file, as oracles over the logical clock,
    and the Unicode database of the interpreter ([unicode_digit]: the
    numeric type of a non-ASCII character given by its UTF-8 bytes). *)
Record Env : Type := {
  QQ_AVAILABLE : bool;
  unicode_digit : string -> PyStr.digit_class;
  http_get : nat -> string -> http_outcome;
  guess_extension : string -> option string;
  bus_publish : nat -> InboundMessage -> option exn;
  client_start : nat -> Client -> await_outcome;
  sleep_outcome : nat -> await_outcome
}.

Definition M (A : Type) : Type := World -> result A * World.

Definition ret {A : Type} (a : A) : M A := fun w => (Ok a, w).

Definition bind {A B : Type} (m : M A) (k : A -> M B) : M B :=
  fun w =>
    match m w with
    | (Ok a, w') => k a w'
    | (Raise e, w') => (Raise e, w')
    end.

Definition raise {A : Type} (e : exn) : M A := fun w => (Raise e, w).

Declare Scope py_scope.
Delimit Scope py_scope with py.
Notation "'let*' x := m 'in' k" := (bind m (fun x => k))
  (at level 10, x name, m at level 100, k at level 200) : py_scope.
Notation "m ;;; k" := (bind m (fun _ => k))
  (at level 100, k at level 200, right associativity) : py_scope.
Local Open Scope py_scope.

(** [try: m  except Exception as e: handler e] *)
Definition try_except {A : Type} (m : M A) (handler : exn -> M A) : M A :=
  fun w =>
    match m w with
    | (Ok a, w') => (Ok a, w')
    | (Raise e, w') => if is_Exception e then handler e w' else (Raise e, w')
    end.

Definition get_chan : M QQChannel := fun w => (Ok (chan w), w).

Definition put_chan (c : QQChannel) : M unit :=
  fun w => (Ok tt, {| chan := c; trace := trace w; clock := clock w; next_oid := next_oid w |}).

Definition emit (a : action) : M unit :=
  fun w => (Ok tt, {| chan := chan w; trace := trace w ++ [a]; clock := clock w; next_oid := next_oid w |}).

(** Read the clock and advance it. *)
Definition tick : M nat :=
  fun w => (Ok (clock w), {| chan := chan w; trace := trace w; clock := S (clock w); next_oid := next_oid w |}).

(** Allocate a fresh object identity. *)
Definition fresh_oid : M nat :=
  fun w => (Ok (next_oid w), {| chan := chan w; trace := trace w; clock := clock w; next_oid := S (next_oid w) |}).

Definition log (lvl : level) (msg : string) : M unit := emit (ActLog lvl msg).

(** A pure step that returns or raises. *)
Definition of_result {A : Type} (r : result A) : M A := fun w => (r, w).

(** [obj.name] on a duck-typed object. *)
Definition getattr {A : Type} (a : attr A) (name : string) : M A :=
  match a with
  | Present v => ret v
  | Missing => raise (AttributeError ("object has no attribute '" +:+ name +:+ "'"))
  end.

Definition set_running (b : bool) (c : QQChannel) : QQChannel :=
  {| chan_oid := chan_oid c; config := config c; _running := b; _client := _client c;
     _processed_ids := _processed_ids c; _bot_task := _bot_task c |}.

Definition set_client (cl : option Client) (c : QQChannel) : QQChannel :=
  {| chan_oid := chan_oid c; config := config c; _running := _running c; _client := cl;
     _processed_ids := _processed_ids c; _bot_task := _bot_task c |}.

Definition set_processed_ids (d : deque (option string)) (c : QQChannel) : QQChannel :=
  {| chan_oid := chan_oid c; config := config c; _running := _running c; _client := _client c;
     _processed_ids := d; _bot_task := _bot_task c |}.

Definition set_bot_task (t : option nat) (c : QQChannel) : QQChannel :=
  {| chan_oid := chan_oid c; config := config c; _running := _running c; _client := _client c;
     _processed_ids := _processed_ids c; _bot_task := t |}.

Definition modify_chan (f : QQChannel -> QQChannel) : M unit :=
  let* c := get_chan in put_chan (f c).

(** ** The channel's operations *)

Section Channel.

Variable env : Env.

(** [QQChannel.__init__]: [super().__init__] leaves the channel not
    running; no client, an empty deque of at most 1000 ids, no task. *)
Definition __init__ (oid : nat) (cfg : QQConfig) : QQChannel :=
  {| chan_oid := oid;
     config := cfg;
     _running := false;
     _client := None;
     _processed_ids := deque_new 1000;
     _bot_task := None |}.

(** [_make_bot_class(channel)]: the class, as its constructor from a
    fresh object identity. *)
Definition _make_bot_class (channel : QQChannel) : nat -> Client :=
  fun oid => {| client_oid := oid; client_channel := chan_oid channel |}.

(** [start] *)
Definition start : M unit :=
  if negb (QQ_AVAILABLE env) then
    log ERROR "QQ SDK not installed. Run: pip install qq-botpy"
  else
    let* self := get_chan in
    if negb (PyStr.truthy (app_id (config self))) || negb (PyStr.truthy (secret (config self))) then
      log ERROR "QQ app_id and secret not configured"
    else
      modify_chan (set_running true) ;;;
      let* self := get_chan in
      let BotClass := _make_bot_class self in
      let* oid := fresh_oid in
      emit (ActNewClient (BotClass oid)) ;;;
      modify_chan (set_client (Some (BotClass oid))) ;;;
      let* task := fresh_oid in
      emit (ActCreateTask task) ;;;
      modify_chan (set_bot_task (Some task)) ;;;
      log INFO "QQ bot started (C2C private message)".

(** An [await] inside the loop task: [stop()] may run meanwhile and
    clear the running flag; then the awaited call returns or raises. *)
Definition await_ (o : await_outcome) : M unit :=
  (if aw_stop_called o then modify_chan (set_running false) else ret tt) ;;;
  match aw_raised o with
  | Some e => raise e
  | None => ret tt
  end.

(** [await self._client.start(appid=..., secret=...)] *)
Definition _client_start : M unit :=
  let* self := get_chan in
  match _client self with
  | None => raise (AttributeError "'NoneType' object has no attribute 'start'")
  | Some c =>
      let* t := tick in
      emit (ActClientStart c (app_id (config self)) (secret (config self))) ;;;
      await_ (client_start env t c)
  end.

(** [_run_bot]: the reconnect loop, unrolled at most [fuel] times.  The
    result is [true] when the loop has exited and [false] when the fuel
    ran out with the loop still going. *)
Fixpoint _run_bot (fuel : nat) : M bool :=
  match fuel with
  | O => ret false
  | S fuel' =>
      let* self := get_chan in
      if _running self then
        try_except _client_start
          (fun e => log WARNING ("QQ bot error: " +:+ exn_str e)) ;;;
        let* self := get_chan in
        (if _running self then
           log INFO "Reconnecting QQ bot in 5 seconds..." ;;;
           let* t := tick in
           emit (ActSleep 5) ;;;
           await_ (sleep_outcome env t)
         else ret tt) ;;;
        _run_bot fuel'
      else ret true
  end.

(** [tempfile.NamedTemporaryFile(delete=False, suffix=ext)]: a name that
    no earlier call returned. *)
Definition NamedTemporaryFile (suffix : string) : M string :=
  let* t := tick in
  ret ("/tmp/tmp" +:+ pretty t +:+ suffix).

(** [_download_media] *)
Definition _download_media (url : string) : M (option string) :=
  try_except
    (let* t := tick in
     emit (ActHttpGet url) ;;;
     match http_get env t url with
     | HttpRaise e => raise e
     | HttpResponse status body content_type =>
         if (status =? 200)%Z then
           let content_type := default "" content_type in
           let ext :=
             match guess_extension env content_type with
             | Some e => if PyStr.is_empty e then ".jpg" else e
             | None => ".jpg"
             end in
           let* name := NamedTemporaryFile ext in
           emit (ActWriteTemp name body) ;;;
           ret (Some name)
         else ret None
     end)
    (fun e =>
       log ERROR ("Failed to download media: " +:+ exn_str e) ;;;
       ret None).

(** Modelled from the spec: [BaseChannel._handle_message] is defined in
    [nanobot/channels/base.py], which is not among the sources; following
    section 4.5 step (6) it publishes the canonical message to the bus.
    The bus may refuse with an exception. *)
Definition _handle_message (msg : InboundMessage) : M unit :=
  let* t := tick in
  match bus_publish env t msg with
  | Some e => raise e
  | None => emit (ActPublish msg)
  end.

(** Lines 141-142: the sender id. *)
Definition resolve_user_id (author : Author) : string :=
  let primary :=
    match author_id author with
    | Present v => v
    | Missing => None
    end in
  PyStr.str
    (if PyStr.truthy primary then primary
     else match author_user_openid author with
          | Present v => v
          | Missing => Some "unknown"
          end).

(** Lines 172-175: the loop over the attachments. *)
Fixpoint fetch_attachments (atts : list Attachment) (media : list string)
  : M (list string) :=
  match atts with
  | [] => ret media
  | att :: rest =>
      match att_url att with
      | Present (Some url) =>
          if PyStr.is_empty url then fetch_attachments rest media
          else
            let* path := _download_media url in
            fetch_attachments rest
              (if PyStr.truthy path then media ++ [PyStr.str path] else media)
      | Present None | Missing => fetch_attachments rest media
      end
  end.

(** Lines 170-175: the media of an event. *)
Definition collect_media (data : C2CMessage) : M (list string) :=
  match data_attachments data with
  | Present (Some ((_ :: _) as atts)) => fetch_attachments atts []
  | _ => ret []
  end.

(** Lines 141-186: what [_on_message] does with an event once its id
    [mid] has been marked as processed. *)
Definition process_new (data : C2CMessage) (mid : option string) : M unit :=
  let* author := getattr (data_author data) "author" in
  let user_id := resolve_user_id author in
  let* c := getattr (data_content data) "content" in
  let raw_content := PyStr.strip (if PyStr.truthy c then PyStr.str c else "") in
  let* interpreted := of_result (parse_command (unicode_digit env) mid raw_content) in
  let '(content, metadata) := interpreted in
  let* media := collect_media data in
  if PyStr.is_empty content && bool_decide (media = []) then ret tt
  else
    _handle_message
      {| sender_id := user_id;
         chat_id := user_id;
         content := if PyStr.is_empty content then "[Image Message]" else content;
         metadata := metadata;
         media := media |}.

(** Lines 136-186: the body of the [try]. *)
Definition _on_message_body (data : C2CMessage) : M unit :=
  let* mid := getattr (data_id data) "id" in
  let* self := get_chan in
  if deque_contains mid (_processed_ids self) then ret tt
  else
    modify_chan (fun c => set_processed_ids (deque_append mid (_processed_ids c)) c) ;;;
    process_new data mid.

(** [_on_message] *)
Definition _on_message (data : C2CMessage) : M unit :=
  try_except (_on_message_body data)
    (fun e => log ERROR ("Error handling QQ message: " +:+ exn_str e)).

(** Events delivered one after the other; an exception that escapes a
    handler ends that handler only. *)
Fixpoint deliver (events : list C2CMessage) (w : World) : World :=
  match events with
  | [] => w
  | data :: rest => deliver rest (snd (_on_message data w))
  end.

End Channel.

(** The messages published so far. *)
Definition published (w : World) : list InboundMessage :=
  omap (fun a => match a with ActPublish m => Some m | _ => None end) (trace w).

(** The clients of the connection attempts made so far, in order. *)
Definition connection_attempts (w : World) : list Client :=
  omap (fun a => match a with ActClientStart c _ _ => Some c | _ => None end) (trace w).

(** The clients created so far. *)
Definition clients_created (w : World) : list Client :=
  omap (fun a => match a with ActNewClient c => Some c | _ => None end) (trace w).

(** A world around a freshly constructed channel. *)
Definition init_world (cfg : QQConfig) : World :=
  {| chan := __init__ 0 cfg; trace := []; clock := 0; next_oid := 1 |}.

(** [self._processed_ids.append(mid)] on the channel of a world. *)
Definition mark_seen (mid : option string) (w : World) : World :=
  {| chan := set_processed_ids (deque_append mid (_processed_ids (chan w))) (chan w);
     trace := trace w; clock := clock w; next_oid := next_oid w |}.

Definition ledger (w : World) : deque (option string) := _processed_ids (chan w).

(** ** Relations between worlds *)

(** A computation respects [R] when every run relates the world before to
    the world after, whether it returns or raises. *)
Definition respects (R : relation World) {A : Type} (m : M A) : Prop :=
  forall w, R w (snd (m w)).

Definition same_chan : relation World := fun w w' => chan w' = chan w.
Definition same_ledger : relation World := fun w w' => ledger w' = ledger w.
Definition same_published : relation World := fun w w' => published w' = published w.

(** The [n] most recent elements of [l]. *)
Definition window {A : Type} (n : nat) (l : list A) : list A :=
  drop (length l - n) l.

(** ** Reachable worlds *)

(** One step of the channel's life: an event is handled, [start] runs, or
    the loop task runs for a while. *)
Inductive step (env : Env) : World -> World -> Prop :=
| step_message (data : C2CMessage) (w : World) :
    step env w (snd (_on_message env data w))
| step_start (w : World) :
    step env w (snd (start env w))
| step_run_bot (fuel : nat) (w : World) :
    step env w (snd (_run_bot env fuel w)).

Definition reachable (env : Env) (cfg : QQConfig) (w : World) : Prop :=
  rtc (step env) (init_world cfg) w.

(** ** Sample environments and events *)

Definition no_interrupt : await_outcome :=
  {| aw_raised := None; aw_stop_called := false |}.

Definition connection_lost : await_outcome :=
  {| aw_raised := Some (RuntimeException "connection lost"); aw_stop_called := false |}.

(** One image is served; every other URL answers 404.  The bus accepts
    every message and every connection attempt fails. *)
(** A few entries of the Unicode database: the superscripts two and
    three and the circled one are digits that are not decimal, the
    full-width digits are decimal. *)
Definition sample_unicode_digit (ch : string) : PyStr.digit_class :=
  match ch with
  | String a (String b "") =>
      if (nat_of_ascii a =? 194)%nat
         && ((nat_of_ascii b =? 178)%nat || (nat_of_ascii b =? 179)%nat
             || (nat_of_ascii b =? 185)%nat)
      then PyStr.OtherDigit else PyStr.NotDigit
  | String a (String b (String c "")) =>
      if (nat_of_ascii a =? 239)%nat && (nat_of_ascii b =? 188)%nat
         && (144 <=? nat_of_ascii c)%nat && (nat_of_ascii c <=? 153)%nat
      then PyStr.DecimalDigit (nat_of_ascii c - 144)
      else if (nat_of_ascii a =? 226)%nat && (nat_of_ascii b =? 145)%nat
              && (nat_of_ascii c =? 160)%nat
      then PyStr.OtherDigit
      else PyStr.NotDigit
  | _ => PyStr.NotDigit
  end.

Definition sample_env : Env :=
  {| QQ_AVAILABLE := true;
     unicode_digit := sample_unicode_digit;
     http_get := fun _ url =>
       if String.eqb url "https://cdn.example/a.png"
       then HttpResponse 200 "PNG" (Some "image/png")
       else HttpResponse 404 "" None;
     guess_extension := fun ct => if String.eqb ct "image/png" then Some ".png" else None;
     bus_publish := fun _ _ => None;
     client_start := fun _ _ => connection_lost;
     sleep_outcome := fun _ => no_interrupt |}.

(** As [sample_env], but the handler task is cancelled while it awaits the
    bus. *)
Definition cancelling_env : Env :=
  {| QQ_AVAILABLE := true;
     unicode_digit := sample_unicode_digit;
     http_get := http_get sample_env;
     guess_extension := guess_extension sample_env;
     bus_publish := fun _ _ => Some CancelledError;
     client_start := client_start sample_env;
     sleep_outcome := sleep_outcome sample_env |}.

Definition sample_config : QQConfig :=
  {| app_id := Some "102000001"; secret := Some "s3cret" |}.

Definition sample_author : Author :=
  {| author_id := Missing;
     author_user_openid := Present (Some "E4F4AEA33253A2797FB897C50B81D7ED") |}.

Definition text_event (mid text : string) : C2CMessage :=
  {| data_id := Present (Some mid);
     data_author := Present sample_author;
     data_content := Present (Some text);
     data_attachments := Present None |}.

Definition image_event (mid : string) (urls : list string) : C2CMessage :=
  {| data_id := Present (Some mid);
     data_author := Present sample_author;
     data_content := Present (Some "");
     data_attachments :=
       Present (Some (map (fun u => {| att_url := Present (Some u) |}) urls)) |}.

(** An event whose author attribute is absent. *)
Definition malformed_event (mid : string) : C2CMessage :=
  {| data_id := Present (Some mid);
     data_author := Missing;
     data_content := Present (Some "hi");
     data_attachments := Missing |}.

(** [n] events with the ids ["0"], ["1"], ... *)
Definition numbered_events (n : nat) : list C2CMessage :=
  map (fun k => text_event (pretty k) "hi") (seq 0 n).

(** ** Vocabulary for stating what [split], [isdigit] and [int] return *)

(** The text is a run of ASCII digits. *)
Fixpoint ascii_digits (s : string) : bool :=
  match s with
  | "" => true
  | String c s' => PyStr.is_digit c && ascii_digits s'
  end.

(** The value of a run of ASCII digits, read in base ten after [acc]. *)
Fixpoint ascii_value (acc : Z) (s : string) : Z :=
  match s with
  | "" => acc
  | String c s' => ascii_value (10 * acc + Z.of_nat (nat_of_ascii c - 48)) s'
  end.


(** [c in s] *)
Fixpoint has_char (c : ascii) (s : string) : bool :=
  match s with
  | "" => false
  | String c' s' => Ascii.eqb c' c || has_char c s'
  end.

(** [sep.join(parts)] *)
Fixpoint join (sep : string) (parts : list string) : string :=
  match parts with
  | [] => ""
  | [p] => p
  | p :: rest => p +:+ sep +:+ join sep rest
  end.

(** ** Vocabulary for stating what the handler fetches and raises *)

(** The URL of an attachment that has a non-empty one. *)
Definition usable_url (att : Attachment) : option string :=
  match att_url att with
  | Present (Some url) => if PyStr.is_empty url then None else Some url
  | Present None | Missing => None
  end.

(** [fetched env atts w paths w']: going through [atts] in order from the
    world [w], the fetches that succeed return [paths], in that order, and
    leave the world [w']; attachments without a usable URL and fetches
    without a result contribute nothing. *)
Inductive fetched (env : Env) : list Attachment -> World -> list string -> World -> Prop :=
| fetched_nil (w : World) :
    fetched env [] w [] w
| fetched_no_url (att : Attachment) (rest : list Attachment) (w w' : World)
    (paths : list string) :
    usable_url att = None ->
    fetched env rest w paths w' ->
    fetched env (att :: rest) w paths w'
| fetched_path (att : Attachment) (rest : list Attachment) (url path : string)
    (w w1 w' : World) (paths : list string) :
    usable_url att = Some url ->
    _download_media env url w = (Ok (Some path), w1) ->
    fetched env rest w1 paths w' ->
    fetched env (att :: rest) w (path :: paths) w'
| fetched_nothing (att : Attachment) (rest : list Attachment) (url : string)
    (w w1 w' : World) (paths : list string) :
    usable_url att = Some url ->
    _download_media env url w = (Ok None, w1) ->
    fetched env rest w1 paths w' ->
    fetched env (att :: rest) w paths w'.

(** A computation whose every exception satisfies [P]. *)
Definition only_raises (P : exn -> Prop) {A : Type} (m : M A) : Prop :=
  forall w, match fst (m w) with
            | Ok _ => True
            | Raise e => P e
            end.

(** The collaborators raise nothing but instances of [Exception]. *)
Definition raises_only_Exception (env : Env) : Prop :=
  (forall t url e, http_get env t url = HttpRaise e -> is_Exception e = true)
  /\ (forall t msg e, bus_publish env t msg = Some e -> is_Exception e = true).

(** From [w] to [w'] the channel kept its client, no client was created,
    and every connection attempt made used that client. *)
Definition reuses_client : relation World :=
  fun w w' =>
    _client (chan w') = _client (chan w)
    /\ clients_created w' = clients_created w
    /\ exists l, connection_attempts w' = connection_attempts w ++ l
                 /\ Forall (fun c => _client (chan w) = Some c) l.

(** ** Vocabulary for stating what the handler publishes *)

(** The trimmed text of an event with content attribute [c] (line 143). *)
Definition trimmed_content (c : option string) : string :=
  PyStr.strip (if PyStr.truthy c then PyStr.str c else "").

(** Command interpretation applied to an event with id [mid] and content
    attribute [c]: the forwarded text and the metadata, or the exception
    raised. *)
Definition interpreted (env : Env) (mid c : option string)
  : result (string * gmap string pyval) :=
  parse_command (unicode_digit env) mid (trimmed_content c).

(** The canonical message for an event of [author] whose interpretation
    gave [text] and [md] and whose fetched media are [paths]. *)
Definition canonical_message (author : Author) (text : string) (md : gmap string pyval)
  (paths : list string) : InboundMessage :=
  {| sender_id := resolve_user_id author;
     chat_id := resolve_user_id author;
     content := if PyStr.is_empty text then "[Image Message]" else text;
     metadata := md;
     media := paths |}.

(** ** The outbound side and shutdown *)

(** The fields of [nanobot.bus.events.OutboundMessage] that [send] reads. *)
Record OutboundMessage : Type := {
  out_chat_id : string;
  out_content : string
}.

(** One call of [client.api.post_c2c_message]. *)
Record c2c_post : Type := {
  post_client : Client;
  post_openid : string;
  post_msg_type : Z;
  post_content : string
}.

(** The channel's world together with what the channel did to the platform
    API and to its loop task. *)
Record Platform : Type := {
  pf_world : World;
  pf_posts : list c2c_post;
  pf_cancelled : list nat
}.

Definition init_platform (cfg : QQConfig) : Platform :=
  {| pf_world := init_world cfg; pf_posts := []; pf_cancelled := [] |}.

(** Run a computation of the channel inside a platform state. *)
Definition lift_world {A : Type} (m : M A) (s : Platform) : result A * Platform :=
  (fst (m (pf_world s)),
   {| pf_world := snd (m (pf_world s));
      pf_posts := pf_posts s;
      pf_cancelled := pf_cancelled s |}).

(** [stop].  [join_result] is what [await self._bot_task] does after the
    cancellation: it returns ([None]) or raises. *)
Definition stop (join_result : option exn) (s : Platform) : result unit * Platform :=
  let s1 := snd (lift_world (modify_chan (set_running false)) s) in
  match _bot_task (chan (pf_world s1)) with
  | Some task =>
      let s2 := {| pf_world := pf_world s1;
                   pf_posts := pf_posts s1;
                   pf_cancelled := pf_cancelled s1 ++ [task] |} in
      match join_result with
      | None | Some CancelledError => lift_world (log INFO "QQ bot stopped") s2
      | Some e => (Raise e, s2)
      end
  | None => lift_world (log INFO "QQ bot stopped") s1
  end.

(** [send].  [post_result] is what awaiting [post_c2c_message] does: it
    returns ([None]) or raises. *)
Definition send (post_result : option exn) (msg : OutboundMessage) (s : Platform)
  : result unit * Platform :=
  match _client (chan (pf_world s)) with
  | None => lift_world (log WARNING "QQ client not initialized") s
  | Some c =>
      let s1 := {| pf_world := pf_world s;
                   pf_posts := pf_posts s
                     ++ [ {| post_client := c;
                             post_openid := out_chat_id msg;
                             post_msg_type := 0;
                             post_content := out_content msg |} ];
                   pf_cancelled := pf_cancelled s |} in
      match post_result with
      | None => (Ok tt, s1)
      | Some e =>
          if is_Exception e
          then lift_world (log ERROR ("Error sending QQ message: " +:+ exn_str e)) s1
          else (Raise e, s1)
      end
  end.

(** ** Readings of the trace *)

(** The URLs requested so far. *)
Definition http_gets (w : World) : list string :=
  omap (fun a => match a with ActHttpGet url => Some url | _ => None end) (trace w).

(** The temporary files written so far, with their contents. *)
Definition files_written (w : World) : list (string * string) :=
  omap (fun a => match a with ActWriteTemp path body => Some (path, body) | _ => None end)
    (trace w).

(** The log so far. *)
Definition logged (w : World) : list (level * string) :=
  omap (fun a => match a with ActLog lvl msg => Some (lvl, msg) | _ => None end) (trace w).

(** The reconnect delays slept so far. *)
Definition sleeps (w : World) : list nat :=
  omap (fun a => match a with ActSleep n => Some n | _ => None end) (trace w).

(** The loop tasks created so far. *)
Definition tasks_created (w : World) : list nat :=
  omap (fun a => match a with ActCreateTask t => Some t | _ => None end) (trace w).

(** The attachments a handler iterates over. *)
Definition attachments_of (data : C2CMessage) : list Attachment :=
  match data_attachments data with
  | Present (Some atts) => atts
  | Present None | Missing => []
  end.

(** The message id a published message carries. *)
Definition message_id_of (m : InboundMessage) : option pyval :=
  metadata m !! "message_id".

(** The suffix [_download_media] gives the temporary file of a response
    with the [Content-Type] header [ct]. *)
Definition media_suffix (env : Env) (ct : option string) : string :=
  match guess_extension env (default "" ct) with
  | Some e => if PyStr.is_empty e then ".jpg" else e
  | None => ".jpg"
  end.

(** [s.endswith(" ")] and the like: the last character is whitespace. *)
Fixpoint ends_with_space (s : string) : bool :=
  match s with
  | "" => false
  | String c "" => PyStr.is_space c
  | String _ s' => ends_with_space s'
  end.

(** What a well-formed published message looks like. *)
Definition well_formed_message (m : InboundMessage) : Prop :=
  sender_id m = chat_id m
  /\ content m <> ""
  /\ exists mid, message_id_of m = Some (of_pystr mid).

(** The message [m] is made from the event [data]: it carries the
    event's id, and its sender and its chat are the user id resolved from
    the event's author. *)
Definition message_of_event (data : C2CMessage) (m : InboundMessage) : Prop :=
  exists mid author,
    data_id data = Present mid
    /\ data_author data = Present author
    /\ message_id_of m = Some (of_pystr mid)
    /\ sender_id m = resolve_user_id author
    /\ chat_id m = resolve_user_id author.

(** One step of the channel's life, with the events handled so far. *)
Inductive step_history (env : Env)
  : list C2CMessage * World -> list C2CMessage * World -> Prop :=
| history_message (events : list C2CMessage) (data : C2CMessage) (w : World) :
    step_history env (events, w) (events ++ [data], snd (_on_message env data w))
| history_start (events : list C2CMessage) (w : World) :
    step_history env (events, w) (events, snd (start env w))
| history_run_bot (events : list C2CMessage) (fuel : nat) (w : World) :
    step_history env (events, w) (events, snd (_run_bot env fuel w)).

(** [w] is reached from a new channel, [events] being the events handled
    on the way, in order. *)
Definition reachable_after (env : Env) (cfg : QQConfig) (events : list C2CMessage)
  (w : World) : Prop :=
  rtc (step_history env) ([], init_world cfg) (events, w).

Definition same_gets : relation World := fun w w' => http_gets w' = http_gets w.

(** The SDK is installed and both credentials are non-empty. *)
Definition can_start (env : Env) (w : World) : bool :=
  QQ_AVAILABLE env
  && PyStr.truthy (app_id (config (chan w)))
  && PyStr.truthy (secret (config (chan w))).

(** A connection attempt that fails with an [Exception] or returns, with no
    [stop()] meanwhile. *)
Definition attempt_fails_quietly (o : await_outcome) : Prop :=
  aw_stop_called o = false
  /\ forall e, aw_raised o = Some e -> is_Exception e = true.

(** As [sample_env], but [stop()] runs during the first connection attempt
    and the loop task is cancelled there. *)
Definition stopping_env : Env :=
  {| QQ_AVAILABLE := true;
     unicode_digit := sample_unicode_digit;
     http_get := http_get sample_env;
     guess_extension := guess_extension sample_env;
     bus_publish := bus_publish sample_env;
     client_start := fun _ _ => {| aw_raised := Some CancelledError; aw_stop_called := true |};
     sleep_outcome := sleep_outcome sample_env |}.

(** As [sample_env], but the connection drops with an error while
    [stop()] runs. *)
Definition closing_env : Env :=
  {| QQ_AVAILABLE := true;
     unicode_digit := sample_unicode_digit;
     http_get := http_get sample_env;
     guess_extension := guess_extension sample_env;
     bus_publish := bus_publish sample_env;
     client_start := fun _ _ =>
       {| aw_raised := Some (RuntimeException "connection closed"); aw_stop_called := true |};
     sleep_outcome := sleep_outcome sample_env |}.

(** From [w] to [w'] every delay slept was one of five seconds. *)
Definition sleeps_five : relation World :=
  fun w w' => exists l, sleeps w' = sleeps w ++ l /\ Forall (fun n => n = 5) l.

(** A started channel that has handled one message, ["m1"]. *)
Definition served_platform : Platform :=
  snd (lift_world (_on_message sample_env (text_event "m1" "hi"))
         (snd (lift_world (start sample_env) (init_platform sample_config)))).
(** * Properties *)

(** ** Computations and the relations they respect *)

Section Respects.

Context (R : relation World) `{!PreOrder R}.

Lemma respects_ret {A : Type} (a : A) : respects R (ret a).
Proof. intros w. simpl. reflexivity. Qed.

Lemma respects_raise {A : Type} (e : exn) : respects R (@raise A e).
Proof. intros w. simpl. reflexivity. Qed.

Lemma respects_get_chan : respects R get_chan.
Proof. intros w. simpl. reflexivity. Qed.

Lemma respects_getattr {A : Type} (a : attr A) (name : string) :
  respects R (getattr a name).
Proof. destruct a; [apply respects_raise | apply respects_ret]. Qed.

Lemma respects_of_result {A : Type} (r : result A) : respects R (of_result r).
Proof. intros w. simpl. reflexivity. Qed.

Lemma respects_bind {A B : Type} (m : M A) (k : A -> M B) :
  respects R m -> (forall a, respects R (k a)) -> respects R (bind m k).
Proof.
  intros Hm Hk w. unfold bind. specialize (Hm w).
  destruct (m w) as [[a | e] w1]; simpl in *; [| exact Hm].
  etransitivity; [exact Hm | apply Hk].
Qed.

Lemma respects_try_except {A : Type} (m : M A) (h : exn -> M A) :
  respects R m -> (forall e, respects R (h e)) -> respects R (try_except m h).
Proof.
  intros Hm Hh w. unfold try_except. specialize (Hm w).
  destruct (m w) as [[a | e] w1]; simpl in *; [exact Hm |].
  destruct (is_Exception e); simpl; [| exact Hm].
  etransitivity; [exact Hm | apply Hh].
Qed.

End Respects.

#[local] Instance same_chan_preorder : PreOrder same_chan.
Proof. split; [intros w; reflexivity | intros a b c H1 H2; unfold same_chan in *; congruence]. Qed.

#[local] Instance same_ledger_preorder : PreOrder same_ledger.
Proof. split; [intros w; reflexivity | intros a b c H1 H2; unfold same_ledger in *; congruence]. Qed.

#[local] Instance same_published_preorder : PreOrder same_published.
Proof. split; [intros w; reflexivity | intros a b c H1 H2; unfold same_published in *; congruence]. Qed.

(** Primitive steps touch only the trace, the clock or the identity
    counter. *)
Ltac respects_prim :=
  let w := fresh "w" in
  intros w;
  unfold same_chan, same_ledger, same_published, ledger, published,
    log, emit, tick, fresh_oid, modify_chan, put_chan, get_chan, bind, ret;
  simpl; rewrite ?omap_app; simpl; rewrite ?app_nil_r; reflexivity.

Ltac respects_step :=
  lazymatch goal with
  | |- respects _ (bind _ _) => apply respects_bind; [try tc_solve | | intros ?]
  | |- respects _ (try_except _ _) => apply respects_try_except; [try tc_solve | | intros ?]
  | |- respects _ (ret _) => apply respects_ret; tc_solve
  | |- respects _ (raise _) => apply respects_raise; tc_solve
  | |- respects _ (getattr _ _) => apply respects_getattr; tc_solve
  | |- respects _ (of_result _) => apply respects_of_result; tc_solve
  | |- respects _ (match ?x with _ => _ end) => destruct x
  | |- respects _ _ => first [solve [auto 2 with nocore] | solve [respects_prim]]
  end.

Section Frames.

Variable env : Env.

Lemma download_same_chan url : respects same_chan (_download_media env url).
Proof. unfold _download_media, NamedTemporaryFile. repeat respects_step. Qed.

Lemma download_same_published url : respects same_published (_download_media env url).
Proof. unfold _download_media, NamedTemporaryFile. repeat respects_step. Qed.

Lemma fetch_same_chan atts : forall media, respects same_chan (fetch_attachments env atts media).
Proof.
  induction atts as [| att rest IH]; intros media; simpl.
  - respects_step.
  - destruct (att_url att) as [| [url |]]; [apply IH | | apply IH].
    destruct (PyStr.is_empty url); [apply IH |].
    apply respects_bind; [tc_solve | apply download_same_chan | intros path; apply IH].
Qed.

Lemma fetch_same_published atts :
  forall media, respects same_published (fetch_attachments env atts media).
Proof.
  induction atts as [| att rest IH]; intros media; simpl.
  - respects_step.
  - destruct (att_url att) as [| [url |]]; [apply IH | | apply IH].
    destruct (PyStr.is_empty url); [apply IH |].
    apply respects_bind; [tc_solve | apply download_same_published | intros path; apply IH].
Qed.

Lemma collect_media_same_chan data : respects same_chan (collect_media env data).
Proof.
  unfold collect_media.
  destruct (data_attachments data) as [| [[| att atts] |]];
    first [apply fetch_same_chan | respects_step].
Qed.

Lemma collect_media_same_published data : respects same_published (collect_media env data).
Proof.
  unfold collect_media.
  destruct (data_attachments data) as [| [[| att atts] |]];
    first [apply fetch_same_published | respects_step].
Qed.

Lemma handle_message_same_chan msg : respects same_chan (_handle_message env msg).
Proof. unfold _handle_message. repeat respects_step. Qed.

Lemma process_new_same_chan data mid : respects same_chan (process_new env data mid).
Proof.
  unfold process_new.
  respects_step; [respects_step |].
  respects_step; [respects_step |].
  respects_step; [respects_step |].
  destruct a1 as [content metadata].
  respects_step; [apply collect_media_same_chan |].
  destruct (_ && _); [respects_step | apply handle_message_same_chan].
Qed.

(** A delivery whose id is in the deque returns at once: nothing is
    logged, fetched or published, and the channel is untouched. *)
Lemma on_message_seen data mid w :
  data_id data = Present mid ->
  deque_contains mid (ledger w) = true ->
  _on_message env data w = (Ok tt, w).
Proof.
  intros Hid Hin. unfold _on_message, try_except, _on_message_body, bind, getattr.
  rewrite Hid. simpl. unfold ledger in Hin. rewrite Hin. reflexivity.
Qed.

(** A first-seen id is appended before anything else is done. *)
Lemma on_message_body_new data mid w :
  data_id data = Present mid ->
  deque_contains mid (ledger w) = false ->
  _on_message_body env data w = process_new env data mid (mark_seen mid w).
Proof.
  intros Hid Hin. unfold _on_message_body, bind, getattr.
  rewrite Hid. simpl. unfold ledger in Hin. rewrite Hin. reflexivity.
Qed.

Lemma on_message_chan_new data mid w :
  data_id data = Present mid ->
  deque_contains mid (ledger w) = false ->
  chan (snd (_on_message env data w)) = chan (mark_seen mid w).
Proof.
  intros Hid Hin. unfold _on_message, try_except.
  rewrite (on_message_body_new _ _ _ Hid Hin).
  pose proof (process_new_same_chan data mid (mark_seen mid w)) as H.
  unfold same_chan in H.
  destruct (process_new env data mid (mark_seen mid w)) as [[[] | e] w1]; simpl in *;
    [exact H |].
  destruct (is_Exception e); simpl; exact H.
Qed.

(** The deque after one delivery, whatever became of the event. *)
Lemma on_message_ledger data w :
  ledger (snd (_on_message env data w)) =
  match data_id data with
  | Present mid =>
      if deque_contains mid (ledger w) then ledger w
      else deque_append mid (ledger w)
  | Missing => ledger w
  end.
Proof.
  destruct (data_id data) as [| mid] eqn:Hid.
  - unfold _on_message, try_except, _on_message_body, bind, getattr. rewrite Hid. reflexivity.
  - destruct (deque_contains mid (ledger w)) eqn:Hin.
    + rewrite (on_message_seen _ _ _ Hid Hin). reflexivity.
    + unfold ledger at 1. rewrite (on_message_chan_new _ _ _ Hid Hin). reflexivity.
Qed.

End Frames.

(** ** Python string builtins *)

Section Strings.

Lemma partition_some sep s pre post :
  PyStr.partition sep s = Some (pre, post) ->
  s = pre +:+ String sep post /\ has_char sep pre = false.
Proof.
  revert pre post. induction s as [| c s IH]; intros pre post H; simpl in H; [discriminate |].
  destruct (Ascii.eqb c sep) eqn:Hc.
  - injection H as <- <-. apply Ascii.eqb_eq in Hc as ->. split; reflexivity.
  - destruct (PyStr.partition sep s) as [[pre' post'] |]; [| discriminate].
    injection H as <- <-. destruct (IH _ _ eq_refl) as [-> Hno].
    split; [reflexivity |]. simpl. rewrite Hc. exact Hno.
Qed.

Lemma partition_none sep s :
  PyStr.partition sep s = None -> has_char sep s = false.
Proof.
  induction s as [| c s IH]; intros H; simpl in *; [reflexivity |].
  destruct (Ascii.eqb c sep); [discriminate |].
  destruct (PyStr.partition sep s) as [[pre' post'] |]; [discriminate |].
  simpl. apply IH. reflexivity.
Qed.

Lemma split_nonempty sep n s : PyStr.split sep n s <> [].
Proof.
  destruct n; simpl; [discriminate |].
  destruct (PyStr.partition sep s) as [[pre post] |]; discriminate.
Qed.

Lemma split_length sep n s :
  1 <= length (PyStr.split sep n s) <= S n.
Proof.
  revert s. induction n as [| n IH]; intros s; simpl; [lia |].
  destruct (PyStr.partition sep s) as [[pre post] |]; simpl; [| lia].
  specialize (IH post). lia.
Qed.

(** Joining the parts with the separator gives the text back. *)
Lemma split_join sep n s : join (String sep "") (PyStr.split sep n s) = s.
Proof.
  revert s. induction n as [| n IH]; intros s; simpl; [reflexivity |].
  destruct (PyStr.partition sep s) as [[pre post] |] eqn:Hp; [| reflexivity].
  apply partition_some in Hp as [-> _].
  specialize (IH post).
  destruct (PyStr.split sep n post) as [| p rest] eqn:Hs;
    [exfalso; exact (split_nonempty _ _ _ Hs) |].
  change (join (String sep "") (pre :: p :: rest))
    with (pre +:+ String sep "" +:+ join (String sep "") (p :: rest)).
  rewrite IH. reflexivity.
Qed.

(** Every part but the last is free of the separator; so is the last
    one when fewer than [maxsplit] splits were made. *)
Lemma split_parts sep n s :
  (forall i p, PyStr.split sep n s !! i = Some p ->
               S i < length (PyStr.split sep n s) -> has_char sep p = false)
  /\ (length (PyStr.split sep n s) < S n ->
      forall p, last (PyStr.split sep n s) = Some p -> has_char sep p = false).
Proof.
  revert s. induction n as [| n IH]; intros s; simpl.
  { split; [| lia]. intros [| i] p _ Hi; simpl in Hi; lia. }
  destruct (PyStr.partition sep s) as [[pre post] |] eqn:Hp.
  - destruct (IH post) as [IH1 IH2].
    apply partition_some in Hp as [_ Hpre].
    split.
    + intros [| i] p Hlook Hi; simpl in *.
      * injection Hlook as <-. exact Hpre.
      * apply (IH1 i p Hlook). lia.
    + intros Hlen p Hlast. simpl in Hlen.
      destruct (PyStr.split sep n post) as [| q rest] eqn:Hs;
        [exfalso; exact (split_nonempty _ _ _ Hs) |].
      apply IH2; [simpl in *; lia | exact Hlast].
  - apply partition_none in Hp.
    split.
    + intros [| i] p _ Hi; simpl in Hi; lia.
    + intros _ p Hlast. simpl in Hlast. injection Hlast as <-. exact Hp.
Qed.

Lemma decimal_value_nonneg ds :
  forall acc z, PyStr.decimal_value acc ds = Some z -> (0 <= acc)%Z -> (0 <= z)%Z.
Proof.
  induction ds as [| d ds IH]; intros acc z H Hacc; simpl in H.
  - injection H as <-. exact Hacc.
  - destruct d as [| v |]; [discriminate | | discriminate].
    apply (IH _ _ H). lia.
Qed.

(** [int] gives natural numbers. *)
Lemma int_value_nonneg ud s z : PyStr.int ud s = PyStr.IntValue z -> (0 <= z)%Z.
Proof.
  unfold PyStr.int. intros H.
  destruct (PyStr.int_max_str_digits <? _)%nat; [discriminate |].
  destruct (PyStr.digit_classes ud s) as [| d ds] eqn:Hds; [discriminate |].
  destruct (PyStr.decimal_value 0 (d :: ds)) as [z' |] eqn:Hv; [| discriminate].
  injection H as <-. apply (decimal_value_nonneg _ _ _ Hv). lia.
Qed.

Lemma is_digit_ascii c :
  PyStr.is_digit c = true -> (nat_of_ascii c <? 128)%nat = true /\ PyStr.utf8_len c = 1.
Proof.
  unfold PyStr.is_digit, PyStr.utf8_len. intros H.
  apply andb_true_iff in H as [_ H]. apply Nat.leb_le in H.
  assert (H1 : (nat_of_ascii c <? 128)%nat = true) by (apply Nat.ltb_lt; lia).
  assert (H2 : (nat_of_ascii c <? 192)%nat = true) by (apply Nat.ltb_lt; lia).
  rewrite H2. split; [exact H1 | reflexivity].
Qed.

(** The characters of a run of ASCII digits are its bytes, each a
    decimal digit, whatever the Unicode database. *)
Lemma digit_classes_ascii ud s :
  ascii_digits s = true ->
  PyStr.digit_classes ud s
  = map (fun c => PyStr.DecimalDigit (nat_of_ascii c - 48)) (list_ascii_of_string s).
Proof.
  unfold PyStr.digit_classes, PyStr.utf8_chars.
  induction s as [| c s IH]; intros H; [reflexivity |].
  simpl in H. apply andb_true_iff in H as [Hc Hs].
  destruct (is_digit_ascii c Hc) as [Hlt Hlen].
  cbn [PyStr.utf8_chars_from list_ascii_of_string]. rewrite Hlen.
  cbn [map]. rewrite (IH Hs). f_equal.
  unfold PyStr.classify. rewrite Hlt, Hc. reflexivity.
Qed.

Lemma isdigit_ascii ud s :
  ascii_digits s = true -> s <> "" -> PyStr.isdigit ud s = true.
Proof.
  intros H Hne. unfold PyStr.isdigit. rewrite (digit_classes_ascii ud s H).
  destruct s as [| c s]; [contradiction |]. cbn [PyStr.is_empty negb andb].
  apply forallb_forall. intros d Hd. apply in_map_iff in Hd as (c' & <- & _). reflexivity.
Qed.

Lemma leading_decimals_ascii s :
  PyStr.leading_decimals
    (map (fun c => PyStr.DecimalDigit (nat_of_ascii c - 48)) (list_ascii_of_string s))
  = String.length s.
Proof. induction s as [| c s IH]; [reflexivity |]. simpl. rewrite IH. reflexivity. Qed.

Lemma decimal_value_ascii s :
  forall acc,
    PyStr.decimal_value acc
      (map (fun c => PyStr.DecimalDigit (nat_of_ascii c - 48)) (list_ascii_of_string s))
    = Some (ascii_value acc s).
Proof. induction s as [| c s IH]; intros acc; [reflexivity |]. simpl. apply IH. Qed.

(** [isdigit] fails on the empty text and on a text with a character
    that is not a digit, and on no other. *)
Lemma isdigit_false_iff ud s :
  PyStr.isdigit ud s = false
  <-> s = "" \/ exists ch, In ch (PyStr.utf8_chars s) /\ PyStr.classify ud ch = PyStr.NotDigit.
Proof.
  unfold PyStr.isdigit, PyStr.digit_classes. split.
  - intros H. destruct s as [| c s]; [left; reflexivity | right].
    cbn [PyStr.is_empty negb andb] in H.
    induction (PyStr.utf8_chars (String c s)) as [| ch chs IH]; [discriminate |].
    cbn [map forallb] in H. destruct (PyStr.classify ud ch) eqn:Hch.
    + exists ch. split; [left; reflexivity | exact Hch].
    + destruct (IH H) as (ch' & Hin & Hnot). exists ch'. split; [right; exact Hin | exact Hnot].
    + destruct (IH H) as (ch' & Hin & Hnot). exists ch'. split; [right; exact Hin | exact Hnot].
  - intros [-> | (ch & Hin & Hnot)]; [reflexivity |].
    apply andb_false_iff. right.
    induction (PyStr.utf8_chars s) as [| ch' chs IH]; [destruct Hin |].
    cbn [map forallb]. destruct Hin as [-> | Hin].
    + rewrite Hnot. reflexivity.
    + rewrite (IH Hin). apply andb_false_r.
Qed.

(** [int] of a run of at most 4300 ASCII digits is its value in base
    ten; of a longer run it is an error. *)
Lemma int_ascii ud s :
  ascii_digits s = true ->
  s <> "" ->
  PyStr.int ud s
  = if (PyStr.int_max_str_digits <? String.length s)%nat
    then PyStr.IntTooLong (String.length s)
    else PyStr.IntValue (ascii_value 0 s).
Proof.
  intros H Hne. unfold PyStr.int. rewrite (digit_classes_ascii ud s H).
  rewrite leading_decimals_ascii.
  destruct (PyStr.int_max_str_digits <? String.length s)%nat; [reflexivity |].
  rewrite decimal_value_ascii.
  destruct s as [| c s]; [contradiction | reflexivity].
Qed.

End Strings.

(** ** The bounded deque *)

Section Deque.

Context {A : Type} `{EqDecision A}.
Implicit Types (x : A) (d : deque A) (l : list A).

Lemma deque_append_maxlen x d : dq_maxlen (deque_append x d) = dq_maxlen d.
Proof. reflexivity. Qed.

Lemma deque_append_length x d :
  length (dq_items d) <= dq_maxlen d ->
  length (dq_items (deque_append x d)) <= dq_maxlen d.
Proof.
  intros Hlen. unfold deque_append. simpl.
  destruct (Nat.ltb_spec (dq_maxlen d) (length (dq_items d ++ [x]))) as [Hlt | Hge].
  - rewrite length_drop, length_app. simpl. lia.
  - exact Hge.
Qed.

(** Appending to a full deque drops its oldest element. *)
Lemma deque_append_full x d :
  length (dq_items d) = dq_maxlen d ->
  dq_items (deque_append x d) = drop 1 (dq_items d ++ [x]).
Proof.
  intros Hlen. unfold deque_append. simpl.
  destruct (Nat.ltb_spec (dq_maxlen d) (length (dq_items d ++ [x]))) as [Hlt | Hge];
    [reflexivity |].
  rewrite length_app in Hge. simpl in Hge. lia.
Qed.

Lemma deque_append_room x d :
  length (dq_items d) < dq_maxlen d ->
  dq_items (deque_append x d) = dq_items d ++ [x].
Proof.
  intros Hlen. unfold deque_append. simpl.
  destruct (Nat.ltb_spec (dq_maxlen d) (length (dq_items d ++ [x]))) as [Hlt | Hge];
    [| reflexivity].
  rewrite length_app in Hlt. simpl in Hlt. lia.
Qed.

Lemma deque_contains_true x d : deque_contains x d = true <-> x ∈ dq_items d.
Proof. unfold deque_contains. apply bool_decide_eq_true. Qed.

Lemma deque_contains_false x d : deque_contains x d = false <-> x ∉ dq_items d.
Proof. unfold deque_contains. apply bool_decide_eq_false. Qed.

Lemma window_length n l : length (window n l) = Nat.min n (length l).
Proof. unfold window. rewrite length_drop. lia. Qed.

(** The deque is the window of everything ever appended to it. *)
Lemma deque_append_window x d l :
  0 < dq_maxlen d ->
  dq_items d = window (dq_maxlen d) l ->
  dq_items (deque_append x d) = window (dq_maxlen d) (l ++ [x]).
Proof.
  intros Hpos Hitems.
  destruct (Nat.lt_ge_cases (length l) (dq_maxlen d)) as [Hlt | Hge].
  - rewrite deque_append_room by (rewrite Hitems, window_length; lia).
    rewrite Hitems. unfold window.
    rewrite length_app. simpl.
    replace (length l - dq_maxlen d) with 0 by lia.
    replace (length l + 1 - dq_maxlen d) with 0 by lia.
    reflexivity.
  - rewrite deque_append_full by (rewrite Hitems, window_length; lia).
    rewrite Hitems. unfold window.
    rewrite length_app. simpl.
    replace (length l + 1 - dq_maxlen d) with (S (length l - dq_maxlen d)) by lia.
    rewrite <- (drop_app_le l [x]) by lia.
    rewrite drop_drop. f_equal. lia.
Qed.

(** With room for at least one element, the appended element is the
    newest one of the deque. *)
Lemma deque_append_newest x d :
  0 < dq_maxlen d ->
  exists pre, dq_items (deque_append x d) = pre ++ [x].
Proof.
  intros Hpos. unfold deque_append. simpl.
  destruct (Nat.ltb_spec (dq_maxlen d) (length (dq_items d ++ [x]))) as [Hlt | Hge].
  - rewrite length_app in Hlt. simpl in Hlt.
    destruct (dq_items d) as [| y items]; [simpl in Hlt; lia |].
    exists items. reflexivity.
  - exists (dq_items d). reflexivity.
Qed.

(** An element with fewer than [maxlen - 1] newer elements survives one
    more append. *)
Lemma deque_append_keeps x y d pre post :
  dq_items d = pre ++ x :: post ->
  S (length post) < dq_maxlen d ->
  exists pre', dq_items (deque_append y d) = pre' ++ x :: (post ++ [y]).
Proof.
  intros Hitems Hpost. unfold deque_append. simpl. rewrite Hitems.
  destruct (Nat.ltb_spec (dq_maxlen d) (length ((pre ++ x :: post) ++ [y]))) as [Hlt | Hge].
  - rewrite !length_app in Hlt. simpl in Hlt.
    destruct pre as [| p pre]; [simpl in Hlt; lia |].
    exists pre. simpl. rewrite drop_0, <- app_assoc. reflexivity.
  - exists pre. rewrite <- app_assoc. reflexivity.
Qed.

End Deque.

(** ** Sequences of deliveries *)

Section Deliveries.

Variable env : Env.

Lemma deliver_app es1 es2 w :
  deliver env (es1 ++ es2) w = deliver env es2 (deliver env es1 w).
Proof. revert w. induction es1 as [| e es1 IH]; intros w; simpl; [reflexivity | apply IH]. Qed.

Lemma on_message_ledger_cases data w :
  ledger (snd (_on_message env data w)) = ledger w \/
  exists y, ledger (snd (_on_message env data w)) = deque_append y (ledger w).
Proof.
  rewrite on_message_ledger.
  destruct (data_id data) as [| mid]; [left; reflexivity |].
  destruct (deque_contains mid (ledger w)); [left; reflexivity | right; eauto].
Qed.

Lemma on_message_maxlen data w :
  dq_maxlen (ledger (snd (_on_message env data w))) = dq_maxlen (ledger w).
Proof.
  destruct (on_message_ledger_cases data w) as [-> | [y ->]]; reflexivity.
Qed.

Lemma on_message_length data w :
  length (dq_items (ledger w)) <= dq_maxlen (ledger w) ->
  length (dq_items (ledger (snd (_on_message env data w)))) <= dq_maxlen (ledger w).
Proof.
  intros Hlen.
  destruct (on_message_ledger_cases data w) as [-> | [y ->]];
    [exact Hlen | apply deque_append_length; exact Hlen].
Qed.

(** An id with few enough newer ids stays in the deque across further
    deliveries. *)
Lemma deliver_keeps others :
  forall w pre post mid,
    dq_items (ledger w) = pre ++ mid :: post ->
    length post + length others < dq_maxlen (ledger w) ->
    mid ∈ dq_items (ledger (deliver env others w)).
Proof.
  induction others as [| e others IH]; intros w pre post mid Hitems Hlen; simpl.
  - rewrite Hitems. apply elem_of_app. right. left.
  - simpl in Hlen.
    destruct (on_message_ledger_cases e w) as [Heq | [y Heq]].
    + apply (IH _ pre post); rewrite Heq; [exact Hitems | lia].
    + destruct (deque_append_keeps mid y (ledger w) pre post Hitems) as [pre' Hpre'];
        [lia |].
      apply (IH _ pre' (post ++ [y])); rewrite Heq; [exact Hpre' |].
      rewrite length_app. simpl. lia.
Qed.

(** After its first delivery an id is recognised for as long as fewer
    than [maxlen] deliveries follow. *)
Lemma redelivery_recognised data others mid w :
  data_id data = Present mid ->
  deque_contains mid (ledger w) = false ->
  length others < dq_maxlen (ledger w) ->
  deque_contains mid (ledger (deliver env others (snd (_on_message env data w)))) = true.
Proof.
  intros Hid Hnew Hlen. apply deque_contains_true.
  pose proof (on_message_ledger env data w) as Hl. rewrite Hid, Hnew in Hl.
  destruct (deque_append_newest mid (ledger w)) as [pre Hpre]; [lia |].
  apply (deliver_keeps others _ pre []).
  - rewrite Hl. exact Hpre.
  - rewrite Hl. simpl. lia.
Qed.

(** Distinct ids: the deque is the window of the ids delivered. *)
Lemma deliver_distinct events :
  forall ids seen w,
    map data_id events = map Present ids ->
    NoDup (seen ++ ids) ->
    0 < dq_maxlen (ledger w) ->
    dq_items (ledger w) = window (dq_maxlen (ledger w)) seen ->
    dq_items (ledger (deliver env events w)) = window (dq_maxlen (ledger w)) (seen ++ ids).
Proof.
  induction events as [| e events IH]; intros ids seen w Hids Hnd Hpos Hitems.
  - destruct ids; [| discriminate]. rewrite app_nil_r. exact Hitems.
  - destruct ids as [| mid ids]; [discriminate |].
    simpl in Hids. injection Hids as Hid Hids. simpl.
    assert (Hnew : deque_contains mid (ledger w) = false).
    { apply deque_contains_false. rewrite Hitems. unfold window.
      intros Hin. apply (subseteq_drop _ seen) in Hin.
      apply NoDup_app in Hnd as (_ & Hdisj & _).
      apply (Hdisj mid Hin). left. }
    pose proof (on_message_ledger env e w) as Hl. rewrite Hid, Hnew in Hl.
    replace (seen ++ mid :: ids) with ((seen ++ [mid]) ++ ids)
      by (rewrite <- app_assoc; reflexivity).
    rewrite <- (on_message_maxlen e w).
    apply IH.
    + exact Hids.
    + rewrite <- app_assoc. exact Hnd.
    + rewrite on_message_maxlen. exact Hpos.
    + rewrite Hl, deque_append_maxlen. apply deque_append_window; assumption.
Qed.

End Deliveries.

(** ** The supervisor leaves the deque alone *)

Section Supervisor.

Variable env : Env.

Lemma await_same_ledger o : respects same_ledger (await_ o).
Proof. unfold await_. repeat respects_step. Qed.

Lemma client_start_same_ledger : respects same_ledger (_client_start env).
Proof.
  pose proof await_same_ledger.
  unfold _client_start. repeat respects_step.
Qed.

Lemma start_same_ledger : respects same_ledger (start env).
Proof. unfold start. repeat respects_step. Qed.

Lemma run_bot_same_ledger fuel : respects same_ledger (_run_bot env fuel).
Proof.
  pose proof await_same_ledger. pose proof client_start_same_ledger.
  induction fuel as [| fuel IH]; simpl; repeat respects_step.
Qed.

(** Every reachable deque is the one [__init__] made, within its bound. *)
Lemma reachable_ledger_bound cfg w :
  reachable env cfg w ->
  dq_maxlen (ledger w) = 1000 /\ length (dq_items (ledger w)) <= 1000.
Proof.
  unfold reachable. intros Hreach.
  revert w Hreach. apply rtc_ind_r.
  - split; simpl; [reflexivity | lia].
  - intros w1 w2 Hreach Hstep [Hmax Hlen].
    destruct Hstep as [data w1 | w1 | fuel w1].
    + split; [rewrite on_message_maxlen; exact Hmax |].
      rewrite <- Hmax. apply on_message_length. lia.
    + rewrite (start_same_ledger w1). split; assumption.
    + rewrite (run_bot_same_ledger fuel w1). split; assumption.
Qed.

End Supervisor.

(** ** Publishing *)

Section Publishing.

Variable env : Env.

Lemma handle_message_published msg w :
  _handle_message env msg w =
  match bus_publish env (clock w) msg with
  | Some e =>
      (Raise e, {| chan := chan w; trace := trace w; clock := S (clock w); next_oid := next_oid w |})
  | None =>
      (Ok tt, {| chan := chan w; trace := trace w ++ [ActPublish msg];
                 clock := S (clock w); next_oid := next_oid w |})
  end.
Proof.
  unfold _handle_message, bind, tick. simpl.
  destruct (bus_publish env (clock w) msg); reflexivity.
Qed.

Lemma published_emit_publish w msg c n :
  published {| chan := c; trace := trace w ++ [ActPublish msg]; clock := n; next_oid := next_oid w |}
  = published w ++ [msg].
Proof. unfold published. simpl. rewrite omap_app. reflexivity. Qed.

(** What [process_new] does once the author and the content are read and
    the media are collected. *)
Lemma process_new_unfold data mid author c w :
  data_author data = Present author ->
  data_content data = Present c ->
  process_new env data mid w =
  match interpreted env mid c with
  | Raise e => (Raise e, w)
  | Ok (text, md) =>
      match collect_media env data w with
      | (Ok media, w1) =>
          if PyStr.is_empty text && bool_decide (media = []) then (Ok tt, w1)
          else _handle_message env (canonical_message author text md media) w1
      | (Raise e, w1) => (Raise e, w1)
      end
  end.
Proof.
  intros Ha Hc. unfold process_new, bind, getattr, of_result, ret. rewrite Ha, Hc.
  cbv beta iota. unfold interpreted, trimmed_content, canonical_message.
  destruct (parse_command (unicode_digit env) mid _) as [[text md] | e]; [| reflexivity].
  destruct (collect_media env data w) as [[media | e] w1]; [| reflexivity].
  destruct (_ && _); reflexivity.
Qed.

(** Handling one new event publishes at most one message. *)
Lemma process_new_published data mid w :
  exists l, published (snd (process_new env data mid w)) = published w ++ l /\ length l <= 1.
Proof.
  destruct (data_author data) as [| author] eqn:Ha.
  { exists []. unfold process_new, bind, getattr. rewrite Ha. simpl.
    rewrite app_nil_r. split; [reflexivity | lia]. }
  destruct (data_content data) as [| c] eqn:Hc.
  { exists []. unfold process_new, bind, getattr. rewrite Ha, Hc. simpl.
    rewrite app_nil_r. split; [reflexivity | lia]. }
  rewrite (process_new_unfold _ _ _ _ _ Ha Hc).
  destruct (interpreted env mid c) as [[text md] | e0];
    [| exists []; simpl; rewrite app_nil_r; split; [reflexivity | lia]].
  pose proof (collect_media_same_published env data w) as Hm. unfold same_published in Hm.
  destruct (collect_media env data w) as [[media | e] w1]; simpl in Hm.
  - destruct (_ && _).
    + exists []. simpl. rewrite app_nil_r. split; [exact Hm | lia].
    + rewrite handle_message_published.
      destruct (bus_publish env (clock w1) _).
      * exists []. simpl. rewrite app_nil_r. split; [exact Hm | lia].
      * eexists [_]. simpl. rewrite published_emit_publish, Hm. split; [reflexivity | lia].
  - exists []. simpl. rewrite app_nil_r. split; [exact Hm | lia].
Qed.

Lemma log_published lvl msg w : published (snd (log lvl msg w)) = published w.
Proof. unfold log, emit, published. simpl. rewrite omap_app. simpl. apply app_nil_r. Qed.

Lemma on_message_published data w :
  exists l, published (snd (_on_message env data w)) = published w ++ l /\ length l <= 1.
Proof.
  destruct (data_id data) as [| mid] eqn:Hid.
  { exists []. unfold _on_message, try_except, _on_message_body, bind, getattr, raise.
    rewrite Hid. cbv beta iota delta [is_Exception].
    rewrite log_published, app_nil_r. split; [reflexivity | simpl; lia]. }
  destruct (deque_contains mid (ledger w)) eqn:Hin.
  { exists []. rewrite (on_message_seen _ _ _ _ Hid Hin). simpl.
    rewrite app_nil_r. split; [reflexivity | lia]. }
  unfold _on_message, try_except. rewrite (on_message_body_new _ _ _ _ Hid Hin).
  destruct (process_new_published data mid (mark_seen mid w)) as (l & Hl & Hlen).
  exists l. split; [| exact Hlen].
  destruct (process_new env data mid (mark_seen mid w)) as [[[] | e] w1]; simpl in *;
    [exact Hl |].
  destruct (is_Exception e); [rewrite log_published |]; exact Hl.
Qed.

End Publishing.

(** ** The reconnect loop and its client *)

#[local] Instance reuses_client_preorder : PreOrder reuses_client.
Proof.
  split.
  - intros w. split; [reflexivity |]. split; [reflexivity |].
    exists []. rewrite app_nil_r. split; [reflexivity | constructor].
  - intros w1 w2 w3 (Hc1 & Hn1 & l1 & Ha1 & Hf1) (Hc2 & Hn2 & l2 & Ha2 & Hf2).
    split; [congruence |]. split; [congruence |].
    exists (l1 ++ l2). split; [rewrite Ha2, Ha1, app_assoc; reflexivity |].
    apply Forall_app. split; [exact Hf1 |].
    rewrite Hc1 in Hf2. exact Hf2.
Qed.

Section Reconnect.

Variable env : Env.

(** A step that adds neither a client nor a connection attempt to the
    trace and keeps the channel's client. *)
Lemma reuses_client_quiet (w w' : World) :
  _client (chan w') = _client (chan w) ->
  clients_created w' = clients_created w ->
  connection_attempts w' = connection_attempts w ->
  reuses_client w w'.
Proof.
  intros Hc Hn Ha. split; [exact Hc |]. split; [exact Hn |].
  exists []. rewrite app_nil_r. split; [exact Ha | constructor].
Qed.

Lemma log_reuses_client lvl msg : respects reuses_client (log lvl msg).
Proof.
  intros w. apply reuses_client_quiet; unfold clients_created, connection_attempts;
    simpl; rewrite ?omap_app; simpl; rewrite ?app_nil_r; reflexivity.
Qed.

Lemma sleep_reuses_client n : respects reuses_client (emit (ActSleep n)).
Proof.
  intros w. apply reuses_client_quiet; unfold clients_created, connection_attempts;
    simpl; rewrite ?omap_app; simpl; rewrite ?app_nil_r; reflexivity.
Qed.

Lemma tick_reuses_client : respects reuses_client tick.
Proof. intros w. apply reuses_client_quiet; reflexivity. Qed.

Lemma get_chan_reuses_client : respects reuses_client get_chan.
Proof. intros w. apply reuses_client_quiet; reflexivity. Qed.

Lemma set_running_reuses_client b : respects reuses_client (modify_chan (set_running b)).
Proof. intros w. apply reuses_client_quiet; reflexivity. Qed.

Lemma await_reuses_client o : respects reuses_client (await_ o).
Proof.
  pose proof set_running_reuses_client.
  unfold await_. repeat respects_step.
Qed.

(** One connection attempt: made with the channel's client. *)
Lemma client_start_reuses_client : respects reuses_client (_client_start env).
Proof.
  intros w. unfold _client_start, bind, get_chan. simpl.
  destruct (_client (chan w)) as [c |] eqn:Hc; simpl; [| reflexivity].
  pose proof (await_reuses_client (client_start env (clock w) c)
                {| chan := chan w;
                   trace := trace w ++ [ActClientStart c (app_id (config (chan w)))
                                          (secret (config (chan w)))];
                   clock := S (clock w); next_oid := next_oid w |}) as Haw.
  destruct (await_ _ _) as [[[] | e] w1]; simpl in *.
  all: etransitivity; [| exact Haw].
  all: (split; [reflexivity |]; split;
        [unfold clients_created; simpl; rewrite omap_app; simpl; apply app_nil_r |];
        exists [c]; split;
        [unfold connection_attempts; simpl; rewrite omap_app; reflexivity
        | constructor; [exact Hc | constructor]]).
Qed.

Lemma run_bot_reuses_client fuel : respects reuses_client (_run_bot env fuel).
Proof.
  pose proof log_reuses_client. pose proof sleep_reuses_client.
  pose proof tick_reuses_client. pose proof get_chan_reuses_client.
  pose proof await_reuses_client. pose proof client_start_reuses_client.
  induction fuel as [| fuel IH]; simpl; repeat respects_step.
Qed.

(** [start] with the SDK and both credentials: one client is created,
    bound to this channel, and becomes the channel's client. *)
Lemma start_creates_client w :
  QQ_AVAILABLE env = true ->
  PyStr.truthy (app_id (config (chan w))) = true ->
  PyStr.truthy (secret (config (chan w))) = true ->
  _client (chan (snd (start env w)))
    = Some {| client_oid := next_oid w; client_channel := chan_oid (chan w) |}
  /\ clients_created (snd (start env w))
     = clients_created w
         ++ [{| client_oid := next_oid w; client_channel := chan_oid (chan w) |}]
  /\ connection_attempts (snd (start env w)) = connection_attempts w
  /\ _running (chan (snd (start env w))) = true.
Proof.
  intros Hsdk Hid Hsecret.
  assert (Hrun : exists w', start env w = (Ok tt, w')
            /\ chan w' = set_bot_task (Some (S (next_oid w)))
                           (set_client
                              (Some (_make_bot_class (set_running true (chan w)) (next_oid w)))
                              (set_running true (chan w)))
            /\ trace w' = trace w
                 ++ [ActNewClient (_make_bot_class (set_running true (chan w)) (next_oid w));
                     ActCreateTask (S (next_oid w));
                     ActLog INFO "QQ bot started (C2C private message)"]).
  { unfold start. rewrite Hsdk. cbn [negb].
    unfold bind at 1. unfold get_chan at 1. cbv beta iota.
    rewrite Hid, Hsecret. cbn [negb orb].
    eexists. split; [reflexivity |]. simpl. split; [reflexivity |].
    rewrite <- !app_assoc. reflexivity. }
  destruct Hrun as (w' & -> & Hchan & Htrace). simpl.
  unfold clients_created, connection_attempts. rewrite Hchan, Htrace.
  rewrite !omap_app. simpl. rewrite !app_nil_r.
  repeat split; reflexivity.
Qed.

End Reconnect.

(** ** What can be raised *)

Section Raising.

Context (P : exn -> Prop).

Lemma only_raises_ret {A : Type} (a : A) : only_raises P (ret a).
Proof. intros w. exact I. Qed.

Lemma only_raises_raise {A : Type} (e : exn) : P e -> only_raises P (@raise A e).
Proof. intros He w. exact He. Qed.

Lemma only_raises_bind {A B : Type} (m : M A) (k : A -> M B) :
  only_raises P m -> (forall a, only_raises P (k a)) -> only_raises P (bind m k).
Proof.
  intros Hm Hk w. unfold bind. specialize (Hm w).
  destruct (m w) as [[a | e] w1]; simpl in *; [apply Hk | exact Hm].
Qed.

Lemma only_raises_weaken {A : Type} (m : M A) :
  only_raises (fun _ => False) m -> only_raises P m.
Proof.
  intros Hm w. specialize (Hm w). destruct (fst (m w)); [exact I | contradiction].
Qed.

Lemma only_raises_getattr {A : Type} (a : attr A) (name : string) :
  (forall msg, P (AttributeError msg)) -> only_raises P (getattr a name).
Proof. intros HP. destruct a; [apply only_raises_raise, HP | apply only_raises_ret]. Qed.

End Raising.

(** [except Exception] with a handler that cannot fail lets nothing
    through when the body raises instances of [Exception] only. *)
Lemma try_except_catches {A : Type} (m : M A) (h : exn -> M A) :
  only_raises (fun e => is_Exception e = true) m ->
  (forall e, only_raises (fun _ => False) (h e)) ->
  only_raises (fun _ => False) (try_except m h).
Proof.
  intros Hm Hh w. unfold try_except. specialize (Hm w).
  destruct (m w) as [[a | e] w1]; simpl in *; [exact I |].
  rewrite Hm. apply Hh.
Qed.

(** Whatever the body raises, [except Exception] lets through only what
    is not an instance of [Exception]. *)
Lemma try_except_lets_through {A : Type} (m : M A) (h : exn -> M A) :
  (forall e, only_raises (fun _ => False) (h e)) ->
  only_raises (fun e => is_Exception e = false) (try_except m h).
Proof.
  intros Hh w. unfold try_except.
  destruct (m w) as [[a | e] w1]; simpl; [exact I |].
  destruct (is_Exception e) eqn:He; simpl; [| exact He].
  specialize (Hh e w1). destruct (fst (h e w1)); [exact I | contradiction].
Qed.

Lemma log_never_raises lvl msg : only_raises (fun _ => False) (log lvl msg).
Proof. intros w. exact I. Qed.

Section RaisingChannel.

Variable env : Env.

(** [_download_media] lets through only what is not an [Exception]. *)
Lemma download_lets_through url :
  only_raises (fun e => is_Exception e = false) (_download_media env url).
Proof. apply try_except_lets_through. intros e w. exact I. Qed.

Hypothesis Henv : raises_only_Exception env.

Lemma download_never_raises url : only_raises (fun _ => False) (_download_media env url).
Proof.
  apply try_except_catches; [| intros e w; exact I].
  intros w. unfold bind, tick, emit. simpl.
  destruct (http_get env (clock w) url) as [status body ct | e] eqn:Hget; simpl.
  - destruct (status =? 200)%Z; exact I.
  - destruct Henv as [Hhttp _]. exact (Hhttp _ _ _ Hget).
Qed.

Lemma fetch_never_raises atts :
  forall media, only_raises (fun _ => False) (fetch_attachments env atts media).
Proof.
  induction atts as [| att rest IH]; intros media; simpl.
  - apply only_raises_ret.
  - destruct (att_url att) as [| [url |]]; [apply IH | | apply IH].
    destruct (PyStr.is_empty url); [apply IH |].
    apply only_raises_bind; [apply download_never_raises | intros path; apply IH].
Qed.

Lemma collect_media_never_raises data :
  only_raises (fun _ => False) (collect_media env data).
Proof.
  unfold collect_media.
  destruct (data_attachments data) as [| [[| att atts] |]];
    first [apply fetch_never_raises | apply only_raises_ret].
Qed.

Lemma handle_message_raises_Exception msg :
  only_raises (fun e => is_Exception e = true) (_handle_message env msg).
Proof.
  intros w. rewrite handle_message_published.
  destruct (bus_publish env (clock w) msg) as [e |] eqn:Hpub; simpl; [| exact I].
  destruct Henv as [_ Hbus]. exact (Hbus _ _ _ Hpub).
Qed.

Lemma parse_command_raises_Exception ud mid raw :
  only_raises (fun e => is_Exception e = true) (of_result (parse_command ud mid raw)).
Proof.
  intros w. unfold of_result, parse_command. cbn [fst].
  repeat match goal with
         | |- context [if ?b then _ else _] => destruct b
         | |- context [match PyStr.int ?u ?x with _ => _ end] => destruct (PyStr.int u x)
         end; first [exact I | reflexivity].
Qed.

Lemma process_new_raises_Exception data mid :
  only_raises (fun e => is_Exception e = true) (process_new env data mid).
Proof.
  unfold process_new.
  apply only_raises_bind; [apply only_raises_getattr; reflexivity | intros author].
  apply only_raises_bind; [apply only_raises_getattr; reflexivity | intros c].
  apply only_raises_bind; [apply parse_command_raises_Exception | intros [content metadata]].
  apply only_raises_bind;
    [apply only_raises_weaken, collect_media_never_raises | intros media].
  destruct (_ && _); [apply only_raises_ret | apply handle_message_raises_Exception].
Qed.

Lemma on_message_body_raises_Exception data :
  only_raises (fun e => is_Exception e = true) (_on_message_body env data).
Proof.
  unfold _on_message_body.
  apply only_raises_bind; [apply only_raises_getattr; reflexivity | intros mid].
  apply only_raises_bind; [intros w; exact I | intros self].
  destruct (deque_contains mid _); [apply only_raises_ret |].
  apply only_raises_bind; [intros w; exact I | intros _].
  apply process_new_raises_Exception.
Qed.

Lemma on_message_never_raises data : only_raises (fun _ => False) (_on_message env data).
Proof.
  apply try_except_catches; [apply on_message_body_raises_Exception |].
  intros e. apply log_never_raises.
Qed.

End RaisingChannel.

(** ** Fetching media and publishing *)

Section Media.

Variable env : Env.

Lemma download_not_200 url w status body ct :
  http_get env (clock w) url = HttpResponse status body ct ->
  status <> 200%Z ->
  _download_media env url w
  = (Ok None, {| chan := chan w; trace := trace w ++ [ActHttpGet url];
                 clock := S (clock w); next_oid := next_oid w |}).
Proof.
  intros Hget Hstatus. unfold _download_media, try_except, bind, tick, emit. simpl.
  rewrite Hget. apply Z.eqb_neq in Hstatus. rewrite Hstatus. reflexivity.
Qed.

Lemma download_caught url w e :
  http_get env (clock w) url = HttpRaise e ->
  is_Exception e = true ->
  _download_media env url w
  = (Ok None,
     {| chan := chan w;
        trace := (trace w ++ [ActHttpGet url])
                 ++ [ActLog ERROR ("Failed to download media: " +:+ exn_str e)];
        clock := S (clock w); next_oid := next_oid w |}).
Proof.
  intros Hget He. unfold _download_media, try_except, bind, tick, emit. simpl.
  rewrite Hget. simpl. rewrite He. reflexivity.
Qed.

(** A path returned by [_download_media] is a non-empty string. *)
Lemma download_path_nonempty url w path w1 :
  _download_media env url w = (Ok (Some path), w1) -> PyStr.is_empty path = false.
Proof.
  unfold _download_media, try_except, bind, tick, emit, NamedTemporaryFile. simpl.
  destruct (http_get env (clock w) url) as [status body ct | e]; simpl.
  - destruct (status =? 200)%Z; simpl; intros H; [| discriminate].
    injection H as <- _. reflexivity.
  - destruct (is_Exception e); simpl; discriminate.
Qed.

Lemma fetch_fetched atts w paths w' :
  fetched env atts w paths w' ->
  forall acc, fetch_attachments env atts acc w = (Ok (acc ++ paths), w').
Proof.
  induction 1 as [w | att rest w w' paths Hurl _ IH
                 | att rest url path w w1 w' paths Hurl Hdl _ IH
                 | att rest url w w1 w' paths Hurl Hdl _ IH]; intros acc; simpl.
  - rewrite app_nil_r. reflexivity.
  - unfold usable_url in Hurl.
    destruct (att_url att) as [| [url |]]; [apply IH | | apply IH].
    destruct (PyStr.is_empty url); [apply IH | discriminate].
  - unfold usable_url in Hurl.
    destruct (att_url att) as [| [url' |]]; [discriminate | | discriminate].
    destruct (PyStr.is_empty url'); [discriminate |]. injection Hurl as ->.
    unfold bind. rewrite Hdl. simpl.
    rewrite (download_path_nonempty _ _ _ _ Hdl). simpl.
    rewrite IH, <- app_assoc. reflexivity.
  - unfold usable_url in Hurl.
    destruct (att_url att) as [| [url' |]]; [discriminate | | discriminate].
    destruct (PyStr.is_empty url'); [discriminate |]. injection Hurl as ->.
    unfold bind. rewrite Hdl. simpl. apply IH.
Qed.

(** When fetching raises instances of [Exception] only, the loop over
    the attachments always runs to its end. *)
Lemma fetched_total :
  (forall t url e, http_get env t url = HttpRaise e -> is_Exception e = true) ->
  forall atts w, exists paths w', fetched env atts w paths w'.
Proof.
  intros Hhttp atts. induction atts as [| att rest IH]; intros w.
  - exists [], w. constructor.
  - destruct (usable_url att) as [url |] eqn:Hurl.
    + assert (Hdl : exists r w1, _download_media env url w = (Ok r, w1)).
      { destruct (http_get env (clock w) url) as [status body ct | e] eqn:Hget.
        - destruct (Z.eq_dec status 200%Z) as [-> | Hne].
          + unfold _download_media, try_except, bind, tick, emit, NamedTemporaryFile.
            simpl. rewrite Hget. simpl. eauto.
          + rewrite (download_not_200 _ _ _ _ _ Hget Hne). eauto.
        - rewrite (download_caught _ _ _ Hget (Hhttp _ _ _ Hget)). eauto. }
      destruct Hdl as ([path |] & w1 & Hdl); destruct (IH w1) as (paths & w' & Hrest).
      * exists (path :: paths), w'. eapply fetched_path; eassumption.
      * exists paths, w'. eapply fetched_nothing; eassumption.
    + destruct (IH w) as (paths & w' & Hrest).
      exists paths, w'. apply fetched_no_url; assumption.
Qed.

Lemma collect_media_fetched data atts w paths w' :
  data_attachments data = Present (Some atts) ->
  fetched env atts w paths w' ->
  collect_media env data w = (Ok paths, w').
Proof.
  intros Hatts Hf. unfold collect_media. rewrite Hatts.
  destruct atts as [| att rest].
  - inversion Hf; subst. reflexivity.
  - apply (fetch_fetched _ _ _ _ Hf []).
Qed.

(** The handler on a first-seen, well-formed event, once its media are
    collected. *)
Lemma on_message_new data mid author c text md w paths w1 :
  data_id data = Present mid ->
  deque_contains mid (ledger w) = false ->
  data_author data = Present author ->
  data_content data = Present c ->
  interpreted env mid c = Ok (text, md) ->
  collect_media env data (mark_seen mid w) = (Ok paths, w1) ->
  published w1 = published w
  /\ _on_message env data w =
     if PyStr.is_empty text && bool_decide (paths = [])
     then (Ok tt, w1)
     else try_except (_handle_message env (canonical_message author text md paths))
            (fun e => log ERROR ("Error handling QQ message: " +:+ exn_str e)) w1.
Proof.
  intros Hid Hnew Ha Hc Hint Hmedia.
  split.
  { pose proof (collect_media_same_published env data (mark_seen mid w)) as H.
    rewrite Hmedia in H. exact H. }
  unfold _on_message. unfold try_except at 1.
  rewrite (on_message_body_new _ _ _ _ Hid Hnew).
  rewrite (process_new_unfold _ _ _ _ _ _ Ha Hc), Hint, Hmedia.
  destruct (PyStr.is_empty text && bool_decide (paths = [])); reflexivity.
Qed.

Lemma on_message_publishes data mid author c text md w paths w1 :
  data_id data = Present mid ->
  deque_contains mid (ledger w) = false ->
  data_author data = Present author ->
  data_content data = Present c ->
  interpreted env mid c = Ok (text, md) ->
  collect_media env data (mark_seen mid w) = (Ok paths, w1) ->
  text <> "" \/ paths <> [] ->
  bus_publish env (clock w1) (canonical_message author text md paths) = None ->
  fst (_on_message env data w) = Ok tt
  /\ published (snd (_on_message env data w))
     = published w ++ [canonical_message author text md paths].
Proof.
  intros Hid Hnew Ha Hc Hint Hmedia Hsome Hbus.
  destruct (on_message_new _ _ _ _ _ _ _ _ _ Hid Hnew Ha Hc Hint Hmedia) as [Hpub ->].
  assert (Hcond : PyStr.is_empty text && bool_decide (paths = []) = false).
  { destruct Hsome as [Hcontent | Hpaths].
    - destruct text; [contradiction | reflexivity].
    - rewrite (bool_decide_eq_false_2 _ Hpaths). apply andb_false_r. }
  rewrite Hcond. unfold try_except. rewrite handle_message_published, Hbus. simpl.
  rewrite published_emit_publish, Hpub. split; reflexivity.
Qed.

End Media.

(** * Worked examples

    The testable properties of the specification, run on the model. *)

Example parse_reset :
  parse_command sample_unicode_digit (Some "m1") "/reset"
  = Ok (reset_marker, <[ "reset_session" := PBool true ]> {[ "message_id" := PStr "m1" ]}).
Proof. vm_compute. reflexivity. Qed.

Example parse_context_5 :
  parse_command sample_unicode_digit (Some "m1") "/context 5"
  = Ok ("Set context window to 5",
        <[ "memory_window" := PInt 5 ]> {[ "message_id" := PStr "m1" ]}).
Proof. vm_compute. reflexivity. Qed.

Example parse_context_5_hello :
  parse_command sample_unicode_digit (Some "m1") "/context 5 hello"
  = Ok ("hello", <[ "memory_window" := PInt 5 ]> {[ "message_id" := PStr "m1" ]}).
Proof. vm_compute. reflexivity. Qed.

Example parse_context_abc :
  parse_command sample_unicode_digit (Some "m1") "/context abc"
  = Ok ("/context abc", {[ "message_id" := PStr "m1" ]}).
Proof. vm_compute. reflexivity. Qed.

Example parse_context_leading_zeros :
  parse_command sample_unicode_digit (Some "m1") "/context 007"
  = Ok ("Set context window to 007",
        <[ "memory_window" := PInt 7 ]> {[ "message_id" := PStr "m1" ]}).
Proof. vm_compute. reflexivity. Qed.

Example parse_context_two_spaces :
  parse_command sample_unicode_digit (Some "m1") "/context  5"
  = Ok ("/context  5", {[ "message_id" := PStr "m1" ]}).
Proof. vm_compute. reflexivity. Qed.

Example parse_hello_world :
  parse_command sample_unicode_digit (Some "m1") "hello world"
  = Ok ("hello world", {[ "message_id" := PStr "m1" ]}).
Proof. vm_compute. reflexivity. Qed.

(** Full-width digits are decimal digits: [isdigit] accepts them and
    [int] reads them. *)
Example parse_context_fullwidth :
  PyStr.isdigit sample_unicode_digit "５" = true
  /\ PyStr.int sample_unicode_digit "５" = PyStr.IntValue 5
  /\ parse_command sample_unicode_digit (Some "m1") "/context ５"
     = Ok ("Set context window to ５",
           <[ "memory_window" := PInt 5 ]> {[ "message_id" := PStr "m1" ]}).
Proof. repeat split; vm_compute; reflexivity. Qed.

(** A superscript two is a digit for [isdigit] and no literal for [int]:
    the conversion raises [ValueError]. *)
Example parse_context_superscript :
  PyStr.isdigit sample_unicode_digit "²" = true
  /\ PyStr.int sample_unicode_digit "²" = PyStr.IntInvalid
  /\ parse_command sample_unicode_digit (Some "m1") "/context ²"
     = Raise (ValueError "invalid literal for int() with base 10: '²'").
Proof. repeat split; vm_compute; reflexivity. Qed.

(** The event is then logged and dropped by the handler. *)
Example superscript_event_dropped :
  _on_message sample_env (text_event "m1" "/context ²") (init_world sample_config)
  = (Ok tt,
     {| chan := chan (mark_seen (Some "m1") (init_world sample_config));
        trace := [ActLog ERROR
                    "Error handling QQ message: invalid literal for int() with base 10: '²'"];
        clock := 0; next_oid := 1 |}).
Proof. vm_compute. reflexivity. Qed.

(** Whitespace outside ASCII is stripped as well. *)
Example strip_ideographic_space : PyStr.strip "　hello　" = "hello".
Proof. reflexivity. Qed.

Example strip_whitespace : PyStr.strip "  /reset   " = "/reset".
Proof. reflexivity. Qed.

Example split_at_most_three : PyStr.split " " 2 "/context 5 a b c" = ["/context"; "5"; "a b c"].
Proof. reflexivity. Qed.

(** A text message is published once; its duplicate adds nothing. *)
Example text_message_published_once :
  published (deliver sample_env [text_event "m1" "hello"; text_event "m1" "hello"]
               (init_world sample_config))
  = [canonical_message sample_author "hello" {[ "message_id" := PStr "m1" ]} []].
Proof. vm_compute. reflexivity. Qed.

(** An event without author is logged and dropped, and its id is kept. *)
Example malformed_event_dropped :
  _on_message sample_env (malformed_event "m1") (init_world sample_config)
  = (Ok tt,
     {| chan := chan (mark_seen (Some "m1") (init_world sample_config));
        trace := [ActLog ERROR "Error handling QQ message: object has no attribute 'author'"];
        clock := 0; next_oid := 1 |}).
Proof. vm_compute. reflexivity. Qed.

(** One of two attachments cannot be fetched: the other one is delivered. *)
Example one_of_two_attachments :
  map media
    (published
       (snd (_on_message sample_env
               (image_event "m1" ["https://cdn.example/missing.png"; "https://cdn.example/a.png"])
               (init_world sample_config))))
  = [["/tmp/tmp2.png"]].
Proof. vm_compute. reflexivity. Qed.

(** Two failed connection attempts, five seconds apart, with one client. *)
Example reconnect_trace :
  trace (snd (_run_bot sample_env 2 (snd (start sample_env (init_world sample_config)))))
  = [ ActNewClient {| client_oid := 1; client_channel := 0 |};
      ActCreateTask 2;
      ActLog INFO "QQ bot started (C2C private message)";
      ActClientStart {| client_oid := 1; client_channel := 0 |}
        (Some "102000001") (Some "s3cret");
      ActLog WARNING "QQ bot error: connection lost";
      ActLog INFO "Reconnecting QQ bot in 5 seconds...";
      ActSleep 5;
      ActClientStart {| client_oid := 1; client_channel := 0 |}
        (Some "102000001") (Some "s3cret");
      ActLog WARNING "QQ bot error: connection lost";
      ActLog INFO "Reconnecting QQ bot in 5 seconds...";
      ActSleep 5 ].
Proof. vm_compute. reflexivity. Qed.

(** * The specification's claims *)

(** ** Deduplication *)

(** C1, as stated, fails: an event with no text and no media is marked and
    dropped, so delivering it twice within the window publishes no message
    at all rather than exactly one. *)
Lemma empty_event_twice_publishes_nothing :
  deque_contains (Some "m1")
    (ledger (deliver sample_env [text_event "m1" ""] (init_world sample_config))) = true
  /\ published
       (deliver sample_env [text_event "m1" ""; text_event "m1" ""]
          (init_world sample_config)) = [].
Proof. split; vm_compute; reflexivity. Qed.

(** C1 (amended): when a message id is delivered again while it is still in
    the dedup window (fewer than 1000 deliveries after its first one), the
    second delivery returns at once and leaves the world as it was: no
    author extraction, command parsing, media fetch, log entry or publish
    happens.  The deliveries together therefore publish what the first
    delivery alone published, which is at most one canonical message. *)
Theorem duplicate_within_window_discarded
  (env : Env) (data data' : C2CMessage) (others : list C2CMessage)
  (mid : option string) (w : World) :
  data_id data = Present mid ->
  data_id data' = Present mid ->
  deque_contains mid (ledger w) = false ->
  dq_maxlen (ledger w) = 1000 ->
  length others < 1000 ->
  _on_message env data' (deliver env (data :: others) w)
    = (Ok tt, deliver env (data :: others) w)
  /\ deliver env (data :: others ++ [data']) w = deliver env (data :: others) w
  /\ published (deliver env [data; data'] w) = published (deliver env [data] w)
  /\ exists l, published (deliver env [data; data'] w) = published w ++ l /\ length l <= 1.
Proof.
  intros Hid Hid' Hnew Hmax Hlen.
  assert (Hdup : forall os, length os < 1000 ->
            _on_message env data' (deliver env (data :: os) w)
            = (Ok tt, deliver env (data :: os) w)).
  { intros os Hos. simpl. apply (on_message_seen _ _ mid); [exact Hid' |].
    apply redelivery_recognised; [exact Hid | exact Hnew | lia]. }
  assert (Hpair : deliver env [data; data'] w = deliver env [data] w).
  { change (deliver env [data; data'] w)
      with (snd (_on_message env data' (deliver env [data] w))).
    rewrite (Hdup []); [reflexivity | simpl; lia]. }
  split; [apply Hdup; exact Hlen |].
  split.
  { change (data :: others ++ [data']) with ((data :: others) ++ [data']).
    rewrite deliver_app. simpl deliver at 1.
    fold (deliver env (data :: others) w).
    change (deliver env others (snd (_on_message env data w)))
      with (deliver env (data :: others) w).
    rewrite (Hdup others Hlen). reflexivity. }
  split; [rewrite Hpair; reflexivity |].
  rewrite Hpair. simpl. apply on_message_published.
Qed.

Lemma duplicate_within_window_discarded_witness :
  length [text_event "m2" "other"] < 1000
  /\ published
       (deliver sample_env [text_event "m1" "hello"; text_event "m1" "hello"]
          (init_world sample_config))
     = published (deliver sample_env [text_event "m1" "hello"] (init_world sample_config)).
Proof.
  split; [simpl; lia |].
  apply (duplicate_within_window_discarded sample_env
           (text_event "m1" "hello") (text_event "m1" "hello")
           [text_event "m2" "other"] (Some "m1") (init_world sample_config));
    [reflexivity | reflexivity | vm_compute; reflexivity | reflexivity | simpl; lia].
Defined.

(** C2: every reachable deque of processed ids keeps the bound of 1000;
    appending to a full deque drops its oldest element and leaves the rest
    in order; a duplicate does not refresh the position of its id; and
    after more than 1000 distinct ids the deque holds the last 1000 of
    them, so the oldest id is no longer recognised and an event carrying it
    is marked and processed again. *)
Theorem ledger_bounded_fifo :
  (forall env cfg w,
      reachable env cfg w ->
      dq_maxlen (ledger w) = 1000 /\ length (dq_items (ledger w)) <= 1000)
  /\ (forall (x : option string) (d : deque (option string)),
        0 < dq_maxlen d ->
        length (dq_items d) = dq_maxlen d ->
        exists oldest rest,
          dq_items d = oldest :: rest /\ dq_items (deque_append x d) = rest ++ [x])
  /\ (forall env data mid w,
        data_id data = Present mid ->
        deque_contains mid (ledger w) = true ->
        ledger (snd (_on_message env data w)) = ledger w)
  /\ (forall env cfg events ids,
        map data_id events = map Present ids ->
        NoDup ids ->
        1000 < length ids ->
        dq_items (ledger (deliver env events (init_world cfg)))
          = drop (length ids - 1000) ids
        /\ forall oldest data,
            head ids = Some oldest ->
            data_id data = Present oldest ->
            deque_contains oldest (ledger (deliver env events (init_world cfg))) = false
            /\ _on_message_body env data (deliver env events (init_world cfg))
               = process_new env data oldest
                   (mark_seen oldest (deliver env events (init_world cfg)))).
Proof.
  split; [intros env cfg w; apply reachable_ledger_bound |].
  split.
  { intros x d Hpos Hfull.
    destruct (dq_items d) as [| oldest rest] eqn:Hitems; [simpl in Hfull; lia |].
    exists oldest, rest. split; [reflexivity |].
    rewrite deque_append_full by (rewrite Hitems; exact Hfull).
    rewrite Hitems. reflexivity. }
  split.
  { intros env data mid w Hid Hin. rewrite (on_message_seen _ _ _ _ Hid Hin). reflexivity. }
  intros env cfg events ids Hids Hnd Hlen.
  assert (Hitems : dq_items (ledger (deliver env events (init_world cfg)))
                   = drop (length ids - 1000) ids).
  { apply (deliver_distinct env events ids [] (init_world cfg)); simpl;
      [exact Hids | exact Hnd | lia | reflexivity]. }
  split; [exact Hitems |].
  intros oldest data Hhead Hdata.
  assert (Hgone : deque_contains oldest (ledger (deliver env events (init_world cfg))) = false).
  { apply deque_contains_false. rewrite Hitems.
    destruct ids as [| i ids']; [discriminate |].
    simpl in Hhead. injection Hhead as ->.
    simpl in Hlen.
    replace (length (oldest :: ids') - 1000) with (S (length ids' - 1000)) by (simpl; lia).
    simpl. intros Hin. apply (subseteq_drop _ ids') in Hin.
    apply NoDup_cons in Hnd as [Hnotin _]. exact (Hnotin Hin). }
  split; [exact Hgone |].
  apply on_message_body_new; assumption.
Qed.

Lemma ledger_bounded_fifo_witness :
  1000 < length (map (fun k => Some (pretty k)) (seq 0 1001))
  /\ dq_items (ledger (deliver sample_env (numbered_events 1001) (init_world sample_config)))
     = drop 1 (map (fun k => Some (pretty k)) (seq 0 1001))
  /\ deque_contains (Some "0")
       (ledger (deliver sample_env (numbered_events 1001) (init_world sample_config))) = false.
Proof.
  assert (Hlen : 1000 < length (map (fun k : nat => Some (pretty k)) (seq 0 1001))).
  { rewrite length_map, length_seq. lia. }
  assert (Hnd : NoDup (map (fun k : nat => Some (pretty k)) (seq 0 1001))).
  { apply (bool_decide_unpack _). vm_compute. exact I. }
  destruct ledger_bounded_fifo as (_ & _ & _ & H).
  destruct (H sample_env sample_config (numbered_events 1001)
              (map (fun k => Some (pretty k)) (seq 0 1001))) as [Hitems Hold];
    [unfold numbered_events; rewrite !map_map; reflexivity | exact Hnd | exact Hlen |].
  split; [exact Hlen |].
  split.
  - rewrite Hitems. rewrite length_map, length_seq. reflexivity.
  - apply (Hold (Some "0") (text_event "0" "again")); reflexivity.
Defined.

(** C10: the id of a first-seen event is appended to the deque before the
    rest of the handler runs, so whatever becomes of the event (published,
    dropped as empty, or aborted by an exception) the deque afterwards
    holds its id, and a redelivery within the window is dropped without a
    trace. *)
Theorem mark_precedes_processing
  (env : Env) (data : C2CMessage) (mid : option string) (w : World) :
  data_id data = Present mid ->
  deque_contains mid (ledger w) = false ->
  dq_maxlen (ledger w) = 1000 ->
  _on_message_body env data w = process_new env data mid (mark_seen mid w)
  /\ ledger (snd (_on_message env data w)) = deque_append mid (ledger w)
  /\ deque_contains mid (ledger (snd (_on_message env data w))) = true
  /\ forall others data',
       data_id data' = Present mid ->
       length others < 1000 ->
       _on_message env data' (deliver env others (snd (_on_message env data w)))
       = (Ok tt, deliver env others (snd (_on_message env data w))).
Proof.
  intros Hid Hnew Hmax.
  split; [apply on_message_body_new; assumption |].
  split; [rewrite on_message_ledger, Hid, Hnew; reflexivity |].
  split.
  { apply (redelivery_recognised env data [] mid w Hid Hnew). simpl. lia. }
  intros others data' Hid' Hlen.
  apply (on_message_seen _ _ mid); [exact Hid' |].
  apply redelivery_recognised; [exact Hid | exact Hnew | lia].
Qed.

Lemma mark_precedes_processing_witness :
  deque_contains (Some "m1")
    (ledger (snd (_on_message sample_env (text_event "m1" "") (init_world sample_config)))) = true
  /\ _on_message sample_env (text_event "m1" "again")
       (snd (_on_message sample_env (text_event "m1" "") (init_world sample_config)))
     = (Ok tt, snd (_on_message sample_env (text_event "m1" "") (init_world sample_config))).
Proof.
  destruct (mark_precedes_processing sample_env (text_event "m1" "") (Some "m1")
              (init_world sample_config)) as (_ & _ & Hin & Hdrop);
    [reflexivity | vm_compute; reflexivity | reflexivity |].
  split; [exact Hin |].
  apply (Hdrop [] (text_event "m1" "again")); [reflexivity | simpl; lia].
Defined.

(** ** Command interpretation *)

(** C3, as stated, fails: ["/context 0"] sets a context window although 0
    is not a positive integer. *)
Lemma context_zero_sets_window :
  PyStr.isdigit sample_unicode_digit "0" = true
  /\ PyStr.int sample_unicode_digit "0" = PyStr.IntValue 0
  /\ parse_command sample_unicode_digit (Some "m1") "/context 0"
     = Ok ("Set context window to 0",
           <[ "memory_window" := PInt 0 ]> {[ "message_id" := PStr "m1" ]}).
Proof. repeat split; vm_compute; reflexivity. Qed.

(** C3 (amended): text that does not start with ['/'] passes through with
    no directive.  Text that does is split on its first two spaces into at
    most three parts.  A first part that is ["/reset"] in any letter case
    yields the reset flag and the reset marker.  A first part that is
    ["/context"] yields a memory window N when the second part consists of
    digits and reads as the integer N, which is never negative; the
    content is then the third part when there is one and otherwise
    ["Set context window to "] followed by the second part as written.
    A non-empty run of at most 4300 of the digits 0 to 9 is such a second
    part, zero and leading zeros included, and N is its value in base
    ten.  A ["/context"] whose second part is missing, empty or holds a
    character that is not a digit, and every other text starting with
    ['/'], passes through unchanged with no directive.  Whatever the
    Unicode database [ud] says of the characters outside ASCII. *)
Theorem command_interpreter
  (ud : string -> PyStr.digit_class) (mid : option string) (raw : string) :
  (1 <= length (PyStr.split " " 2 raw) <= 3
   /\ join " " (PyStr.split " " 2 raw) = raw
   /\ (forall i p, PyStr.split " " 2 raw !! i = Some p ->
                   S i < length (PyStr.split " " 2 raw) -> has_char " " p = false)
   /\ (length (PyStr.split " " 2 raw) < 3 ->
       forall p, last (PyStr.split " " 2 raw) = Some p -> has_char " " p = false))
  /\ (PyStr.startswith "/" raw = false ->
      parse_command ud mid raw = Ok (raw, {[ "message_id" := of_pystr mid ]}))
  /\ (forall cmd rest,
        PyStr.startswith "/" raw = true ->
        PyStr.split " " 2 raw = cmd :: rest ->
        PyStr.lower cmd = "/reset" ->
        parse_command ud mid raw
        = Ok (reset_marker,
              <[ "reset_session" := PBool true ]> {[ "message_id" := of_pystr mid ]}))
  /\ (forall cmd arg n,
        PyStr.startswith "/" raw = true ->
        PyStr.split " " 2 raw = [cmd; arg] ->
        PyStr.lower cmd = "/context" ->
        PyStr.isdigit ud arg = true ->
        PyStr.int ud arg = PyStr.IntValue n ->
        (0 <= n)%Z
        /\ parse_command ud mid raw
           = Ok ("Set context window to " +:+ arg,
                 <[ "memory_window" := PInt n ]> {[ "message_id" := of_pystr mid ]}))
  /\ (forall cmd arg text n,
        PyStr.startswith "/" raw = true ->
        PyStr.split " " 2 raw = [cmd; arg; text] ->
        PyStr.lower cmd = "/context" ->
        PyStr.isdigit ud arg = true ->
        PyStr.int ud arg = PyStr.IntValue n ->
        (0 <= n)%Z
        /\ parse_command ud mid raw
           = Ok (text, <[ "memory_window" := PInt n ]> {[ "message_id" := of_pystr mid ]}))
  /\ (forall arg,
        ascii_digits arg = true ->
        arg <> "" ->
        String.length arg <= PyStr.int_max_str_digits ->
        PyStr.isdigit ud arg = true
        /\ PyStr.int ud arg = PyStr.IntValue (ascii_value 0 arg))
  /\ (forall arg,
        PyStr.isdigit ud arg = false
        <-> arg = ""
            \/ exists ch, In ch (PyStr.utf8_chars arg) /\ PyStr.classify ud ch = PyStr.NotDigit)
  /\ (forall cmd rest,
        PyStr.startswith "/" raw = true ->
        PyStr.split " " 2 raw = cmd :: rest ->
        PyStr.lower cmd <> "/reset" ->
        (PyStr.lower cmd = "/context" ->
         forall arg rest', rest = arg :: rest' -> PyStr.isdigit ud arg = false) ->
        parse_command ud mid raw = Ok (raw, {[ "message_id" := of_pystr mid ]})).
Proof.
  split.
  { split; [apply (split_length " " 2 raw) |].
    split; [apply (split_join " " 2 raw) |].
    apply (split_parts " " 2 raw). }
  split.
  { intros Hslash. unfold parse_command. rewrite Hslash. reflexivity. }
  split.
  { intros cmd rest Hslash Hsplit Hcmd. unfold parse_command.
    rewrite Hslash, Hsplit. simpl nth. rewrite Hcmd. reflexivity. }
  split.
  { intros cmd arg n Hslash Hsplit Hcmd Hdigit Hint.
    split; [apply (int_value_nonneg _ _ _ Hint) |].
    unfold parse_command. rewrite Hslash, Hsplit. simpl nth. rewrite Hcmd, Hdigit, Hint.
    reflexivity. }
  split.
  { intros cmd arg text n Hslash Hsplit Hcmd Hdigit Hint.
    split; [apply (int_value_nonneg _ _ _ Hint) |].
    unfold parse_command. rewrite Hslash, Hsplit. simpl nth. rewrite Hcmd, Hdigit, Hint.
    reflexivity. }
  split.
  { intros arg Hascii Hne Hlen.
    split; [apply (isdigit_ascii _ _ Hascii Hne) |].
    rewrite (int_ascii _ _ Hascii Hne).
    destruct (Nat.ltb_spec PyStr.int_max_str_digits (String.length arg)) as [Hlt | _];
      [lia | reflexivity]. }
  split; [intros arg; apply isdigit_false_iff |].
  intros cmd rest Hslash Hsplit Hreset Hcontext.
  unfold parse_command. rewrite Hslash, Hsplit. simpl nth.
  destruct (String.eqb_spec (PyStr.lower cmd) "/reset") as [Heq | _];
    [contradiction |].
  destruct (String.eqb_spec (PyStr.lower cmd) "/context") as [Heq | _];
    [| reflexivity].
  destruct rest as [| arg rest']; [reflexivity |].
  simpl nth. rewrite (Hcontext Heq arg rest' eq_refl).
  rewrite andb_false_r. reflexivity.
Qed.

Lemma command_interpreter_witness :
  parse_command sample_unicode_digit (Some "m1") "/Context 007 hello there"
  = Ok ("hello there", <[ "memory_window" := PInt 7 ]> {[ "message_id" := PStr "m1" ]})
  /\ parse_command sample_unicode_digit (Some "m1") "/context ５"
     = Ok ("Set context window to ５",
           <[ "memory_window" := PInt 5 ]> {[ "message_id" := PStr "m1" ]})
  /\ (PyStr.isdigit sample_unicode_digit "4300" = true
      /\ PyStr.int sample_unicode_digit "4300" = PyStr.IntValue 4300)
  /\ parse_command sample_unicode_digit (Some "m1") "/context abc"
     = Ok ("/context abc", {[ "message_id" := PStr "m1" ]})
  /\ parse_command sample_unicode_digit (Some "m1") "/RESET now"
     = Ok (reset_marker, <[ "reset_session" := PBool true ]> {[ "message_id" := PStr "m1" ]})
  /\ parse_command sample_unicode_digit (Some "m1") "hello world"
     = Ok ("hello world", {[ "message_id" := PStr "m1" ]}).
Proof.
  split.
  { destruct (command_interpreter sample_unicode_digit (Some "m1") "/Context 007 hello there")
      as (_ & _ & _ & _ & H & _).
    destruct (H "/Context" "007" "hello there" 7%Z) as [_ Heq];
      [reflexivity | reflexivity | reflexivity | reflexivity | reflexivity | exact Heq]. }
  split.
  { destruct (command_interpreter sample_unicode_digit (Some "m1") "/context ５")
      as (_ & _ & _ & H & _).
    destruct (H "/context" "５" 5%Z) as [_ Heq];
      [reflexivity | reflexivity | reflexivity | reflexivity | reflexivity | exact Heq]. }
  split.
  { destruct (command_interpreter sample_unicode_digit (Some "m1") "") as (_ & _ & _ & _ & _ & H & _).
    apply (H "4300"); [reflexivity | discriminate | vm_compute; lia]. }
  split.
  { destruct (command_interpreter sample_unicode_digit (Some "m1") "/context abc")
      as (_ & _ & _ & _ & _ & _ & _ & H).
    apply (H "/context" ["abc"]); [reflexivity | reflexivity | discriminate |].
    intros _ arg rest' Heq. injection Heq as <- _. reflexivity. }
  split.
  { destruct (command_interpreter sample_unicode_digit (Some "m1") "/RESET now") as (_ & _ & H & _).
    apply (H "/RESET" ["now"]); reflexivity. }
  destruct (command_interpreter sample_unicode_digit (Some "m1") "hello world") as (_ & H & _).
  apply H. reflexivity.
Defined.

(** ** Session supervisor *)

(** C6: with the application id or the secret absent (or empty), [start]
    returns normally having done nothing but log one error: the channel is
    as before (not running, no client, no task, for a channel fresh from
    [__init__]), no client is created and no connection is attempted. *)
Theorem start_without_credentials (env : Env) (w : World) :
  PyStr.truthy (app_id (config (chan w))) = false
  \/ PyStr.truthy (secret (config (chan w))) = false ->
  fst (start env w) = Ok tt
  /\ chan (snd (start env w)) = chan w
  /\ (exists msg, trace (snd (start env w)) = trace w ++ [ActLog ERROR msg])
  /\ clients_created (snd (start env w)) = clients_created w
  /\ connection_attempts (snd (start env w)) = connection_attempts w
  /\ next_oid (snd (start env w)) = next_oid w
  /\ (forall oid, chan w = __init__ oid (config (chan w)) ->
        _running (chan (snd (start env w))) = false
        /\ _client (chan (snd (start env w))) = None
        /\ _bot_task (chan (snd (start env w))) = None).
Proof.
  intros Hcred.
  assert (Hrun : exists msg,
             start env w = (Ok tt, {| chan := chan w; trace := trace w ++ [ActLog ERROR msg];
                                      clock := clock w; next_oid := next_oid w |})).
  { unfold start. destruct (QQ_AVAILABLE env); simpl; [| eexists; reflexivity].
    unfold bind, get_chan.
    destruct Hcred as [-> | ->]; simpl; rewrite ?orb_true_r; eexists; reflexivity. }
  destruct Hrun as [msg ->]. simpl.
  split; [reflexivity |].
  split; [reflexivity |].
  split; [exists msg; reflexivity |].
  unfold clients_created, connection_attempts. simpl. rewrite !omap_app. simpl.
  rewrite !app_nil_r.
  split; [reflexivity |].
  split; [reflexivity |].
  split; [reflexivity |].
  intros oid ->. simpl. auto.
Qed.

Lemma start_without_credentials_witness :
  PyStr.truthy (secret {| app_id := Some "102000001"; secret := None |}) = false
  /\ chan (snd (start sample_env
                  (init_world {| app_id := Some "102000001"; secret := None |})))
     = __init__ 0 {| app_id := Some "102000001"; secret := None |}.
Proof.
  split; [reflexivity |].
  apply (start_without_credentials sample_env
           (init_world {| app_id := Some "102000001"; secret := None |})).
  right. reflexivity.
Defined.

(** C4, as stated, fails: after [start], two failed connection attempts in
    a row are made with one and the same client, the only one ever
    created. *)
Lemma two_attempts_share_one_client :
  connection_attempts
    (snd (_run_bot sample_env 2 (snd (start sample_env (init_world sample_config)))))
  = [ {| client_oid := 1; client_channel := 0 |}; {| client_oid := 1; client_channel := 0 |} ]
  /\ clients_created
       (snd (_run_bot sample_env 2 (snd (start sample_env (init_world sample_config)))))
     = [ {| client_oid := 1; client_channel := 0 |} ].
Proof. split; vm_compute; reflexivity. Qed.

(** C4 (amended): [start] creates one client instance, bound to the
    channel, and stores it; the background loop creates none and never
    replaces it, so every connection attempt of the loop, the first one and
    each reconnect, is made with that same client instance. *)
Theorem reconnects_reuse_client (env : Env) (fuel : nat) (w : World) :
  reuses_client w (snd (_run_bot env fuel w))
  /\ (QQ_AVAILABLE env = true ->
      PyStr.truthy (app_id (config (chan w))) = true ->
      PyStr.truthy (secret (config (chan w))) = true ->
      _client (chan (snd (start env w)))
        = Some {| client_oid := next_oid w; client_channel := chan_oid (chan w) |}
      /\ clients_created (snd (_run_bot env fuel (snd (start env w))))
         = clients_created w
             ++ [ {| client_oid := next_oid w; client_channel := chan_oid (chan w) |} ]
      /\ exists l,
           connection_attempts (snd (_run_bot env fuel (snd (start env w))))
             = connection_attempts w ++ l
           /\ Forall
                (fun c => c = {| client_oid := next_oid w; client_channel := chan_oid (chan w) |})
                l).
Proof.
  split; [apply run_bot_reuses_client |].
  intros Hsdk Hid Hsecret.
  destruct (start_creates_client env w Hsdk Hid Hsecret) as (Hc & Hn & Ha & _).
  destruct (run_bot_reuses_client env fuel (snd (start env w))) as (_ & Hn' & l & Ha' & Hl).
  split; [exact Hc |].
  split; [rewrite Hn', Hn; reflexivity |].
  exists l. split; [rewrite Ha', Ha; reflexivity |].
  eapply Forall_impl; [exact Hl |].
  intros c Heq. rewrite Hc in Heq. injection Heq as <-. reflexivity.
Qed.

Lemma reconnects_reuse_client_witness :
  PyStr.truthy (app_id (config (chan (init_world sample_config)))) = true
  /\ clients_created
       (snd (_run_bot sample_env 3 (snd (start sample_env (init_world sample_config)))))
     = [ {| client_oid := 1; client_channel := 0 |} ].
Proof.
  split; [reflexivity |].
  destruct (reconnects_reuse_client sample_env 3 (init_world sample_config)) as [_ H].
  destruct H as (_ & Hn & _); [reflexivity | reflexivity | reflexivity |].
  exact Hn.
Defined.

(** ** Sender identity *)

(** C9, as stated, fails on an open id that is itself the text "unknown":
    the resolved sender id is then "unknown". *)
Lemma open_id_unknown_resolves_to_unknown :
  resolve_user_id {| author_id := Missing; author_user_openid := Present (Some "unknown") |}
  = "unknown".
Proof. reflexivity. Qed.

(** C9 (amended): the sender id is the author's [id] when that is
    non-empty; otherwise the author's [user_openid] when the author has
    one; otherwise ["unknown"].  So for an author with a non-empty open id
    and no primary id the sender id is that open id: it is non-empty, and
    it differs from ["unknown"] unless the open id is itself that text. *)
Theorem sender_id_fallback_chain (author : Author) :
  (forall s, author_id author = Present (Some s) -> s <> "" -> resolve_user_id author = s)
  /\ (forall s,
        author_id author = Missing \/ author_id author = Present None
        \/ author_id author = Present (Some "") ->
        author_user_openid author = Present (Some s) ->
        s <> "" ->
        resolve_user_id author = s
        /\ resolve_user_id author <> ""
        /\ (s <> "unknown" -> resolve_user_id author <> "unknown"))
  /\ (author_id author = Missing \/ author_id author = Present None
      \/ author_id author = Present (Some "") ->
      author_user_openid author = Missing ->
      resolve_user_id author = "unknown").
Proof.
  unfold resolve_user_id.
  split.
  { intros s -> Hs. destruct s; [contradiction | reflexivity]. }
  split.
  { intros s Hid -> Hs.
    assert (Heq : PyStr.str
                    (if PyStr.truthy match author_id author with
                                     | Present v => v
                                     | Missing => None
                                     end
                     then match author_id author with
                          | Present v => v
                          | Missing => None
                          end
                     else Some s) = s).
    { destruct Hid as [-> | [-> | ->]]; reflexivity. }
    rewrite Heq. auto. }
  intros Hid ->. destruct Hid as [-> | [-> | ->]]; reflexivity.
Qed.

Lemma sender_id_fallback_chain_witness :
  resolve_user_id sample_author = "E4F4AEA33253A2797FB897C50B81D7ED"
  /\ resolve_user_id sample_author <> "".
Proof.
  destruct (sender_id_fallback_chain sample_author) as (_ & H & _).
  destruct (H "E4F4AEA33253A2797FB897C50B81D7ED") as (Heq & Hne & _);
    [left; reflexivity | reflexivity | discriminate |].
  split; [exact Heq | exact Hne].
Defined.

(** ** The handler's exception barrier *)

(** C5, as stated, fails: [except Exception] does not catch a
    [CancelledError], so a handler cancelled while it awaits the bus
    raises. *)
Lemma cancellation_escapes_handler :
  fst (_on_message cancelling_env (text_event "m1" "hi") (init_world sample_config))
  = Raise CancelledError.
Proof. vm_compute. reflexivity. Qed.

(** C5 (amended): the handler lets no instance of [Exception] escape.  An
    instance of [Exception] raised anywhere in the sequence is caught and
    logged, and the handler returns normally with nothing further done;
    only what is not an [Exception] (task cancellation, interpreter exit)
    propagates.  When the collaborators raise instances of [Exception]
    only, the handler never raises. *)
Theorem on_message_catches_Exception (env : Env) (data : C2CMessage) (w : World) :
  match fst (_on_message env data w) with
  | Ok _ => True
  | Raise e => is_Exception e = false
  end
  /\ (forall e w1,
        _on_message_body env data w = (Raise e, w1) ->
        is_Exception e = true ->
        _on_message env data w
        = (Ok tt,
           {| chan := chan w1;
              trace := trace w1 ++ [ActLog ERROR ("Error handling QQ message: " +:+ exn_str e)];
              clock := clock w1;
              next_oid := next_oid w1 |}))
  /\ (raises_only_Exception env -> fst (_on_message env data w) = Ok tt).
Proof.
  split.
  { apply (try_except_lets_through (_on_message_body env data)).
    intros e. apply log_never_raises. }
  split.
  { intros e w1 Hbody He. unfold _on_message, try_except. rewrite Hbody, He. reflexivity. }
  intros Henv. pose proof (on_message_never_raises env Henv data w) as H.
  destruct (fst (_on_message env data w)) as [[] | e]; [reflexivity | contradiction].
Qed.

Lemma sample_env_raises_only_Exception : raises_only_Exception sample_env.
Proof.
  split.
  - intros t url e H. simpl in H. destruct (String.eqb url _); discriminate.
  - intros t msg e H. discriminate.
Qed.

Lemma on_message_catches_Exception_witness :
  _on_message sample_env (malformed_event "m1") (init_world sample_config)
  = (Ok tt,
     {| chan := chan (mark_seen (Some "m1") (init_world sample_config));
        trace := [ActLog ERROR "Error handling QQ message: object has no attribute 'author'"];
        clock := 0;
        next_oid := 1 |})
  /\ fst (_on_message sample_env (malformed_event "m1") (init_world sample_config)) = Ok tt.
Proof.
  destruct (on_message_catches_Exception sample_env (malformed_event "m1")
              (init_world sample_config)) as (_ & Hcaught & Hnever).
  split.
  - apply (Hcaught (AttributeError "object has no attribute 'author'")
             (mark_seen (Some "m1") (init_world sample_config))); reflexivity.
  - apply Hnever. exact sample_env_raises_only_Exception.
Defined.

(** ** Media *)

(** C7: [_download_media] returns no result, and does not raise, on a
    status other than 200 and on any [Exception] raised by the transport;
    it lets no [Exception] escape at all.  The loop over the attachments
    therefore runs to its end and collects exactly the paths of the fetches
    that succeeded, in attachment order; and when there is text or at
    least one such path, the canonical message is published with exactly
    these paths as its media. *)
Theorem media_fetch_degrades (env : Env) :
  (forall url w status body ct,
      http_get env (clock w) url = HttpResponse status body ct ->
      status <> 200%Z ->
      fst (_download_media env url w) = Ok None)
  /\ (forall url w e,
        http_get env (clock w) url = HttpRaise e ->
        is_Exception e = true ->
        fst (_download_media env url w) = Ok None)
  /\ (forall url w,
        match fst (_download_media env url w) with
        | Ok _ => True
        | Raise e => is_Exception e = false
        end)
  /\ ((forall t url e, http_get env t url = HttpRaise e -> is_Exception e = true) ->
      forall atts w, exists paths w', fetched env atts w paths w')
  /\ (forall atts w paths w',
        fetched env atts w paths w' ->
        fetch_attachments env atts [] w = (Ok paths, w'))
  /\ (forall data mid author c text md atts w paths w1,
        data_id data = Present mid ->
        deque_contains mid (ledger w) = false ->
        data_author data = Present author ->
        data_content data = Present c ->
        interpreted env mid c = Ok (text, md) ->
        data_attachments data = Present (Some atts) ->
        fetched env atts (mark_seen mid w) paths w1 ->
        text <> "" \/ paths <> [] ->
        bus_publish env (clock w1) (canonical_message author text md paths) = None ->
        fst (_on_message env data w) = Ok tt
        /\ published (snd (_on_message env data w))
           = published w ++ [canonical_message author text md paths]
        /\ media (canonical_message author text md paths) = paths).
Proof.
  split.
  { intros url w status body ct Hget Hne. rewrite (download_not_200 _ _ _ _ _ _ Hget Hne).
    reflexivity. }
  split.
  { intros url w e Hget He. rewrite (download_caught _ _ _ _ Hget He). reflexivity. }
  split; [intros url; apply download_lets_through |].
  split; [apply fetched_total |].
  split.
  { intros atts w paths w' Hf. apply (fetch_fetched _ _ _ _ _ Hf []). }
  intros data mid author c text md atts w paths w1 Hid Hnew Ha Hc Hint Hatts Hf Hsome Hbus.
  pose proof (collect_media_fetched _ _ _ _ _ _ Hatts Hf) as Hmedia.
  destruct (on_message_publishes _ _ _ _ _ _ _ _ _ _ Hid Hnew Ha Hc Hint Hmedia Hsome Hbus)
    as [Hok Hpub].
  split; [exact Hok |]. split; [exact Hpub | reflexivity].
Qed.

Lemma media_fetch_degrades_witness :
  fst (_download_media sample_env "https://cdn.example/missing.png" (init_world sample_config))
  = Ok None
  /\ published
       (snd (_on_message sample_env
               (image_event "m1" ["https://cdn.example/missing.png"; "https://cdn.example/a.png"])
               (init_world sample_config)))
     = [canonical_message sample_author "" {[ "message_id" := PStr "m1" ]} ["/tmp/tmp2.png"]].
Proof.
  destruct (media_fetch_degrades sample_env) as (Hstatus & _ & _ & _ & _ & Hpub).
  split.
  - apply (Hstatus _ _ 404%Z "" None); [reflexivity | discriminate].
  - destruct (Hpub (image_event "m1"
                      ["https://cdn.example/missing.png"; "https://cdn.example/a.png"])
                (Some "m1") sample_author (Some "") "" {[ "message_id" := PStr "m1" ]}
                [ {| att_url := Present (Some "https://cdn.example/missing.png") |};
                  {| att_url := Present (Some "https://cdn.example/a.png") |} ]
                (init_world sample_config) ["/tmp/tmp2.png"]
                (snd (fetch_attachments sample_env
                        [ {| att_url := Present (Some "https://cdn.example/missing.png") |};
                          {| att_url := Present (Some "https://cdn.example/a.png") |} ] []
                        (mark_seen (Some "m1") (init_world sample_config)))))
      as (_ & Hp & _).
    + reflexivity.
    + vm_compute. reflexivity.
    + reflexivity.
    + reflexivity.
    + reflexivity.
    + reflexivity.
    + eapply fetched_nothing; [reflexivity | vm_compute; reflexivity |].
      eapply fetched_path; [reflexivity | vm_compute; reflexivity |].
      apply fetched_nil.
    + right. discriminate.
    + reflexivity.
    + exact Hp.
Defined.

(** ** Empty messages *)

(** C8: for a first-seen, well-formed event whose content was
    interpreted and whose media have been collected, nothing is published
    when the forwarded content is empty and no media path was fetched;
    otherwise the canonical message is handed to the bus, and its content
    is ["[Image Message]"] when the text is empty but media are present,
    and the forwarded text otherwise. *)
Theorem empty_message_suppressed
  (env : Env) (data : C2CMessage) (mid : option string) (author : Author)
  (c : option string) (text : string) (md : gmap string pyval)
  (w : World) (paths : list string) (w1 : World) :
  data_id data = Present mid ->
  deque_contains mid (ledger w) = false ->
  data_author data = Present author ->
  data_content data = Present c ->
  interpreted env mid c = Ok (text, md) ->
  collect_media env data (mark_seen mid w) = (Ok paths, w1) ->
  (text = "" ->
   paths = [] ->
   _on_message env data w = (Ok tt, w1)
   /\ published (snd (_on_message env data w)) = published w)
  /\ (text <> "" \/ paths <> [] ->
      bus_publish env (clock w1) (canonical_message author text md paths) = None ->
      published (snd (_on_message env data w))
      = published w ++ [canonical_message author text md paths])
  /\ (text = "" ->
      content (canonical_message author text md paths) = "[Image Message]")
  /\ (text <> "" ->
      content (canonical_message author text md paths) = text).
Proof.
  intros Hid Hnew Ha Hc Hint Hmedia.
  split.
  { intros -> ->.
    destruct (on_message_new _ _ _ _ _ _ _ _ _ _ Hid Hnew Ha Hc Hint Hmedia) as [Hpub Hrun].
    simpl in Hrun. rewrite Hrun. split; [reflexivity | exact Hpub]. }
  split.
  { intros Hsome Hbus.
    apply (on_message_publishes _ _ _ _ _ _ _ _ _ _ Hid Hnew Ha Hc Hint Hmedia Hsome Hbus). }
  split.
  { intros ->. reflexivity. }
  intros Hsome. unfold canonical_message. simpl.
  destruct text; [contradiction | reflexivity].
Qed.

Lemma empty_message_suppressed_witness :
  published (snd (_on_message sample_env (text_event "m1" "   ") (init_world sample_config))) = []
  /\ published
       (snd (_on_message sample_env (image_event "m2" ["https://cdn.example/a.png"])
               (init_world sample_config)))
     = [canonical_message sample_author "" {[ "message_id" := PStr "m2" ]} ["/tmp/tmp1.png"]]
  /\ content (canonical_message sample_author "" {[ "message_id" := PStr "m2" ]}
                ["/tmp/tmp1.png"])
     = "[Image Message]".
Proof.
  split.
  { destruct (empty_message_suppressed sample_env (text_event "m1" "   ") (Some "m1")
                sample_author (Some "   ") "" {[ "message_id" := PStr "m1" ]}
                (init_world sample_config) []
                (mark_seen (Some "m1") (init_world sample_config))) as (H & _);
      [reflexivity | vm_compute; reflexivity | reflexivity | reflexivity | reflexivity
       | reflexivity |].
    destruct H as [_ Hpub]; [reflexivity | reflexivity |]. exact Hpub. }
  destruct (empty_message_suppressed sample_env
              (image_event "m2" ["https://cdn.example/a.png"]) (Some "m2")
              sample_author (Some "") "" {[ "message_id" := PStr "m2" ]}
              (init_world sample_config) ["/tmp/tmp1.png"]
              (snd (collect_media sample_env (image_event "m2" ["https://cdn.example/a.png"])
                      (mark_seen (Some "m2") (init_world sample_config)))))
    as (_ & Hpub & Hplace & _);
    [reflexivity | vm_compute; reflexivity | reflexivity | reflexivity | reflexivity
     | vm_compute; reflexivity |].
  split; [apply Hpub; [right; discriminate | reflexivity] |].
  apply Hplace. reflexivity.
Defined.

(** * Further properties of the channel *)

(** ** Readings of the trace under the primitive steps *)

Lemma readings_emit (a : action) (w : World) :
  let w' := snd (emit a w) in
  published w' = published w ++ match a with ActPublish m => [m] | _ => [] end
  /\ connection_attempts w'
     = connection_attempts w ++ match a with ActClientStart c _ _ => [c] | _ => [] end
  /\ clients_created w' = clients_created w ++ match a with ActNewClient c => [c] | _ => [] end
  /\ http_gets w' = http_gets w ++ match a with ActHttpGet u => [u] | _ => [] end
  /\ files_written w'
     = files_written w ++ match a with ActWriteTemp p b => [(p, b)] | _ => [] end
  /\ logged w' = logged w ++ match a with ActLog l m => [(l, m)] | _ => [] end
  /\ sleeps w' = sleeps w ++ match a with ActSleep n => [n] | _ => [] end
  /\ tasks_created w' = tasks_created w ++ match a with ActCreateTask t => [t] | _ => [] end.
Proof.
  unfold published, connection_attempts, clients_created, http_gets, files_written,
    logged, sleeps, tasks_created. simpl. rewrite ?omap_app.
  destruct a; simpl; repeat split; reflexivity.
Qed.

(** ** The session supervisor *)

Section SupervisorMore.

Variable env : Env.

(** The world [start] leaves when it goes through. *)
Lemma start_run w :
  QQ_AVAILABLE env = true ->
  PyStr.truthy (app_id (config (chan w))) = true ->
  PyStr.truthy (secret (config (chan w))) = true ->
  start env w
  = (Ok tt,
     {| chan := set_bot_task (Some (S (next_oid w)))
                  (set_client
                     (Some {| client_oid := next_oid w; client_channel := chan_oid (chan w) |})
                     (set_running true (chan w)));
        trace := trace w
                 ++ [ActNewClient {| client_oid := next_oid w;
                                     client_channel := chan_oid (chan w) |};
                     ActCreateTask (S (next_oid w));
                     ActLog INFO "QQ bot started (C2C private message)"];
        clock := clock w;
        next_oid := S (S (next_oid w)) |}).
Proof.
  intros Hsdk Hid Hsecret. unfold start. rewrite Hsdk. cbn [negb].
  unfold bind at 1. unfold get_chan at 1. cbv beta iota.
  rewrite Hid, Hsecret. cbn [negb orb].
  cbv beta iota zeta
    delta [bind modify_chan get_chan put_chan fresh_oid emit log _make_bot_class].
  cbn. rewrite <- !app_assoc. reflexivity.
Qed.

(** The world [start] leaves when it gives up. *)
Lemma start_gives_up w :
  QQ_AVAILABLE env = false
  \/ PyStr.truthy (app_id (config (chan w))) = false
  \/ PyStr.truthy (secret (config (chan w))) = false ->
  exists msg,
    start env w
    = (Ok tt, {| chan := chan w; trace := trace w ++ [ActLog ERROR msg];
                 clock := clock w; next_oid := next_oid w |}).
Proof.
  intros H. unfold start.
  destruct (QQ_AVAILABLE env); [| eexists; reflexivity].
  destruct H as [H | H]; [discriminate |]. simpl.
  unfold bind, get_chan.
  destruct H as [-> | ->]; simpl; rewrite ?orb_true_r; eexists; reflexivity.
Qed.

(** One connection attempt, whatever its outcome. *)
Lemma client_start_run w c :
  _client (chan w) = Some c ->
  _client_start env w
  = (match aw_raised (client_start env (clock w) c) with
     | Some e => Raise e
     | None => Ok tt
     end,
     {| chan := if aw_stop_called (client_start env (clock w) c)
                then set_running false (chan w) else chan w;
        trace := trace w
                 ++ [ActClientStart c (app_id (config (chan w))) (secret (config (chan w)))];
        clock := S (clock w);
        next_oid := next_oid w |}).
Proof.
  intros Hc. unfold _client_start, bind, get_chan. cbv beta iota. rewrite Hc.
  unfold tick, emit, await_, bind, modify_chan, get_chan, put_chan, raise, ret.
  cbv beta iota.
  destruct (client_start env (clock w) c) as [[e |] [|]]; reflexivity.
Qed.

(** The loop does nothing on a channel that is not running. *)
Lemma run_bot_not_running fuel w :
  _running (chan w) = false ->
  _run_bot env (S fuel) w = (Ok true, w).
Proof.
  intros Hrun. simpl. unfold bind, get_chan. cbv beta iota. rewrite Hrun. reflexivity.
Qed.

(** One iteration that fails quietly: an attempt, a delay of five
    seconds, and the loop goes on with the channel as it was. *)
Lemma run_bot_retry fuel w c :
  _running (chan w) = true ->
  _client (chan w) = Some c ->
  attempt_fails_quietly (client_start env (clock w) c) ->
  sleep_outcome env (S (clock w)) = no_interrupt ->
  exists w1,
    _run_bot env (S fuel) w = _run_bot env fuel w1
    /\ chan w1 = chan w
    /\ clock w1 = S (S (clock w))
    /\ connection_attempts w1 = connection_attempts w ++ [c]
    /\ sleeps w1 = sleeps w ++ [5]
    /\ clients_created w1 = clients_created w.
Proof.
  intros Hrun Hc [Hstop Hexn] Hsleep.
  cbn [_run_bot]. unfold bind at 1. unfold get_chan at 1. cbv beta iota. rewrite Hrun.
  unfold bind at 1. unfold try_except. rewrite (client_start_run w c Hc), Hstop.
  destruct (aw_raised (client_start env (clock w) c)) as [e |] eqn:Hraised.
  - rewrite (Hexn e eq_refl).
    unfold log, emit, bind, get_chan, tick. cbv beta iota. cbn [chan clock trace next_oid].
    rewrite Hrun. cbn [clock]. rewrite Hsleep.
    unfold await_, no_interrupt, bind, ret. cbv beta iota. cbn [aw_stop_called aw_raised].
    eexists. split; [reflexivity |]. cbn [chan clock].
    unfold connection_attempts, sleeps, clients_created. cbn [trace].
    rewrite ?omap_app. simpl. rewrite ?app_nil_r. repeat split; reflexivity.
  - unfold log, emit, bind, get_chan, tick. cbv beta iota. cbn [chan clock trace next_oid].
    rewrite Hrun. cbn [clock]. rewrite Hsleep.
    unfold await_, no_interrupt, bind, ret. cbv beta iota. cbn [aw_stop_called aw_raised].
    eexists. split; [reflexivity |]. cbn [chan clock].
    unfold connection_attempts, sleeps, clients_created. cbn [trace].
    rewrite ?omap_app. simpl. rewrite ?app_nil_r. repeat split; reflexivity.
Qed.

End SupervisorMore.

(** X1: [start] never raises, never connects by itself and leaves the
    deque of processed ids and the bus alone.  It activates the channel
    (running flag, one new client bound to the channel, one new task)
    exactly when the SDK is installed and both credentials are non-empty;
    otherwise it logs one error and changes nothing else. *)
Theorem start_activates_iff_configured (env : Env) (w : World) :
  fst (start env w) = Ok tt
  /\ ledger (snd (start env w)) = ledger w
  /\ connection_attempts (snd (start env w)) = connection_attempts w
  /\ published (snd (start env w)) = published w
  /\ (can_start env w = true ->
      _running (chan (snd (start env w))) = true
      /\ (exists c, _client (chan (snd (start env w))) = Some c
                    /\ client_channel c = chan_oid (chan w)
                    /\ clients_created (snd (start env w)) = clients_created w ++ [c])
      /\ (exists t, _bot_task (chan (snd (start env w))) = Some t
                    /\ tasks_created (snd (start env w)) = tasks_created w ++ [t])
      /\ Forall (fun entry => fst entry = INFO)
           (drop (length (logged w)) (logged (snd (start env w)))))
  /\ (can_start env w = false ->
      chan (snd (start env w)) = chan w
      /\ clients_created (snd (start env w)) = clients_created w
      /\ tasks_created (snd (start env w)) = tasks_created w
      /\ exists msg, logged (snd (start env w)) = logged w ++ [(ERROR, msg)]).
Proof.
  unfold can_start.
  destruct (QQ_AVAILABLE env) eqn:Hsdk;
    [destruct (PyStr.truthy (app_id (config (chan w)))) eqn:Hid;
     [destruct (PyStr.truthy (secret (config (chan w)))) eqn:Hsecret |] |].
  - rewrite (start_run env w Hsdk Hid Hsecret). cbn [fst snd chan].
    unfold ledger, connection_attempts, published, clients_created, tasks_created, logged.
    cbn [chan trace]. rewrite ?omap_app. simpl. rewrite ?app_nil_r.
    repeat split; try reflexivity; try discriminate.
    + eexists. repeat split; reflexivity.
    + eexists. repeat split; reflexivity.
    + rewrite drop_app_length. repeat constructor.
  - destruct (start_gives_up env w) as [msg ->]; [right; right; exact Hsecret |].
    cbn [fst snd chan]. unfold ledger, connection_attempts, published, clients_created,
      tasks_created, logged. cbn [chan trace]. rewrite ?omap_app. simpl. rewrite ?app_nil_r.
    repeat split; try reflexivity; try discriminate. exists msg. reflexivity.
  - destruct (start_gives_up env w) as [msg ->]; [right; left; exact Hid |].
    cbn [fst snd chan]. unfold ledger, connection_attempts, published, clients_created,
      tasks_created, logged. cbn [chan trace]. rewrite ?omap_app. simpl. rewrite ?app_nil_r.
    repeat split; try reflexivity; try discriminate. exists msg. reflexivity.
  - destruct (start_gives_up env w) as [msg ->]; [left; exact Hsdk |].
    cbn [fst snd chan]. unfold ledger, connection_attempts, published, clients_created,
      tasks_created, logged. cbn [chan trace]. rewrite ?omap_app. simpl. rewrite ?app_nil_r.
    repeat split; try reflexivity; try discriminate. exists msg. reflexivity.
Qed.

Lemma start_activates_iff_configured_witness :
  _running (chan (snd (start sample_env (init_world sample_config)))) = true
  /\ chan (snd (start sample_env (init_world {| app_id := Some ""; secret := Some "s" |})))
     = chan (init_world {| app_id := Some ""; secret := Some "s" |}).
Proof.
  split.
  - destruct (start_activates_iff_configured sample_env (init_world sample_config))
      as (_ & _ & _ & _ & H & _).
    destruct H as [Hrun _]; [reflexivity | exact Hrun].
  - destruct (start_activates_iff_configured sample_env
                (init_world {| app_id := Some ""; secret := Some "s" |}))
      as (_ & _ & _ & _ & _ & H).
    destruct H as [Hchan _]; [reflexivity | exact Hchan].
Defined.

(** X2: [start] has no guard against a channel that is already started: a
    second call creates a second client and a second loop task and
    overwrites both handles, and the first task is left as it is. *)
Theorem start_twice_creates_two_tasks (env : Env) (w : World) :
  can_start env w = true ->
  clients_created (snd (start env (snd (start env w))))
    = clients_created w
        ++ [ {| client_oid := next_oid w; client_channel := chan_oid (chan w) |};
             {| client_oid := S (S (next_oid w)); client_channel := chan_oid (chan w) |} ]
  /\ tasks_created (snd (start env (snd (start env w))))
     = tasks_created w ++ [S (next_oid w); S (S (S (next_oid w)))]
  /\ _client (chan (snd (start env (snd (start env w)))))
     = Some {| client_oid := S (S (next_oid w)); client_channel := chan_oid (chan w) |}
  /\ _bot_task (chan (snd (start env (snd (start env w))))) = Some (S (S (S (next_oid w)))).
Proof.
  unfold can_start. intros H.
  apply andb_true_iff in H as [H Hsecret]. apply andb_true_iff in H as [Hsdk Hid].
  rewrite (start_run env w Hsdk Hid Hsecret). cbn [snd].
  rewrite start_run; [| exact Hsdk | exact Hid | exact Hsecret].
  cbn [snd chan]. unfold clients_created, tasks_created. cbn [trace chan next_oid].
  rewrite ?omap_app. simpl. rewrite ?app_nil_r, <- !app_assoc.
  repeat split; reflexivity.
Qed.

Lemma start_twice_creates_two_tasks_witness :
  tasks_created (snd (start sample_env (snd (start sample_env (init_world sample_config)))))
  = [2; 4].
Proof.
  apply (start_twice_creates_two_tasks sample_env (init_world sample_config)). reflexivity.
Defined.

(** X3: while nobody stops the channel, the loop retries for ever with a
    fixed delay: if every connection attempt returns or fails with an
    [Exception], [n] rounds of the loop make [n] attempts with the
    channel's client, sleep five seconds after each, create no client and
    leave the loop running. *)
Theorem run_bot_retries_with_fixed_delay (env : Env) (c : Client) (n : nat) (w : World) :
  _running (chan w) = true ->
  _client (chan w) = Some c ->
  (forall t, attempt_fails_quietly (client_start env t c)) ->
  (forall t, sleep_outcome env t = no_interrupt) ->
  fst (_run_bot env n w) = Ok false
  /\ chan (snd (_run_bot env n w)) = chan w
  /\ connection_attempts (snd (_run_bot env n w)) = connection_attempts w ++ replicate n c
  /\ sleeps (snd (_run_bot env n w)) = sleeps w ++ replicate n 5
  /\ clients_created (snd (_run_bot env n w)) = clients_created w.
Proof.
  intros Hrun Hc Hattempt Hsleep. revert w Hrun Hc.
  induction n as [| n IH]; intros w Hrun Hc.
  - simpl. rewrite ?app_nil_r. repeat split; reflexivity.
  - destruct (run_bot_retry env n w c Hrun Hc (Hattempt _) (Hsleep _))
      as (w1 & -> & Hchan & _ & Ha & Hs & Hn).
    destruct (IH w1) as (Hres & Hchan' & Ha' & Hs' & Hn');
      [rewrite Hchan; exact Hrun | rewrite Hchan; exact Hc |].
    split; [exact Hres |].
    split; [rewrite Hchan', Hchan; reflexivity |].
    split; [rewrite Ha', Ha, <- app_assoc; reflexivity |].
    split; [rewrite Hs', Hs, <- app_assoc; reflexivity |].
    rewrite Hn', Hn. reflexivity.
Qed.

Lemma run_bot_retries_with_fixed_delay_witness :
  sleeps (snd (_run_bot sample_env 3 (snd (start sample_env (init_world sample_config)))))
  = [5; 5; 5]
  /\ fst (_run_bot sample_env 3 (snd (start sample_env (init_world sample_config)))) = Ok false.
Proof.
  destruct (run_bot_retries_with_fixed_delay sample_env
              {| client_oid := 1; client_channel := 0 |} 3
              (snd (start sample_env (init_world sample_config))))
    as (Hres & _ & _ & Hs & _).
  - reflexivity.
  - reflexivity.
  - intros t. split; [reflexivity |]. intros e He. injection He as <-. reflexivity.
  - intros t. reflexivity.
  - split; [exact Hs | exact Hres].
Defined.

(** X4: when [stop()] runs during a connection attempt and the attempt
    then returns or fails with an [Exception], the loop ends after that
    attempt: it does not sleep and does not connect again. *)
Theorem run_bot_stops_after_stop (env : Env) (c : Client) (fuel : nat) (w : World) :
  _running (chan w) = true ->
  _client (chan w) = Some c ->
  aw_stop_called (client_start env (clock w) c) = true ->
  (forall e, aw_raised (client_start env (clock w) c) = Some e -> is_Exception e = true) ->
  fst (_run_bot env (S (S fuel)) w) = Ok true
  /\ _running (chan (snd (_run_bot env (S (S fuel)) w))) = false
  /\ connection_attempts (snd (_run_bot env (S (S fuel)) w)) = connection_attempts w ++ [c]
  /\ sleeps (snd (_run_bot env (S (S fuel)) w)) = sleeps w.
Proof.
  intros Hrun Hc Hstop Hexn.
  assert (H : exists w1,
             _run_bot env (S (S fuel)) w = (Ok true, w1)
             /\ _running (chan w1) = false
             /\ connection_attempts w1 = connection_attempts w ++ [c]
             /\ sleeps w1 = sleeps w).
  { cbn [_run_bot]. unfold bind at 1. unfold get_chan at 1. cbv beta iota. rewrite Hrun.
    unfold bind at 1. unfold try_except. rewrite (client_start_run env w c Hc), Hstop.
    destruct (aw_raised (client_start env (clock w) c)) as [e |] eqn:Hraised.
    - rewrite (Hexn e eq_refl).
      unfold log, emit, bind, get_chan, ret. cbv beta iota. cbn [chan _running set_running].
      eexists. split; [reflexivity |]. cbn [chan _running set_running].
      unfold connection_attempts, sleeps. cbn [trace]. rewrite ?omap_app. simpl.
      rewrite ?app_nil_r. repeat split; reflexivity.
    - unfold log, emit, bind, get_chan, ret. cbv beta iota. cbn [chan _running set_running].
      eexists. split; [reflexivity |]. cbn [chan _running set_running].
      unfold connection_attempts, sleeps. cbn [trace]. rewrite ?omap_app. simpl.
      rewrite ?app_nil_r. repeat split; reflexivity. }
  destruct H as (w1 & -> & H1 & H2 & H3). repeat split; assumption.
Qed.

Lemma run_bot_stops_after_stop_witness :
  fst (_run_bot closing_env 5 (snd (start closing_env (init_world sample_config)))) = Ok true
  /\ sleeps (snd (_run_bot closing_env 5 (snd (start closing_env (init_world sample_config)))))
     = [].
Proof.
  destruct (run_bot_stops_after_stop closing_env {| client_oid := 1; client_channel := 0 |} 3
              (snd (start closing_env (init_world sample_config))))
    as (Hres & _ & _ & Hs).
  - reflexivity.
  - reflexivity.
  - reflexivity.
  - intros e He. injection He as <-. reflexivity.
  - split; [exact Hres | exact Hs].
Defined.

(** X5: the loop catches [Exception] only: a connection attempt that
    raises anything else (the cancellation of the loop task) ends the loop
    with that exception, without a warning, a delay or another attempt. *)
Theorem run_bot_propagates_cancellation
  (env : Env) (c : Client) (e : exn) (fuel : nat) (w : World) :
  _running (chan w) = true ->
  _client (chan w) = Some c ->
  aw_raised (client_start env (clock w) c) = Some e ->
  is_Exception e = false ->
  fst (_run_bot env (S fuel) w) = Raise e
  /\ connection_attempts (snd (_run_bot env (S fuel) w)) = connection_attempts w ++ [c]
  /\ sleeps (snd (_run_bot env (S fuel) w)) = sleeps w
  /\ logged (snd (_run_bot env (S fuel) w)) = logged w.
Proof.
  intros Hrun Hc Hraised He.
  assert (H : exists w1,
             _run_bot env (S fuel) w = (Raise e, w1)
             /\ connection_attempts w1 = connection_attempts w ++ [c]
             /\ sleeps w1 = sleeps w
             /\ logged w1 = logged w).
  { cbn [_run_bot]. unfold bind at 1. unfold get_chan at 1. cbv beta iota. rewrite Hrun.
    unfold bind at 1. unfold try_except. rewrite (client_start_run env w c Hc), Hraised, He.
    eexists. split; [reflexivity |].
    unfold connection_attempts, sleeps, logged. cbn [trace]. rewrite ?omap_app. simpl.
    rewrite ?app_nil_r. repeat split; reflexivity. }
  destruct H as (w1 & -> & H1 & H2 & H3). repeat split; assumption.
Qed.

Lemma run_bot_propagates_cancellation_witness :
  fst (_run_bot stopping_env 4 (snd (start stopping_env (init_world sample_config))))
  = Raise CancelledError.
Proof.
  apply (run_bot_propagates_cancellation stopping_env
           {| client_oid := 1; client_channel := 0 |} CancelledError 3
           (snd (start stopping_env (init_world sample_config))));
    reflexivity.
Defined.

(** ** Shutdown and the outbound side *)

(** The world after the first step of [stop]. *)
Lemma stop_world (join_result : option exn) (s : Platform) :
  chan (pf_world (snd (stop join_result s))) = set_running false (chan (pf_world s))
  /\ pf_posts (snd (stop join_result s)) = pf_posts s
  /\ pf_cancelled (snd (stop join_result s))
     = pf_cancelled s ++ match _bot_task (chan (pf_world s)) with
                         | Some task => [task]
                         | None => []
                         end
  /\ published (pf_world (snd (stop join_result s))) = published (pf_world s)
  /\ connection_attempts (pf_world (snd (stop join_result s)))
     = connection_attempts (pf_world s).
Proof.
  unfold stop, lift_world. cbn [snd pf_world chan].
  unfold modify_chan, bind, get_chan, put_chan. cbn [snd chan _bot_task set_running].
  destruct (_bot_task (chan (pf_world s))) as [task |].
  - destruct join_result as [[] |]; cbn [snd fst pf_world pf_posts pf_cancelled chan];
      unfold published, connection_attempts, log, emit; cbn [snd trace chan];
      rewrite ?omap_app; simpl; rewrite ?app_nil_r; repeat split; reflexivity.
  - cbn [snd fst pf_world pf_posts pf_cancelled chan].
    unfold published, connection_attempts, log, emit. cbn [snd trace chan].
    rewrite ?omap_app. simpl. rewrite ?app_nil_r. repeat split; reflexivity.
Qed.

(** X6: [stop] clears the running flag and cancels the loop task if there
    is one, and touches nothing else: the client, the task handle, the
    deque, the posts and the bus stay as they are.  It swallows a
    [CancelledError] from the cancelled task and logs that the bot
    stopped; any other exception the task ended with propagates. *)
Theorem stop_clears_running_only (join_result : option exn) (s : Platform) :
  (_running (chan (pf_world (snd (stop join_result s)))) = false
   /\ _client (chan (pf_world (snd (stop join_result s)))) = _client (chan (pf_world s))
   /\ _bot_task (chan (pf_world (snd (stop join_result s)))) = _bot_task (chan (pf_world s))
   /\ ledger (pf_world (snd (stop join_result s))) = ledger (pf_world s)
   /\ pf_posts (snd (stop join_result s)) = pf_posts s
   /\ published (pf_world (snd (stop join_result s))) = published (pf_world s))
  /\ (forall task,
        _bot_task (chan (pf_world s)) = Some task ->
        pf_cancelled (snd (stop join_result s)) = pf_cancelled s ++ [task])
  /\ (_bot_task (chan (pf_world s)) = None ->
      pf_cancelled (snd (stop join_result s)) = pf_cancelled s
      /\ fst (stop join_result s) = Ok tt)
  /\ (join_result = None \/ join_result = Some CancelledError ->
      fst (stop join_result s) = Ok tt
      /\ logged (pf_world (snd (stop join_result s)))
         = logged (pf_world s) ++ [(INFO, "QQ bot stopped")])
  /\ (forall task e,
        _bot_task (chan (pf_world s)) = Some task ->
        join_result = Some e ->
        e <> CancelledError ->
        fst (stop join_result s) = Raise e
        /\ logged (pf_world (snd (stop join_result s))) = logged (pf_world s)).
Proof.
  destruct (stop_world join_result s) as (Hchan & Hposts & Hcancel & Hpub & _).
  split.
  { unfold ledger. rewrite Hchan. repeat split; try reflexivity; assumption. }
  split; [intros task Htask; rewrite Hcancel, Htask; reflexivity |].
  split.
  { intros Htask. rewrite Hcancel, Htask, app_nil_r. split; [reflexivity |].
    unfold stop, lift_world. cbn [snd pf_world chan].
    unfold modify_chan, bind, get_chan, put_chan. cbn [snd chan _bot_task set_running].
    rewrite Htask. reflexivity. }
  split.
  { intros Hjoin. unfold stop, lift_world. cbn [snd pf_world chan].
    unfold modify_chan, bind, get_chan, put_chan. cbn [snd chan _bot_task set_running].
    destruct (_bot_task (chan (pf_world s))) as [task |];
      destruct Hjoin as [-> | ->]; cbn [fst snd pf_world];
      unfold logged, log, emit; cbn [fst snd trace]; rewrite ?omap_app; simpl;
      split; reflexivity. }
  intros task e Htask -> Hne. unfold stop, lift_world. cbn [snd pf_world chan].
  unfold modify_chan, bind, get_chan, put_chan. cbn [snd chan _bot_task set_running].
  rewrite Htask. destruct e; try contradiction; split; reflexivity.
Qed.

Lemma stop_clears_running_only_witness :
  pf_cancelled
    (snd (stop (Some CancelledError)
            (snd (lift_world (start sample_env) (init_platform sample_config)))))
  = [2]
  /\ fst (stop (Some CancelledError)
            (snd (lift_world (start sample_env) (init_platform sample_config))))
     = Ok tt.
Proof.
  destruct (stop_clears_running_only (Some CancelledError)
              (snd (lift_world (start sample_env) (init_platform sample_config))))
    as (_ & Hcancel & _ & Hok & _).
  split.
  - apply (Hcancel 2). reflexivity.
  - destruct Hok as [Hok _]; [right; reflexivity | exact Hok].
Defined.

(** X7: once [stop] has run, the loop makes no further connection attempt:
    its next check of the running flag ends it with the world unchanged,
    whatever the environment. *)
Theorem loop_ends_after_stop
  (env : Env) (join_result : option exn) (s : Platform) (fuel : nat) :
  _run_bot env (S fuel) (pf_world (snd (stop join_result s)))
  = (Ok true, pf_world (snd (stop join_result s))).
Proof.
  apply run_bot_not_running.
  destruct (stop_world join_result s) as (-> & _). reflexivity.
Qed.

(** X8: [send] posts at most once and never retries.  Without a client it
    posts nothing and logs a warning.  With a client it makes exactly one
    call, to the chat id of the message, with message type 0 and the
    message's content; an [Exception] from that call is logged and
    swallowed, anything else propagates.  In every case the channel, the
    bus and the loop task are left alone. *)
Theorem send_posts_once (post_result : option exn) (msg : OutboundMessage) (s : Platform) :
  (chan (pf_world (snd (send post_result msg s))) = chan (pf_world s)
   /\ published (pf_world (snd (send post_result msg s))) = published (pf_world s)
   /\ pf_cancelled (snd (send post_result msg s)) = pf_cancelled s)
  /\ (_client (chan (pf_world s)) = None ->
      fst (send post_result msg s) = Ok tt
      /\ pf_posts (snd (send post_result msg s)) = pf_posts s
      /\ logged (pf_world (snd (send post_result msg s)))
         = logged (pf_world s) ++ [(WARNING, "QQ client not initialized")])
  /\ (forall c,
        _client (chan (pf_world s)) = Some c ->
        pf_posts (snd (send post_result msg s))
        = pf_posts s ++ [ {| post_client := c; post_openid := out_chat_id msg;
                             post_msg_type := 0; post_content := out_content msg |} ]
        /\ (post_result = None ->
            fst (send post_result msg s) = Ok tt
            /\ logged (pf_world (snd (send post_result msg s))) = logged (pf_world s))
        /\ (forall e, post_result = Some e -> is_Exception e = true ->
              fst (send post_result msg s) = Ok tt
              /\ logged (pf_world (snd (send post_result msg s)))
                 = logged (pf_world s)
                     ++ [(ERROR, "Error sending QQ message: " +:+ exn_str e)])
        /\ (forall e, post_result = Some e -> is_Exception e = false ->
              fst (send post_result msg s) = Raise e
              /\ logged (pf_world (snd (send post_result msg s))) = logged (pf_world s))).
Proof.
  unfold send, lift_world.
  destruct (_client (chan (pf_world s))) as [c |] eqn:Hc.
  - split.
    { destruct post_result as [e |]; [destruct (is_Exception e) |];
        cbn [fst snd pf_world pf_cancelled chan]; unfold published, log, emit;
        cbn [snd trace chan]; rewrite ?omap_app; simpl; rewrite ?app_nil_r;
        repeat split; reflexivity. }
    split; [discriminate |].
    intros c' Hc'. injection Hc' as <-.
    split.
    { destruct post_result as [e |]; [destruct (is_Exception e) |]; reflexivity. }
    split; [intros ->; split; reflexivity |].
    split.
    + intros e -> He. rewrite He. cbn [fst snd pf_world].
      unfold logged, log, emit. cbn [fst snd trace]. rewrite omap_app. split; reflexivity.
    + intros e -> He. rewrite He. split; reflexivity.
  - split.
    { cbn [fst snd pf_world pf_cancelled chan]. unfold published, log, emit.
      cbn [snd trace chan]. rewrite ?omap_app. simpl. rewrite ?app_nil_r.
      repeat split; reflexivity. }
    split; [| discriminate].
    intros _. cbn [fst snd pf_world pf_posts].
    unfold logged, log, emit. cbn [fst snd trace]. rewrite omap_app.
    repeat split; reflexivity.
Qed.

Lemma send_posts_once_witness :
  pf_posts
    (snd (send (Some (RuntimeException "timeout"))
            {| out_chat_id := "E4F4AEA3"; out_content := "hello" |}
            (snd (lift_world (start sample_env) (init_platform sample_config)))))
  = [ {| post_client := {| client_oid := 1; client_channel := 0 |};
         post_openid := "E4F4AEA3"; post_msg_type := 0; post_content := "hello" |} ]
  /\ fst (send None {| out_chat_id := "E4F4AEA3"; out_content := "hello" |}
            (init_platform sample_config))
     = Ok tt.
Proof.
  split.
  - destruct (send_posts_once (Some (RuntimeException "timeout"))
                {| out_chat_id := "E4F4AEA3"; out_content := "hello" |}
                (snd (lift_world (start sample_env) (init_platform sample_config))))
      as (_ & _ & H).
    destruct (H {| client_oid := 1; client_channel := 0 |}) as [Hposts _];
      [reflexivity | exact Hposts].
  - destruct (send_posts_once None {| out_chat_id := "E4F4AEA3"; out_content := "hello" |}
                (init_platform sample_config)) as (_ & H & _).
    destruct H as [Hok _]; [reflexivity | exact Hok].
Defined.

Lemma send_posts (post_result : option exn) (msg : OutboundMessage) (c : Client)
  (s : Platform) :
  _client (chan (pf_world s)) = Some c ->
  pf_posts (snd (send post_result msg s))
  = pf_posts s ++ [ {| post_client := c; post_openid := out_chat_id msg;
                       post_msg_type := 0; post_content := out_content msg |} ].
Proof.
  intros Hc. unfold send, lift_world. rewrite Hc.
  destruct post_result as [e |]; [destruct (is_Exception e) |]; reflexivity.
Qed.

(** X9: [stop] does not release the client, so a message sent after
    [stop] still goes out through the client that [start] created. *)
Theorem send_after_stop_still_posts
  (join_result post_result : option exn) (msg : OutboundMessage) (c : Client)
  (s : Platform) :
  _client (chan (pf_world s)) = Some c ->
  pf_posts (snd (send post_result msg (snd (stop join_result s))))
  = pf_posts s ++ [ {| post_client := c; post_openid := out_chat_id msg;
                       post_msg_type := 0; post_content := out_content msg |} ].
Proof.
  intros Hc.
  destruct (stop_world join_result s) as (Hchan & Hposts & _).
  rewrite (send_posts post_result msg c); [| rewrite Hchan; exact Hc].
  rewrite Hposts. reflexivity.
Qed.

Lemma send_after_stop_still_posts_witness :
  pf_posts
    (snd (send None {| out_chat_id := "E4F4AEA3"; out_content := "bye" |}
            (snd (stop (Some CancelledError)
                    (snd (lift_world (start sample_env) (init_platform sample_config)))))))
  = [ {| post_client := {| client_oid := 1; client_channel := 0 |};
         post_openid := "E4F4AEA3"; post_msg_type := 0; post_content := "bye" |} ].
Proof.
  apply (send_after_stop_still_posts (Some CancelledError) None
           {| out_chat_id := "E4F4AEA3"; out_content := "bye" |}
           {| client_oid := 1; client_channel := 0 |}
           (snd (lift_world (start sample_env) (init_platform sample_config)))).
  reflexivity.
Defined.

(** ** Command interpretation: the metadata and the forwarded text *)

Section Interpreter.

Variable ud : string -> PyStr.digit_class.

Lemma parse_command_metadata_cases mid raw text md :
  parse_command ud mid raw = Ok (text, md) ->
  md = {[ "message_id" := of_pystr mid ]}
  \/ (md = <[ "reset_session" := PBool true ]> {[ "message_id" := of_pystr mid ]}
      /\ text = reset_marker)
  \/ exists arg n,
       PyStr.isdigit ud arg = true
       /\ PyStr.int ud arg = PyStr.IntValue n
       /\ md = <[ "memory_window" := PInt n ]> {[ "message_id" := of_pystr mid ]}.
Proof.
  unfold parse_command.
  destruct (PyStr.startswith "/" raw); [| intros [= <- <-]; left; reflexivity].
  destruct (String.eqb _ "/reset"); [intros [= <- <-]; right; left; split; reflexivity |].
  destruct (String.eqb _ "/context"); [| intros [= <- <-]; left; reflexivity].
  destruct (2 <=? length (PyStr.split " " 2 raw))%nat; [| intros [= <- <-]; left; reflexivity].
  destruct (PyStr.isdigit ud (nth 1 (PyStr.split " " 2 raw) "")) eqn:Hd;
    [| intros [= <- <-]; left; reflexivity].
  cbn [andb].
  destruct (PyStr.int ud (nth 1 (PyStr.split " " 2 raw) "")) as [n | digits |] eqn:Hint;
    [| discriminate | discriminate].
  intros [= <- <-]. right; right. exists (nth 1 (PyStr.split " " 2 raw) ""), n.
  split; [exact Hd |]. split; [exact Hint | reflexivity].
Qed.

Lemma parse_command_message_id mid raw text md :
  parse_command ud mid raw = Ok (text, md) ->
  md !! "message_id" = Some (of_pystr mid).
Proof.
  intros H.
  destruct (parse_command_metadata_cases mid raw text md H)
    as [-> | [[-> _] | (arg & n & _ & _ & ->)]].
  - apply lookup_singleton_eq.
  - rewrite lookup_insert_ne by discriminate. apply lookup_singleton_eq.
  - rewrite lookup_insert_ne by discriminate. apply lookup_singleton_eq.
Qed.

(** What the interpreter raises is the [ValueError] of [int]. *)
Lemma parse_command_raises_ValueError mid raw e :
  parse_command ud mid raw = Raise e ->
  (exists msg, e = ValueError msg)
  /\ exists cmd arg rest,
       PyStr.split " " 2 raw = cmd :: arg :: rest
       /\ PyStr.lower cmd = "/context"
       /\ PyStr.isdigit ud arg = true
       /\ forall n, PyStr.int ud arg <> PyStr.IntValue n.
Proof.
  unfold parse_command.
  destruct (PyStr.startswith "/" raw); [| discriminate].
  destruct (String.eqb _ "/reset"); [discriminate |].
  destruct (String.eqb_spec (PyStr.lower (nth 0 (PyStr.split " " 2 raw) "")) "/context")
    as [Hcmd |]; [| discriminate].
  destruct (PyStr.split " " 2 raw) as [| cmd [| arg rest]]; [discriminate | discriminate |].
  cbn [length Nat.leb andb nth] in *.
  destruct (PyStr.isdigit ud arg) eqn:Hd; [| discriminate].
  destruct (PyStr.int ud arg) as [n | digits |] eqn:Hint; [discriminate | |];
    intros [= <-]; (split; [eexists; reflexivity |]);
    exists cmd, arg, rest; repeat split; try assumption; try reflexivity;
    intros n; rewrite Hint; discriminate.
Qed.

Lemma of_pystr_inj mid mid' : of_pystr mid = of_pystr mid' -> mid = mid'.
Proof. destruct mid, mid'; simpl; intros H; congruence. Qed.

Lemma ends_with_space_rstrip s : ends_with_space (PyStr.rstrip s) = false.
Proof.
  induction s as [| c s IH]; [reflexivity |]. cbn [PyStr.rstrip]. cbv zeta.
  destruct (PyStr.is_space_char (String c (PyStr.rstrip s))) eqn:Hc; [reflexivity |].
  destruct (PyStr.rstrip s) as [| c' r]; [exact Hc | exact IH].
Qed.

Lemma ends_with_space_strip s : ends_with_space (PyStr.strip s) = false.
Proof. apply ends_with_space_rstrip. Qed.

Lemma ends_with_space_append a b :
  b <> "" -> ends_with_space (a +:+ b) = ends_with_space b.
Proof.
  intros Hb. induction a as [| c a IH]; [reflexivity |].
  simpl. destruct (a +:+ b) as [| c' r] eqn:Hab; [| exact IH].
  destruct a; simpl in Hab; [contradiction | discriminate].
Qed.

(** A third part that is empty means the text ended with the space
    before it. *)
Lemma split_third_part_nonempty raw a b c :
  ends_with_space raw = false ->
  PyStr.split " " 2 raw = [a; b; c] ->
  c <> "".
Proof.
  intros Hend Hsplit ->.
  pose proof (split_join " " 2 raw) as Hjoin. rewrite Hsplit in Hjoin.
  change (join " " [a; b; ""]) with (a +:+ " " +:+ b +:+ " " +:+ "") in Hjoin.
  rewrite <- Hjoin in Hend.
  rewrite (ends_with_space_append a) in Hend by (simpl; discriminate).
  rewrite (ends_with_space_append " ") in Hend by (destruct b; simpl; discriminate).
  rewrite (ends_with_space_append b) in Hend by (simpl; discriminate).
  discriminate.
Qed.

Lemma startswith_slash_nonempty raw : PyStr.startswith "/" raw = true -> raw <> "".
Proof. intros H ->. discriminate. Qed.

Lemma parse_command_content_empty mid raw text md :
  ends_with_space raw = false ->
  parse_command ud mid raw = Ok (text, md) ->
  text = "" <-> raw = "".
Proof.
  intros Hend. unfold parse_command.
  destruct (PyStr.startswith "/" raw) eqn:Hslash; [| intros [= <- <-]; reflexivity].
  pose proof (startswith_slash_nonempty raw Hslash) as Hne.
  pose proof (split_length " " 2 raw) as Hbound.
  remember (PyStr.split " " 2 raw) as parts eqn:Hsplit.
  destruct (String.eqb _ "/reset");
    [intros [= <- <-]; split; [discriminate | contradiction] |].
  destruct (String.eqb _ "/context"); [| intros [= <- <-]; reflexivity].
  destruct (2 <=? length parts)%nat eqn:Hlen; [| intros [= <- <-]; reflexivity].
  destruct (PyStr.isdigit ud (nth 1 parts "")); [| intros [= <- <-]; reflexivity].
  cbn [andb].
  destruct (PyStr.int ud (nth 1 parts "")) as [n | digits |]; [| discriminate | discriminate].
  destruct (2 <? length parts)%nat eqn:Hlen3; intros [= <- <-].
  - apply Nat.ltb_lt in Hlen3.
    destruct parts as [| a [| b [| c [| d rest]]]]; simpl in Hlen3, Hbound; try lia.
    cbn [nth]. split; [| contradiction].
    intros Hc. exfalso.
    exact (split_third_part_nonempty raw a b c Hend (eq_sym Hsplit) Hc).
  - split; [discriminate | contradiction].
Qed.

End Interpreter.

(** X10: the metadata of a message always carries the original message id
    and never anything but the three keys [message_id], [reset_session]
    and [memory_window]; the two directives exclude each other; the reset
    flag is [True] and comes with the reset marker as content; the memory
    window is a natural number.  When the interpreter builds no metadata
    it has raised the [ValueError] of [int], on a ["/context"] whose
    second part passed [isdigit]. *)
Theorem metadata_shape (ud : string -> PyStr.digit_class) (mid : option string) (raw : string) :
  (forall text md,
      parse_command ud mid raw = Ok (text, md) ->
      md !! "message_id" = Some (of_pystr mid)
      /\ (md !! "reset_session" = None \/ md !! "memory_window" = None)
      /\ (forall v, md !! "reset_session" = Some v -> v = PBool true /\ text = reset_marker)
      /\ (forall v, md !! "memory_window" = Some v -> exists n, v = PInt n /\ (0 <= n)%Z)
      /\ (forall k, is_Some (md !! k) ->
            k = "message_id" \/ k = "reset_session" \/ k = "memory_window"))
  /\ (forall e,
        parse_command ud mid raw = Raise e ->
        (exists msg, e = ValueError msg)
        /\ exists cmd arg rest,
             PyStr.split " " 2 raw = cmd :: arg :: rest
             /\ PyStr.lower cmd = "/context"
             /\ PyStr.isdigit ud arg = true
             /\ forall n, PyStr.int ud arg <> PyStr.IntValue n).
Proof.
  split; [| intros e; apply parse_command_raises_ValueError].
  intros text md Hrun.
  split; [apply (parse_command_message_id ud mid raw text md Hrun) |].
  destruct (parse_command_metadata_cases ud mid raw text md Hrun)
    as [-> | [[-> Hc] | (arg & n & Hd & Hint & ->)]].
  - split; [left; reflexivity |].
    split; [intros v H; rewrite lookup_singleton_ne in H by discriminate; discriminate |].
    split; [intros v H; rewrite lookup_singleton_ne in H by discriminate; discriminate |].
    intros k [v H]. left.
    destruct (decide (k = "message_id")) as [-> | Hk]; [reflexivity |].
    rewrite lookup_singleton_ne in H by congruence. discriminate.
  - split; [right; rewrite lookup_insert_ne by discriminate;
            apply lookup_singleton_ne; discriminate |].
    split; [intros v H; rewrite lookup_insert_eq in H; injection H as <-;
            split; [reflexivity | exact Hc] |].
    split; [intros v H; rewrite lookup_insert_ne in H by discriminate;
            rewrite lookup_singleton_ne in H by discriminate; discriminate |].
    intros k [v H].
    destruct (decide (k = "reset_session")) as [-> | Hk]; [right; left; reflexivity |].
    rewrite lookup_insert_ne in H by congruence.
    destruct (decide (k = "message_id")) as [-> | Hk']; [left; reflexivity |].
    rewrite lookup_singleton_ne in H by congruence. discriminate.
  - split; [left; rewrite lookup_insert_ne by discriminate;
            apply lookup_singleton_ne; discriminate |].
    split; [intros v H; rewrite lookup_insert_ne in H by discriminate;
            rewrite lookup_singleton_ne in H by discriminate; discriminate |].
    split; [intros v H; rewrite lookup_insert_eq in H; injection H as <-;
            eexists; split; [reflexivity | apply (int_value_nonneg _ _ _ Hint)] |].
    intros k [v H].
    destruct (decide (k = "memory_window")) as [-> | Hk]; [right; right; reflexivity |].
    rewrite lookup_insert_ne in H by congruence.
    destruct (decide (k = "message_id")) as [-> | Hk']; [left; reflexivity |].
    rewrite lookup_singleton_ne in H by congruence. discriminate.
Qed.

Lemma metadata_shape_witness :
  (<[ "memory_window" := PInt 12 ]> {[ "message_id" := PStr "m1" ]} : gmap string pyval)
    !! "message_id" = Some (PStr "m1")
  /\ (exists n, PInt 12 = PInt n /\ (0 <= n)%Z)
  /\ exists msg, ValueError "invalid literal for int() with base 10: '²'" = ValueError msg.
Proof.
  destruct (metadata_shape sample_unicode_digit (Some "m1") "/context 12 hi") as [Hok _].
  destruct (Hok "hi" (<[ "memory_window" := PInt 12 ]> {[ "message_id" := PStr "m1" ]}))
    as (Hid & _ & _ & Hwin & _); [vm_compute; reflexivity |].
  destruct (metadata_shape sample_unicode_digit (Some "m1") "/context ²") as [_ Hraise].
  destruct (Hraise (ValueError "invalid literal for int() with base 10: '²'"))
    as [Hmsg _]; [vm_compute; reflexivity |].
  split; [exact Hid |].
  split; [apply Hwin; vm_compute; reflexivity | exact Hmsg].
Defined.

(** X11: command interpretation never empties a message: the text the
    handler forwards is empty exactly when the trimmed text of the event
    is empty.  So an event without media is dropped as empty only when its
    text is empty or blank, whatever command it may carry. *)
Theorem forwarded_content_empty_iff_blank
  (env : Env) (mid c : option string) (text : string) (md : gmap string pyval) :
  interpreted env mid c = Ok (text, md) ->
  text = "" <-> trimmed_content c = "".
Proof.
  unfold interpreted, trimmed_content. intros H.
  apply (parse_command_content_empty _ _ _ _ _ (ends_with_space_strip _) H).
Qed.

Lemma forwarded_content_empty_iff_blank_witness :
  ("" = "" <-> trimmed_content (Some " 　 ") = "")
  /\ (reset_marker = "" <-> trimmed_content (Some "/reset") = "").
Proof.
  split.
  - apply (forwarded_content_empty_iff_blank sample_env (Some "m1") (Some " 　 ") ""
             {[ "message_id" := PStr "m1" ]}).
    vm_compute. reflexivity.
  - apply (forwarded_content_empty_iff_blank sample_env (Some "m1") (Some "/reset") reset_marker
             (<[ "reset_session" := PBool true ]> {[ "message_id" := PStr "m1" ]})).
    vm_compute. reflexivity.
Defined.

(** ** The inbound handler, case by case *)

Section HandlerCases.

Variable env : Env.

(** What [_on_message] returns and the world it leaves, in every case. *)
Lemma on_message_cases data w :
  match data_id data with
  | Missing => exists msg, _on_message env data w = (Ok tt, snd (log ERROR msg w))
  | Present mid =>
      if deque_contains mid (ledger w) then _on_message env data w = (Ok tt, w)
      else
        match data_author data, data_content data with
        | Present a, Present c =>
            match interpreted env mid c with
            | Raise _ =>
                exists msg,
                  _on_message env data w = (Ok tt, snd (log ERROR msg (mark_seen mid w)))
            | Ok (text, md) =>
                match collect_media env data (mark_seen mid w) with
                | (Ok paths, w1) =>
                    if PyStr.is_empty text && bool_decide (paths = [])
                    then _on_message env data w = (Ok tt, w1)
                    else
                      match bus_publish env (clock w1) (canonical_message a text md paths) with
                      | None =>
                          _on_message env data w
                          = (Ok tt,
                             snd (emit (ActPublish (canonical_message a text md paths))
                                    (snd (tick w1))))
                      | Some e =>
                          if is_Exception e
                          then exists msg,
                              _on_message env data w
                              = (Ok tt, snd (log ERROR msg (snd (tick w1))))
                          else _on_message env data w = (Raise e, snd (tick w1))
                      end
                | (Raise e, w1) =>
                    if is_Exception e
                    then exists msg, _on_message env data w = (Ok tt, snd (log ERROR msg w1))
                    else _on_message env data w = (Raise e, w1)
                end
            end
        | _, _ =>
            exists msg,
              _on_message env data w = (Ok tt, snd (log ERROR msg (mark_seen mid w)))
        end
  end.
Proof.
  destruct (data_id data) as [| mid] eqn:Hid.
  { eexists. unfold _on_message, try_except, _on_message_body, bind, getattr.
    rewrite Hid. reflexivity. }
  destruct (deque_contains mid (ledger w)) eqn:Hnew;
    [apply (on_message_seen env data mid w Hid Hnew) |].
  destruct (data_author data) as [| a] eqn:Ha.
  { eexists. unfold _on_message, try_except.
    rewrite (on_message_body_new env data mid w Hid Hnew).
    unfold process_new, bind, getattr. rewrite Ha. reflexivity. }
  destruct (data_content data) as [| c] eqn:Hc.
  { eexists. unfold _on_message, try_except.
    rewrite (on_message_body_new env data mid w Hid Hnew).
    unfold process_new, bind, getattr. rewrite Ha, Hc. reflexivity. }
  destruct (interpreted env mid c) as [[text md] | e0] eqn:Hint.
  2: { pose proof (parse_command_raises_Exception (unicode_digit env) mid (trimmed_content c) w)
         as He.
       unfold of_result in He. cbn [fst] in He. fold (interpreted env mid c) in He.
       rewrite Hint in He.
       eexists. unfold _on_message, try_except.
       rewrite (on_message_body_new env data mid w Hid Hnew).
       rewrite (process_new_unfold env data mid a c _ Ha Hc), Hint, He. reflexivity. }
  destruct (collect_media env data (mark_seen mid w)) as [[paths | e] w1] eqn:Hmedia.
  - destruct (on_message_new env data mid a c text md w paths w1 Hid Hnew Ha Hc Hint Hmedia)
      as [_ ->].
    destruct (PyStr.is_empty text && bool_decide (paths = []));
      [reflexivity |].
    unfold try_except. rewrite handle_message_published.
    destruct (bus_publish env (clock w1) (canonical_message a text md paths)) as [e |];
      [| reflexivity].
    destruct (is_Exception e); [eexists |]; reflexivity.
  - unfold _on_message, try_except.
    rewrite (on_message_body_new env data mid w Hid Hnew).
    rewrite (process_new_unfold env data mid a c _ Ha Hc), Hint, Hmedia.
    destruct (is_Exception e); [eexists |]; reflexivity.
Qed.

Lemma readings_log lvl msg w :
  published (snd (log lvl msg w)) = published w
  /\ http_gets (snd (log lvl msg w)) = http_gets w
  /\ chan (snd (log lvl msg w)) = chan w
  /\ logged (snd (log lvl msg w)) = logged w ++ [(lvl, msg)].
Proof.
  unfold log, emit, published, http_gets, logged. simpl. rewrite !omap_app. simpl.
  rewrite !app_nil_r. repeat split; reflexivity.
Qed.

Lemma readings_tick w :
  published (snd (tick w)) = published w
  /\ http_gets (snd (tick w)) = http_gets w
  /\ chan (snd (tick w)) = chan w
  /\ logged (snd (tick w)) = logged w.
Proof. repeat split; reflexivity. Qed.

Lemma readings_publish m w :
  published (snd (emit (ActPublish m) w)) = published w ++ [m]
  /\ http_gets (snd (emit (ActPublish m) w)) = http_gets w
  /\ chan (snd (emit (ActPublish m) w)) = chan w
  /\ logged (snd (emit (ActPublish m) w)) = logged w.
Proof.
  unfold emit, published, http_gets, logged. simpl. rewrite !omap_app. simpl.
  rewrite !app_nil_r. repeat split; reflexivity.
Qed.

Lemma readings_mark_seen mid w :
  published (mark_seen mid w) = published w
  /\ http_gets (mark_seen mid w) = http_gets w
  /\ logged (mark_seen mid w) = logged w.
Proof. repeat split; reflexivity. Qed.

(** [_download_media], outcome by outcome. *)
Lemma download_run url w :
  _download_media env url w
  = match http_get env (clock w) url with
    | HttpResponse status body ct =>
        if (status =? 200)%Z
        then (Ok (Some ("/tmp/tmp" +:+ pretty (S (clock w)) +:+ media_suffix env ct)),
              {| chan := chan w;
                 trace := (trace w ++ [ActHttpGet url])
                          ++ [ActWriteTemp
                                ("/tmp/tmp" +:+ pretty (S (clock w)) +:+ media_suffix env ct)
                                body];
                 clock := S (S (clock w)); next_oid := next_oid w |})
        else (Ok None,
              {| chan := chan w; trace := trace w ++ [ActHttpGet url];
                 clock := S (clock w); next_oid := next_oid w |})
    | HttpRaise e =>
        if is_Exception e
        then (Ok None,
              {| chan := chan w;
                 trace := (trace w ++ [ActHttpGet url])
                          ++ [ActLog ERROR ("Failed to download media: " +:+ exn_str e)];
                 clock := S (clock w); next_oid := next_oid w |})
        else (Raise e,
              {| chan := chan w; trace := trace w ++ [ActHttpGet url];
                 clock := S (clock w); next_oid := next_oid w |})
    end.
Proof.
  unfold _download_media, try_except, bind, tick, emit, NamedTemporaryFile, media_suffix,
    log, ret, raise.
  cbv beta iota. cbn [chan trace clock next_oid].
  destruct (http_get env (clock w) url) as [status body ct | e].
  - destruct (status =? 200)%Z; reflexivity.
  - destruct (is_Exception e); reflexivity.
Qed.

Lemma download_gets url w :
  http_gets (snd (_download_media env url w)) = http_gets w ++ [url].
Proof.
  rewrite download_run.
  destruct (http_get env (clock w) url) as [status body ct | e];
    [destruct (status =? 200)%Z | destruct (is_Exception e)];
    unfold http_gets; cbn [snd trace]; rewrite ?omap_app; simpl; rewrite ?app_nil_r;
    reflexivity.
Qed.

(** The loop over the attachments requests their usable URLs in order,
    and all of them when it runs to its end. *)
Lemma fetch_gets atts :
  forall acc w,
  exists l,
    http_gets (snd (fetch_attachments env atts acc w)) = http_gets w ++ l
    /\ l `prefix_of` omap usable_url atts
    /\ (forall r, fst (fetch_attachments env atts acc w) = Ok r -> l = omap usable_url atts).
Proof.
  induction atts as [| att rest IH]; intros acc w.
  { exists []. simpl. rewrite app_nil_r. repeat split; reflexivity. }
  cbn [fetch_attachments].
  assert (Homap : omap usable_url (att :: rest)
                  = match usable_url att with
                    | Some u => u :: omap usable_url rest
                    | None => omap usable_url rest
                    end) by reflexivity.
  rewrite Homap. clear Homap. unfold usable_url.
  destruct (att_url att) as [| [url |]]; [apply IH | | apply IH].
  destruct (PyStr.is_empty url); [apply IH |].
  unfold bind.
  pose proof (download_gets url w) as Hget.
  destruct (_download_media env url w) as [[path | e] w1]; cbn [fst snd] in *.
  - destruct (IH (if PyStr.truthy path then acc ++ [PyStr.str path] else acc) w1)
      as (l & Hl & Hpre & Hall).
    exists (url :: l). split; [rewrite Hl, Hget, <- app_assoc; reflexivity |].
    split; [apply prefix_cons; exact Hpre |].
    intros r Hr. rewrite (Hall r Hr). reflexivity.
  - exists [url]. split; [exact Hget |].
    split; [apply prefix_cons, prefix_nil | discriminate].
Qed.

Lemma collect_media_gets data w :
  exists l,
    http_gets (snd (collect_media env data w)) = http_gets w ++ l
    /\ l `prefix_of` omap usable_url (attachments_of data)
    /\ (forall r, fst (collect_media env data w) = Ok r ->
          l = omap usable_url (attachments_of data)).
Proof.
  unfold collect_media, attachments_of.
  destruct (data_attachments data) as [| [[| att atts] |]];
    first [apply fetch_gets
          | exists []; simpl; rewrite app_nil_r; repeat split; reflexivity].
Qed.

End HandlerCases.

(** ** What the handler publishes *)

Section Published.

Variable env : Env.

Lemma canonical_message_well_formed a mid c text md paths :
  interpreted env mid c = Ok (text, md) ->
  well_formed_message (canonical_message a text md paths)
  /\ message_id_of (canonical_message a text md paths) = Some (of_pystr mid).
Proof.
  intros Hint.
  unfold well_formed_message, message_id_of, canonical_message. cbn [sender_id chat_id
    content metadata].
  rewrite (parse_command_message_id _ _ _ _ _ Hint).
  split; [| reflexivity].
  split; [reflexivity |].
  split; [| exists mid; reflexivity].
  destruct text as [| ch rest]; simpl; discriminate.
Qed.

(** One delivery publishes nothing, or the canonical message of the
    event, whose id was not in the deque. *)
Lemma on_message_published_canonical data w :
  published (snd (_on_message env data w)) = published w
  \/ exists mid a c text md paths,
       published (snd (_on_message env data w))
       = published w ++ [canonical_message a text md paths]
       /\ data_id data = Present mid
       /\ deque_contains mid (ledger w) = false
       /\ data_author data = Present a
       /\ data_content data = Present c
       /\ interpreted env mid c = Ok (text, md).
Proof.
  pose proof (on_message_cases env data w) as H.
  destruct (data_id data) as [| mid] eqn:Hid.
  { destruct H as [msg ->]. left. apply readings_log. }
  destruct (deque_contains mid (ledger w)) eqn:Hnew; [rewrite H; left; reflexivity |].
  destruct (data_author data) as [| a];
    [destruct H as [msg ->]; left; cbn [snd];
     destruct (readings_log ERROR msg (mark_seen mid w)) as [-> _]; reflexivity |].
  destruct (data_content data) as [| c];
    [destruct H as [msg ->]; left; cbn [snd];
     destruct (readings_log ERROR msg (mark_seen mid w)) as [-> _]; reflexivity |].
  destruct (interpreted env mid c) as [[text md] | e0] eqn:Hint;
    [| destruct H as [msg ->]; left; cbn [snd];
       destruct (readings_log ERROR msg (mark_seen mid w)) as [-> _]; reflexivity].
  pose proof (collect_media_same_published env data (mark_seen mid w)) as Hpub.
  unfold same_published in Hpub.
  destruct (collect_media env data (mark_seen mid w)) as [[paths | e] w1]; cbn [snd] in Hpub.
  - destruct (PyStr.is_empty text && bool_decide (paths = []));
      [rewrite H; left; exact Hpub |].
    destruct (bus_publish env (clock w1) (canonical_message a text md paths)) as [e |].
    + destruct (is_Exception e); [destruct H as [msg ->] | rewrite H]; left; cbn [snd].
      * destruct (readings_log ERROR msg (snd (tick w1))) as [-> _]. exact Hpub.
      * exact Hpub.
    + rewrite H. right. exists mid, a, c, text, md, paths. cbn [snd].
      destruct (readings_publish (canonical_message a text md paths) (snd (tick w1)))
        as [-> _].
      split; [change (published (snd (tick w1))) with (published w1);
              rewrite Hpub; reflexivity |].
      repeat split; first [reflexivity | assumption].
  - destruct (is_Exception e); [destruct H as [msg ->] | rewrite H]; left; cbn [snd].
    + destruct (readings_log ERROR msg w1) as [-> _]. exact Hpub.
    + exact Hpub.
Qed.

(** One delivery publishes nothing, or one well-formed message that
    carries the id of the event, which was not in the deque. *)
Lemma on_message_published_shape data w :
  published (snd (_on_message env data w)) = published w
  \/ exists m mid,
       published (snd (_on_message env data w)) = published w ++ [m]
       /\ data_id data = Present mid
       /\ deque_contains mid (ledger w) = false
       /\ well_formed_message m
       /\ message_id_of m = Some (of_pystr mid).
Proof.
  destruct (on_message_published_canonical data w)
    as [H | (mid & a & c & text & md & paths & H & Hid & Hnew & _ & _ & Hint)];
    [left; exact H | right].
  exists (canonical_message a text md paths), mid.
  destruct (canonical_message_well_formed a mid c text md paths Hint) as [Hwf Hmid].
  repeat split; try assumption; apply Hwf.
Qed.

(** The message one delivery publishes is made from the event. *)
Lemma on_message_published_event data w :
  published (snd (_on_message env data w)) = published w
  \/ exists m,
       published (snd (_on_message env data w)) = published w ++ [m]
       /\ well_formed_message m
       /\ message_of_event data m.
Proof.
  destruct (on_message_published_canonical data w)
    as [H | (mid & a & c & text & md & paths & H & Hid & Hnew & Ha & _ & Hint)];
    [left; exact H | right].
  exists (canonical_message a text md paths).
  destruct (canonical_message_well_formed a mid c text md paths Hint) as [Hwf Hmid].
  split; [exact H |]. split; [exact Hwf |].
  exists mid, a. repeat split; assumption.
Qed.

(** A history is a path of [step], and every such path has one. *)
Lemma reachable_after_reachable cfg events w :
  reachable_after env cfg events w -> reachable env cfg w.
Proof.
  unfold reachable_after, reachable. intros H.
  refine (rtc_ind_r (fun s => rtc (step env) (init_world cfg) (snd s)) _ _ _ _ H).
  - apply rtc_refl.
  - intros s s' _ Hstep IH.
    destruct Hstep as [evs data w0 | evs w0 | evs fuel w0]; cbn [snd] in *;
      (eapply rtc_r; [exact IH |]); constructor.
Qed.

Lemma reachable_has_history cfg w :
  reachable env cfg w -> exists events, reachable_after env cfg events w.
Proof.
  unfold reachable, reachable_after. revert w. apply rtc_ind_r.
  - exists []. apply rtc_refl.
  - intros w1 w2 _ Hstep [events IH].
    destruct Hstep as [data w1 | w1 | fuel w1].
    + exists (events ++ [data]). eapply rtc_r; [exact IH | constructor].
    + exists events. eapply rtc_r; [exact IH | constructor].
    + exists events. eapply rtc_r; [exact IH | constructor].
Qed.

Lemma start_same_published : respects same_published (start env).
Proof. unfold start. repeat respects_step. Qed.

Lemma await_same_published o : respects same_published (await_ o).
Proof. unfold await_. repeat respects_step. Qed.

Lemma client_start_same_published : respects same_published (_client_start env).
Proof.
  pose proof await_same_published.
  unfold _client_start. repeat respects_step.
Qed.

Lemma run_bot_same_published fuel : respects same_published (_run_bot env fuel).
Proof.
  pose proof await_same_published. pose proof client_start_same_published.
  induction fuel as [| fuel IH]; simpl; repeat respects_step.
Qed.

(** Appending an absent element keeps a deque free of repetitions. *)
Lemma deque_append_NoDup (x : option string) (d : deque (option string)) :
  NoDup (dq_items d) -> x ∉ dq_items d -> NoDup (dq_items (deque_append x d)).
Proof.
  intros Hnd Hx.
  assert (Hall : NoDup (dq_items d ++ [x])).
  { apply NoDup_app. split; [exact Hnd |]. split; [| apply NoDup_singleton].
    intros y Hy Hin. apply list_elem_of_singleton in Hin as ->. exact (Hx Hy). }
  unfold deque_append. cbn [dq_items].
  destruct (dq_maxlen d <? length (dq_items d ++ [x]))%nat; [| exact Hall].
  exact (sublist_NoDup _ _ Hall (sublist_drop _ 1)).
Qed.

Lemma on_message_ledger_NoDup data w :
  NoDup (dq_items (ledger w)) ->
  NoDup (dq_items (ledger (snd (_on_message env data w)))).
Proof.
  intros Hnd. rewrite on_message_ledger.
  destruct (data_id data) as [| mid]; [exact Hnd |].
  destruct (deque_contains mid (ledger w)) eqn:Hnew; [exact Hnd |].
  apply deque_append_NoDup; [exact Hnd |].
  apply deque_contains_false. exact Hnew.
Qed.

End Published.

(** X12: an event that lacks an attribute the handler reads is logged and
    dropped without a fetch or a publish.  Without an [id] the deque is
    left as it was; with a first-seen [id] but without [author] or
    [content] the id is marked all the same. *)
Theorem malformed_event_logged_and_dropped (env : Env) (data : C2CMessage) (w : World) :
  (data_id data = Missing ->
   fst (_on_message env data w) = Ok tt
   /\ chan (snd (_on_message env data w)) = chan w
   /\ published (snd (_on_message env data w)) = published w
   /\ http_gets (snd (_on_message env data w)) = http_gets w
   /\ exists msg, logged (snd (_on_message env data w)) = logged w ++ [(ERROR, msg)])
  /\ (forall mid,
        data_id data = Present mid ->
        deque_contains mid (ledger w) = false ->
        data_author data = Missing \/ data_content data = Missing ->
        fst (_on_message env data w) = Ok tt
        /\ chan (snd (_on_message env data w)) = chan (mark_seen mid w)
        /\ published (snd (_on_message env data w)) = published w
        /\ http_gets (snd (_on_message env data w)) = http_gets w
        /\ exists msg, logged (snd (_on_message env data w)) = logged w ++ [(ERROR, msg)]).
Proof.
  pose proof (on_message_cases env data w) as H.
  split.
  - intros Hid. rewrite Hid in H. destruct H as [msg ->]. cbn [fst snd].
    destruct (readings_log ERROR msg w) as (-> & -> & -> & ->).
    repeat split; try reflexivity. exists msg. reflexivity.
  - intros mid Hid Hnew Hmissing. rewrite Hid, Hnew in H.
    assert (Hrun : exists msg,
               _on_message env data w = (Ok tt, snd (log ERROR msg (mark_seen mid w)))).
    { destruct Hmissing as [Ha | Hc].
      - rewrite Ha in H. exact H.
      - rewrite Hc in H. destruct (data_author data); exact H. }
    destruct Hrun as [msg ->]. cbn [fst snd].
    destruct (readings_log ERROR msg (mark_seen mid w)) as (-> & -> & -> & ->).
    repeat split; try reflexivity. exists msg. reflexivity.
Qed.

Lemma malformed_event_logged_and_dropped_witness :
  chan (snd (_on_message sample_env (malformed_event "m1") (init_world sample_config)))
  = chan (mark_seen (Some "m1") (init_world sample_config))
  /\ published (snd (_on_message sample_env (malformed_event "m1") (init_world sample_config)))
     = [].
Proof.
  destruct (malformed_event_logged_and_dropped sample_env (malformed_event "m1")
              (init_world sample_config)) as [_ H].
  destruct (H (Some "m1")) as (_ & Hchan & Hpub & _);
    [reflexivity | vm_compute; reflexivity | left; reflexivity |].
  split; [exact Hchan | exact Hpub].
Defined.

(** X13: in every reachable state the deque of processed ids holds no id
    twice. *)
Theorem processed_ids_never_repeat (env : Env) (cfg : QQConfig) (w : World) :
  reachable env cfg w -> NoDup (dq_items (ledger w)).
Proof.
  unfold reachable. revert w. apply rtc_ind_r.
  - simpl. constructor.
  - intros w1 w2 _ Hstep Hnd.
    destruct Hstep as [data w1 | w1 | fuel w1].
    + apply on_message_ledger_NoDup. exact Hnd.
    + rewrite (start_same_ledger env w1). exact Hnd.
    + rewrite (run_bot_same_ledger env fuel w1). exact Hnd.
Qed.

Lemma processed_ids_never_repeat_witness :
  NoDup
    (dq_items
       (ledger (snd (_on_message sample_env (text_event "m1" "hi")
                       (snd (_on_message sample_env (text_event "m1" "hi")
                               (init_world sample_config))))))).
Proof.
  apply (processed_ids_never_repeat sample_env sample_config).
  eapply rtc_r; [eapply rtc_r; [apply rtc_refl |] |]; apply step_message.
Defined.

(** X14: every message the channel ever publishes is made from one of the
    events it has handled: its metadata carry the id of that event, and
    its sender id, which is also its chat id, is the user id resolved from
    the author of that event; and its content is not empty.  Every
    reachable state has such a history of handled events. *)
Theorem published_messages_well_formed (env : Env) (cfg : QQConfig) (w : World) :
  (reachable env cfg w -> exists events, reachable_after env cfg events w)
  /\ (forall events,
        reachable_after env cfg events w ->
        Forall (fun m => well_formed_message m
                         /\ exists data, data ∈ events /\ message_of_event data m)
          (published w)).
Proof.
  split; [apply reachable_has_history |].
  intros events. unfold reachable_after. intros H.
  refine (rtc_ind_r
            (fun s => Forall (fun m => well_formed_message m
                                       /\ exists data, data ∈ fst s /\ message_of_event data m)
                        (published (snd s))) _ _ _ _ H).
  - constructor.
  - intros s s' _ Hstep IH.
    destruct Hstep as [evs data w0 | evs w0 | evs fuel w0]; cbn [fst snd] in *.
    + assert (Hold : Forall (fun m => well_formed_message m
                                      /\ exists d, d ∈ evs ++ [data] /\ message_of_event d m)
                       (published w0)).
      { eapply Forall_impl; [exact IH |].
        intros m (Hwf & d & Hd & Hm). split; [exact Hwf |].
        exists d. split; [apply elem_of_app; left; exact Hd | exact Hm]. }
      destruct (on_message_published_event env data w0) as [-> | (m & -> & Hwf & Hm)];
        [exact Hold |].
      apply Forall_app. split; [exact Hold |].
      constructor; [| constructor]. split; [exact Hwf |].
      exists data. split; [apply elem_of_app; right; left | exact Hm].
    + rewrite (start_same_published env w0). exact IH.
    + rewrite (run_bot_same_published env fuel w0). exact IH.
Qed.

Lemma published_messages_well_formed_witness :
  Forall (fun m => well_formed_message m
                   /\ exists data,
                        data ∈ [text_event "m0" "/context ²";
                                image_event "m1" ["https://cdn.example/a.png"]]
                        /\ message_of_event data m)
    (published
       (snd (_on_message sample_env (image_event "m1" ["https://cdn.example/a.png"])
               (snd (_on_message sample_env (text_event "m0" "/context ²")
                       (init_world sample_config)))))).
Proof.
  destruct (published_messages_well_formed sample_env sample_config
              (snd (_on_message sample_env (image_event "m1" ["https://cdn.example/a.png"])
                      (snd (_on_message sample_env (text_event "m0" "/context ²")
                              (init_world sample_config)))))) as [_ H].
  apply (H [text_event "m0" "/context ²"; image_event "m1" ["https://cdn.example/a.png"]]).
  eapply rtc_r; [eapply rtc_r; [apply rtc_refl |] |].
  - apply (history_message sample_env [] (text_event "m0" "/context ²")).
  - apply (history_message sample_env [text_event "m0" "/context ²"]
             (image_event "m1" ["https://cdn.example/a.png"])).
Defined.

Section AtMostOnce.

Variable env : Env.

Lemma deliver_at_most_once events :
  forall w,
    NoDup (message_id_of <$> published w) ->
    (forall m, m ∈ published w ->
               exists mid, message_id_of m = Some (of_pystr mid)
                           /\ mid ∈ dq_items (ledger w)) ->
    length (dq_items (ledger w)) + length events <= dq_maxlen (ledger w) ->
    NoDup (message_id_of <$> published (deliver env events w)).
Proof.
  induction events as [| e events IH]; intros w Hnd Hin Hlen; [exact Hnd |].
  cbn [deliver length] in *.
  assert (Hitems : forall x, x ∈ dq_items (ledger w) ->
                             x ∈ dq_items (ledger (snd (_on_message env e w)))).
  { intros x Hx. rewrite on_message_ledger.
    destruct (data_id e) as [| mid]; [exact Hx |].
    destruct (deque_contains mid (ledger w)); [exact Hx |].
    rewrite deque_append_room by lia. apply elem_of_app. left. exact Hx. }
  assert (Hroom : length (dq_items (ledger (snd (_on_message env e w)))) + length events
                  <= dq_maxlen (ledger (snd (_on_message env e w)))).
  { rewrite on_message_maxlen. rewrite on_message_ledger.
    destruct (data_id e) as [| mid]; [lia |].
    destruct (deque_contains mid (ledger w)); [lia |].
    rewrite deque_append_room by lia. rewrite length_app. simpl. lia. }
  apply IH; [| | exact Hroom].
  - destruct (on_message_published_shape env e w)
      as [-> | (m & mid & -> & Hid & Hnew & _ & Hmid)]; [exact Hnd |].
    rewrite fmap_app. apply NoDup_app. split; [exact Hnd |].
    split; [| apply NoDup_singleton].
    intros x Hx Hx'. apply list_elem_of_singleton in Hx' as ->.
    apply list_elem_of_fmap in Hx as (m' & Heq & Hm').
    destruct (Hin m' Hm') as (mid' & Hmid' & Hseen).
    rewrite Hmid, Hmid' in Heq. injection Heq as Heq. apply of_pystr_inj in Heq as <-.
    apply deque_contains_false in Hnew. exact (Hnew Hseen).
  - intros m Hm.
    destruct (on_message_published_shape env e w)
      as [Hsame | (m0 & mid & Hpub & Hid & Hnew & _ & Hmid)].
    + rewrite Hsame in Hm. destruct (Hin m Hm) as (mid & Hmid & Hseen).
      exists mid. split; [exact Hmid | apply Hitems; exact Hseen].
    + rewrite Hpub in Hm. apply elem_of_app in Hm as [Hm | Hm].
      * destruct (Hin m Hm) as (mid' & Hmid' & Hseen).
        exists mid'. split; [exact Hmid' | apply Hitems; exact Hseen].
      * apply list_elem_of_singleton in Hm as ->. exists mid. split; [exact Hmid |].
        rewrite on_message_ledger, Hid, Hnew.
        rewrite deque_append_room by lia. apply elem_of_app. right. left.
Qed.

End AtMostOnce.

(** X15: at most once.  Among the first 1000 deliveries to a new channel
    no two published messages carry the same message id, however the
    events repeat, fail or interleave. *)
Theorem each_id_published_at_most_once (env : Env) (cfg : QQConfig)
  (events : list C2CMessage) :
  length events <= 1000 ->
  NoDup (message_id_of <$> published (deliver env events (init_world cfg))).
Proof.
  intros Hlen. apply deliver_at_most_once.
  - constructor.
  - intros m Hm. inversion Hm.
  - simpl. exact Hlen.
Qed.

Lemma each_id_published_at_most_once_witness :
  NoDup
    (message_id_of
       <$> published
             (deliver sample_env
                [text_event "m1" "a"; text_event "m2" "b"; text_event "m1" "a";
                 text_event "m2" "c"]
                (init_world sample_config))).
Proof.
  apply (each_id_published_at_most_once sample_env sample_config). simpl. lia.
Defined.

(** X16: the handler requests nothing but URLs of the event's own
    attachments, in attachment order and each attachment at most once; when
    the loop over the attachments runs to its end it has requested every
    non-empty URL exactly once.  An event without attachments makes no
    request. *)
Theorem handler_requests_attachment_urls_only (env : Env) (data : C2CMessage) (w : World) :
  (exists l,
      http_gets (snd (_on_message env data w)) = http_gets w ++ l
      /\ l `prefix_of` omap usable_url (attachments_of data))
  /\ (forall mid a c text md paths w1,
        data_id data = Present mid ->
        deque_contains mid (ledger w) = false ->
        data_author data = Present a ->
        data_content data = Present c ->
        interpreted env mid c = Ok (text, md) ->
        collect_media env data (mark_seen mid w) = (Ok paths, w1) ->
        http_gets (snd (_on_message env data w))
        = http_gets w ++ omap usable_url (attachments_of data))
  /\ (attachments_of data = [] ->
      http_gets (snd (_on_message env data w)) = http_gets w).
Proof.
  assert (Hnone : exists l, http_gets w = http_gets w ++ l
                            /\ l `prefix_of` omap usable_url (attachments_of data)).
  { exists []. rewrite app_nil_r. split; [reflexivity | apply prefix_nil]. }
  assert (Hmain : exists l,
             http_gets (snd (_on_message env data w)) = http_gets w ++ l
             /\ l `prefix_of` omap usable_url (attachments_of data)
             /\ (forall mid a c text md paths w1,
                   data_id data = Present mid ->
                   deque_contains mid (ledger w) = false ->
                   data_author data = Present a ->
                   data_content data = Present c ->
                   interpreted env mid c = Ok (text, md) ->
                   collect_media env data (mark_seen mid w) = (Ok paths, w1) ->
                   l = omap usable_url (attachments_of data))).
  { pose proof (on_message_cases env data w) as H.
    destruct (data_id data) as [| mid] eqn:Hid.
    { destruct H as [msg ->]. cbn [snd].
      destruct (readings_log ERROR msg w) as (_ & -> & _).
      destruct Hnone as (l & Hl & Hpre). exists l. repeat split; try assumption.
      intros; congruence. }
    destruct (deque_contains mid (ledger w)) eqn:Hnew.
    { rewrite H. cbn [snd]. destruct Hnone as (l & Hl & Hpre). exists l.
      repeat split; try assumption. intros; congruence. }
    destruct (data_author data) as [| a] eqn:Ha.
    { destruct H as [msg ->]. cbn [snd].
      destruct (readings_log ERROR msg (mark_seen mid w)) as (_ & -> & _).
      destruct Hnone as (l & Hl & Hpre). exists l. repeat split; try assumption.
      intros; congruence. }
    destruct (data_content data) as [| c] eqn:Hc.
    { destruct H as [msg ->]. cbn [snd].
      destruct (readings_log ERROR msg (mark_seen mid w)) as (_ & -> & _).
      destruct Hnone as (l & Hl & Hpre). exists l. repeat split; try assumption.
      intros; congruence. }
    destruct (interpreted env mid c) as [[text md] | e0] eqn:Hint.
    2: { destruct H as [msg ->]. cbn [snd].
         destruct (readings_log ERROR msg (mark_seen mid w)) as (_ & -> & _).
         destruct Hnone as (l & Hl & Hpre). exists l. repeat split; try assumption.
         intros; congruence. }
    destruct (collect_media_gets env data (mark_seen mid w)) as (l & Hl & Hpre & Hall).
    exists l.
    assert (Hgets : http_gets (snd (_on_message env data w)) = http_gets w ++ l).
    { destruct (collect_media env data (mark_seen mid w)) as [[paths | e] w1];
        cbn [snd] in Hl.
      - destruct (PyStr.is_empty text && bool_decide (paths = []));
          [rewrite H; exact Hl |].
        destruct (bus_publish env (clock w1) (canonical_message a text md paths)) as [e |].
        + destruct (is_Exception e); [destruct H as [msg ->] | rewrite H]; cbn [snd].
          * destruct (readings_log ERROR msg (snd (tick w1))) as (_ & -> & _). exact Hl.
          * exact Hl.
        + rewrite H. cbn [snd].
          destruct (readings_publish (canonical_message a text md paths) (snd (tick w1)))
            as (_ & -> & _). exact Hl.
      - destruct (is_Exception e); [destruct H as [msg ->] | rewrite H]; cbn [snd].
        + destruct (readings_log ERROR msg w1) as (_ & -> & _). exact Hl.
        + exact Hl. }
    split; [exact Hgets |]. split; [exact Hpre |].
    intros mid' a' c' text' md' paths w1 Hid' _ _ _ _ Hmedia. injection Hid' as <-.
    apply (Hall paths). rewrite Hmedia. reflexivity. }
  destruct Hmain as (l & Hl & Hpre & Hall).
  split; [exists l; split; assumption |].
  split.
  - intros mid a c text md paths w1 Hid Hnew Ha Hc Hint Hmedia.
    rewrite Hl, (Hall mid a c text md paths w1 Hid Hnew Ha Hc Hint Hmedia). reflexivity.
  - intros Hempty. rewrite Hempty in Hpre. apply prefix_nil_inv in Hpre. subst l.
    rewrite Hl, app_nil_r. reflexivity.
Qed.

Lemma handler_requests_attachment_urls_only_witness :
  http_gets
    (snd (_on_message sample_env
            (image_event "m1" ["https://cdn.example/missing.png"; "https://cdn.example/a.png"])
            (init_world sample_config)))
  = ["https://cdn.example/missing.png"; "https://cdn.example/a.png"]
  /\ http_gets (snd (_on_message sample_env (text_event "m2" "/reset") (init_world sample_config)))
     = [].
Proof.
  split.
  - destruct (handler_requests_attachment_urls_only sample_env
                (image_event "m1"
                   ["https://cdn.example/missing.png"; "https://cdn.example/a.png"])
                (init_world sample_config)) as (_ & H & _).
    apply (H (Some "m1") sample_author (Some "") "" {[ "message_id" := PStr "m1" ]}
             ["/tmp/tmp2.png"]
             (snd (collect_media sample_env
                     (image_event "m1"
                        ["https://cdn.example/missing.png"; "https://cdn.example/a.png"])
                     (mark_seen (Some "m1") (init_world sample_config)))));
      [reflexivity | vm_compute; reflexivity | reflexivity | reflexivity | reflexivity
       | vm_compute; reflexivity].
  - destruct (handler_requests_attachment_urls_only sample_env (text_event "m2" "/reset")
                (init_world sample_config)) as (_ & _ & H).
    apply H. reflexivity.
Defined.

(** X17: every call of [_download_media] makes exactly one request, to the
    given URL, and leaves the channel and the bus alone.  A 200 response is
    written, body unchanged, to one temporary file whose name ends with the
    extension guessed from the [Content-Type] header, or with [.jpg] when
    the header is absent or unknown, and that name is returned.  Any other
    status yields no result, no file and no log entry; an [Exception]
    yields no result and one error log entry; anything else propagates. *)
Theorem download_outcomes (env : Env) (url : string) (w : World) :
  (http_gets (snd (_download_media env url w)) = http_gets w ++ [url]
   /\ chan (snd (_download_media env url w)) = chan w
   /\ published (snd (_download_media env url w)) = published w)
  /\ (forall body ct,
        http_get env (clock w) url = HttpResponse 200 body ct ->
        exists stem,
          fst (_download_media env url w) = Ok (Some (stem +:+ media_suffix env ct))
          /\ files_written (snd (_download_media env url w))
             = files_written w ++ [(stem +:+ media_suffix env ct, body)]
          /\ logged (snd (_download_media env url w)) = logged w)
  /\ (forall status body ct,
        http_get env (clock w) url = HttpResponse status body ct ->
        status <> 200%Z ->
        fst (_download_media env url w) = Ok None
        /\ files_written (snd (_download_media env url w)) = files_written w
        /\ logged (snd (_download_media env url w)) = logged w)
  /\ (forall e,
        http_get env (clock w) url = HttpRaise e ->
        (is_Exception e = true ->
         fst (_download_media env url w) = Ok None
         /\ files_written (snd (_download_media env url w)) = files_written w
         /\ logged (snd (_download_media env url w))
            = logged w ++ [(ERROR, "Failed to download media: " +:+ exn_str e)])
        /\ (is_Exception e = false ->
            fst (_download_media env url w) = Raise e
            /\ files_written (snd (_download_media env url w)) = files_written w
            /\ logged (snd (_download_media env url w)) = logged w))
  /\ (media_suffix env None = ".jpg" \/ guess_extension env "" = Some (media_suffix env None))
  /\ (forall ct, guess_extension env (default "" ct) = None -> media_suffix env ct = ".jpg").
Proof.
  split.
  { split; [apply download_gets |].
    split; [apply download_same_chan | apply download_same_published]. }
  split.
  { intros body ct Hget. rewrite download_run, Hget. cbn [Z.eqb Pos.eqb fst snd].
    exists ("/tmp/tmp" +:+ pretty (S (clock w))).
    assert (Hname : ("/tmp/tmp" +:+ pretty (S (clock w))) +:+ media_suffix env ct
                    = "/tmp/tmp" +:+ pretty (S (clock w)) +:+ media_suffix env ct)
      by reflexivity.
    rewrite Hname. unfold files_written, logged. cbn [trace].
    rewrite !omap_app. simpl. rewrite !app_nil_r. repeat split; reflexivity. }
  split.
  { intros status body ct Hget Hne. rewrite download_run, Hget.
    apply Z.eqb_neq in Hne. rewrite Hne. cbn [fst snd].
    unfold files_written, logged. cbn [trace]. rewrite !omap_app. simpl.
    rewrite !app_nil_r. repeat split; reflexivity. }
  split.
  { intros e Hget. split; intros He; rewrite download_run, Hget, He; cbn [fst snd];
      unfold files_written, logged; cbn [trace]; rewrite !omap_app; simpl;
      rewrite ?app_nil_r; repeat split; reflexivity. }
  split.
  { unfold media_suffix. simpl.
    destruct (guess_extension env "") as [e |]; [| left; reflexivity].
    destruct (PyStr.is_empty e); [left | right]; reflexivity. }
  intros ct Hnone. unfold media_suffix. rewrite Hnone. reflexivity.
Qed.

Lemma download_outcomes_witness :
  (exists stem,
      fst (_download_media sample_env "https://cdn.example/a.png" (init_world sample_config))
      = Ok (Some (stem +:+ ".png")))
  /\ logged (snd (_download_media sample_env "https://cdn.example/gone.png"
                    (init_world sample_config)))
     = [].
Proof.
  destruct (download_outcomes sample_env "https://cdn.example/a.png" (init_world sample_config))
    as (_ & Hok & _).
  destruct (download_outcomes sample_env "https://cdn.example/gone.png"
              (init_world sample_config)) as (_ & _ & Hbad & _).
  split.
  - destruct (Hok "PNG" (Some "image/png")) as (stem & Hres & _); [reflexivity |].
    exists stem. exact Hres.
  - destruct (Hbad 404%Z "" None) as (_ & _ & Hlog); [reflexivity | discriminate |].
    exact Hlog.
Defined.

(** ** Frames *)

#[local] Instance sleeps_five_preorder : PreOrder sleeps_five.
Proof.
  split.
  - intros w. exists []. rewrite app_nil_r. split; [reflexivity | constructor].
  - intros w1 w2 w3 (l1 & H1 & F1) (l2 & H2 & F2).
    exists (l1 ++ l2). split; [rewrite H2, H1, app_assoc; reflexivity |].
    apply Forall_app. split; assumption.
Qed.

Section LoopFrame.

Variable env : Env.

Lemma sleeps_five_quiet (w w' : World) : sleeps w' = sleeps w -> sleeps_five w w'.
Proof. intros H. exists []. rewrite app_nil_r. split; [exact H | constructor]. Qed.

Lemma log_sleeps_five lvl msg : respects sleeps_five (log lvl msg).
Proof.
  intros w. apply sleeps_five_quiet. unfold sleeps. simpl. rewrite omap_app. simpl.
  apply app_nil_r.
Qed.

Lemma tick_sleeps_five : respects sleeps_five tick.
Proof. intros w. apply sleeps_five_quiet. reflexivity. Qed.

Lemma get_chan_sleeps_five : respects sleeps_five get_chan.
Proof. intros w. apply sleeps_five_quiet. reflexivity. Qed.

Lemma set_running_sleeps_five b : respects sleeps_five (modify_chan (set_running b)).
Proof. intros w. apply sleeps_five_quiet. reflexivity. Qed.

Lemma sleep_sleeps_five : respects sleeps_five (emit (ActSleep 5)).
Proof.
  intros w. exists [5]. unfold sleeps. simpl. rewrite omap_app.
  split; [reflexivity | repeat constructor].
Qed.

Lemma attempt_sleeps_five c a s : respects sleeps_five (emit (ActClientStart c a s)).
Proof.
  intros w. apply sleeps_five_quiet. unfold sleeps. simpl. rewrite omap_app. simpl.
  apply app_nil_r.
Qed.

Lemma await_sleeps_five o : respects sleeps_five (await_ o).
Proof.
  pose proof set_running_sleeps_five.
  unfold await_. repeat respects_step.
Qed.

Lemma client_start_sleeps_five : respects sleeps_five (_client_start env).
Proof.
  pose proof get_chan_sleeps_five. pose proof tick_sleeps_five.
  pose proof attempt_sleeps_five. pose proof await_sleeps_five.
  unfold _client_start. repeat respects_step.
Qed.

Lemma run_bot_sleeps_five fuel : respects sleeps_five (_run_bot env fuel).
Proof.
  pose proof log_sleeps_five. pose proof sleep_sleeps_five.
  pose proof tick_sleeps_five. pose proof get_chan_sleeps_five.
  pose proof await_sleeps_five. pose proof client_start_sleeps_five.
  induction fuel as [| fuel IH]; simpl; repeat respects_step.
Qed.

End LoopFrame.

(** X18: whatever the environment does, the reconnect loop only connects,
    logs and sleeps: it never touches the deque of processed ids, never
    publishes, never creates or replaces the client, and every delay it
    sleeps is one of exactly five seconds. *)
Theorem run_bot_only_connects_and_sleeps (env : Env) (fuel : nat) (w : World) :
  ledger (snd (_run_bot env fuel w)) = ledger w
  /\ published (snd (_run_bot env fuel w)) = published w
  /\ clients_created (snd (_run_bot env fuel w)) = clients_created w
  /\ _client (chan (snd (_run_bot env fuel w))) = _client (chan w)
  /\ exists delays,
       sleeps (snd (_run_bot env fuel w)) = sleeps w ++ delays
       /\ Forall (fun n => n = 5) delays.
Proof.
  split; [apply run_bot_same_ledger |].
  split; [apply run_bot_same_published |].
  destruct (run_bot_reuses_client env fuel w) as (Hc & Hn & _).
  split; [exact Hn |]. split; [exact Hc |].
  apply run_bot_sleeps_five.
Qed.

Section HandlerFrame.

Variable env : Env.

Lemma chan_mark_seen mid w :
  chan (mark_seen mid w) = set_processed_ids (ledger (mark_seen mid w)) (chan w).
Proof. reflexivity. Qed.

Lemma set_processed_ids_same c : set_processed_ids (_processed_ids c) c = c.
Proof. destruct c. reflexivity. Qed.

(** Handling an event changes nothing of the channel but the deque. *)
Lemma on_message_chan data w :
  chan (snd (_on_message env data w))
  = set_processed_ids (ledger (snd (_on_message env data w))) (chan w).
Proof.
  destruct (data_id data) as [| mid] eqn:Hid.
  { pose proof (on_message_cases env data w) as H. rewrite Hid in H.
    destruct H as [msg ->]. cbn [snd]. unfold ledger.
    destruct (readings_log ERROR msg w) as (_ & _ & -> & _).
    symmetry. apply set_processed_ids_same. }
  destruct (deque_contains mid (ledger w)) eqn:Hnew.
  { rewrite (on_message_seen env data mid w Hid Hnew). cbn [snd]. unfold ledger.
    symmetry. apply set_processed_ids_same. }
  unfold ledger at 1. rewrite (on_message_chan_new env data mid w Hid Hnew).
  reflexivity.
Qed.

End HandlerFrame.

(** X19: handling an event changes nothing of the channel but the deque of
    processed ids: the running flag, the client, the task handle and the
    configuration are as before, whatever the event and the environment. *)
Theorem handler_changes_deque_only (env : Env) (data : C2CMessage) (w : World) :
  chan (snd (_on_message env data w))
    = set_processed_ids (ledger (snd (_on_message env data w))) (chan w)
  /\ _running (chan (snd (_on_message env data w))) = _running (chan w)
  /\ _client (chan (snd (_on_message env data w))) = _client (chan w)
  /\ _bot_task (chan (snd (_on_message env data w))) = _bot_task (chan w)
  /\ config (chan (snd (_on_message env data w))) = config (chan w)
  /\ connection_attempts (snd (_on_message env data w)) = connection_attempts w.
Proof.
  pose proof (on_message_chan env data w) as H.
  split; [exact H |].
  rewrite H. cbn [_running _client _bot_task config set_processed_ids].
  repeat split.
  pose proof (on_message_cases env data w) as Hc.
  assert (Hlog : forall lvl msg w0,
             connection_attempts (snd (log lvl msg w0)) = connection_attempts w0).
  { intros lvl msg w0. unfold connection_attempts, log, emit. simpl. rewrite omap_app.
    simpl. apply app_nil_r. }
  assert (Hmedia : forall w0,
             connection_attempts (snd (collect_media env data w0)) = connection_attempts w0).
  { intros w0.
    assert (Hdl : forall url w1,
               connection_attempts (snd (_download_media env url w1))
               = connection_attempts w1).
    { intros url w1. rewrite download_run.
      destruct (http_get env (clock w1) url) as [status body ct | e];
        [destruct (status =? 200)%Z | destruct (is_Exception e)];
        unfold connection_attempts; cbn [snd trace]; rewrite ?omap_app; simpl;
        rewrite ?app_nil_r; reflexivity. }
    unfold collect_media.
    destruct (data_attachments data) as [| [[| att atts] |]]; try reflexivity.
    generalize (att :: atts) (@nil string). clear att atts.
    intros atts. revert w0. induction atts as [| att rest IH]; intros w0 acc;
      [reflexivity |].
    cbn [fetch_attachments].
    destruct (att_url att) as [| [url |]]; [apply IH | | apply IH].
    destruct (PyStr.is_empty url); [apply IH |].
    unfold bind. specialize (Hdl url w0).
    destruct (_download_media env url w0) as [[path | e] w1]; cbn [snd] in *.
    - rewrite IH. exact Hdl.
    - exact Hdl. }
  destruct (data_id data) as [| mid]; [destruct Hc as [msg ->]; apply Hlog |].
  destruct (deque_contains mid (ledger w)); [rewrite Hc; reflexivity |].
  destruct (data_author data) as [| a];
    [destruct Hc as [msg ->]; cbn [snd]; rewrite Hlog; reflexivity |].
  destruct (data_content data) as [| c];
    [destruct Hc as [msg ->]; cbn [snd]; rewrite Hlog; reflexivity |].
  destruct (interpreted env mid c) as [[text md] | e0];
    [| destruct Hc as [msg ->]; cbn [snd]; rewrite Hlog; reflexivity].
  specialize (Hmedia (mark_seen mid w)).
  destruct (collect_media env data (mark_seen mid w)) as [[paths | e] w1]; cbn [snd] in Hmedia.
  - destruct (PyStr.is_empty text && bool_decide (paths = []));
      [rewrite Hc; exact Hmedia |].
    destruct (bus_publish env (clock w1) (canonical_message a text md paths)) as [e |].
    + destruct (is_Exception e); [destruct Hc as [msg ->]; cbn [snd]; rewrite Hlog
                                 | rewrite Hc]; exact Hmedia.
    + rewrite Hc. cbn [snd]. unfold connection_attempts, emit. cbn [snd trace].
      rewrite omap_app. simpl. rewrite app_nil_r. exact Hmedia.
  - destruct (is_Exception e); [destruct Hc as [msg ->]; cbn [snd]; rewrite Hlog
                               | rewrite Hc]; exact Hmedia.
Qed.

(** X20: the deque of processed ids survives a stop and a restart: an id
    seen before [stop] is still recognised after [start] has run again, and
    its redelivery is dropped. *)
Theorem dedup_survives_restart
  (env : Env) (join_result : option exn) (s : Platform) (data : C2CMessage)
  (mid : option string) :
  data_id data = Present mid ->
  deque_contains mid (ledger (pf_world s)) = true ->
  ledger (snd (start env (pf_world (snd (stop join_result s))))) = ledger (pf_world s)
  /\ _on_message env data (snd (start env (pf_world (snd (stop join_result s)))))
     = (Ok tt, snd (start env (pf_world (snd (stop join_result s))))).
Proof.
  intros Hid Hseen.
  assert (Hledger : ledger (snd (start env (pf_world (snd (stop join_result s)))))
                    = ledger (pf_world s)).
  { rewrite (start_same_ledger env). unfold ledger.
    destruct (stop_world join_result s) as (-> & _). reflexivity. }
  split; [exact Hledger |].
  apply (on_message_seen env data mid); [exact Hid |]. rewrite Hledger. exact Hseen.
Qed.

Lemma dedup_survives_restart_witness :
  _on_message sample_env (text_event "m1" "again")
    (snd (start sample_env (pf_world (snd (stop (Some CancelledError) served_platform)))))
  = (Ok tt,
     snd (start sample_env (pf_world (snd (stop (Some CancelledError) served_platform))))).
Proof.
  apply (dedup_survives_restart sample_env (Some CancelledError) served_platform
           (text_event "m1" "again") (Some "m1")).
  - reflexivity.
  - vm_compute. reflexivity.
Defined.
